(** * stock-investment: the quote engine of the VS Code extension, embedded in Rocq

    The development follows [StockDataProvider] (the TypeScript class of the
    extension): configuration parsing ([loadStockCodes]), the two tree
    builders ([getRootItems], [getDetailItems]), the batch fetch
    ([fetchAllStockData], [fetchBatchStocks] and its two event handlers) and
    the holdings updater ([updateHoldingShares]); then [getChildren], the
    update timer ([startAutoUpdate], [stopAutoUpdate], [deactivate]) and the
    command [stockView.editHoldingShares] registered by [activate].

    Conventions of the embedding.
    - A JavaScript string is a [string] of bytes (the UTF-8 encoding of the
      source literal); [String.prototype.trim] strips the six ASCII white
      space characters (the non-ASCII ones of ECMA-262 are outside the model).
    - A JavaScript Number is a [number]: NaN, the two infinities, or a finite
      value kept as a rational ([Qc]).  Every operation that produces a Number
      ([*], [+], [/], [parseFloat], [parseInt]) rounds its exact result to
      binary64, to nearest with ties to even ([round64]): 53 bits of mantissa,
      subnormals down to 2^-1074, Infinity from 2^1024 - 2^970 on.  Negative
      zero is identified with zero; no operation of the provider tells them
      apart.
    - [Number::toString] is concrete for NaN, the infinities and the safe
      integers; the shortest round-trip digits of any other finite value are
      a parameter ([ShortestDigits]).
    - The provider's fields are a record threaded through every method; the
      number of [_onDidChangeTreeData.fire()] calls is the field [fired].
    - [stocksData] is only read by key: a [gmap].  [holdingShares] is iterated
      in insertion order by [getRootItems]: an insertion-ordered association
      list ([JSMap]).
    - A thrown exception is a [Throw] completion. *)

From Stdlib Require Import ZArith QArith Qcanon Qround Qabs Qpower Lqa Ascii String.
From stdpp Require Import gmap strings list.

Open Scope string_scope.
Open Scope list_scope.

(** ** Strings *)

Module JSString.

(** White space stripped by [trim] and skipped by [parseFloat]:
    TAB, LF, VT, FF, CR and SP. *)
Definition isWhiteSpace (c : ascii) : bool :=
  let n := N_of_ascii c in
  ((9 <=? n)%N && (n <=? 13)%N) || (n =? 32)%N.

Fixpoint trimStart (s : string) : string :=
  match s with
  | EmptyString => EmptyString
  | String c r => if isWhiteSpace c then trimStart r else s
  end.

Fixpoint trimEnd (s : string) : string :=
  match s with
  | EmptyString => EmptyString
  | String c r =>
      match trimEnd r with
      | EmptyString => if isWhiteSpace c then EmptyString else String c EmptyString
      | t => String c t
      end
  end.

(** [s.trim()] *)
Definition trim (s : string) : string := trimEnd (trimStart s).

(** [s.split(sep)] for a one-character separator: never the empty list. *)
Fixpoint split (sep : ascii) (s : string) : list string :=
  match s with
  | EmptyString => [EmptyString]
  | String c r =>
      if Ascii.eqb c sep then EmptyString :: split sep r
      else match split sep r with
           | x :: xs => String c x :: xs
           | [] => [String c EmptyString]
           end
  end.

(** [s.startsWith(p)] *)
Fixpoint startsWith (p s : string) : bool :=
  match p, s with
  | EmptyString, _ => true
  | String a p', String b s' => Ascii.eqb a b && startsWith p' s'
  | String _ _, EmptyString => false
  end.

(** [l.join(sep)] *)
Fixpoint join (sep : string) (l : list string) : string :=
  match l with
  | [] => EmptyString
  | [x] => x
  | x :: r => x +:+ sep +:+ join sep r
  end.

(** Truthiness of a string: non-empty. *)
Definition truthy (s : string) : bool :=
  match s with EmptyString => false | String _ _ => true end.

Definition contains (c : ascii) (s : string) : Prop :=
  In c (list_ascii_of_string s).

(** [n] copies of the character [c]. *)
Fixpoint replicate (n : nat) (c : ascii) : string :=
  match n with O => EmptyString | S k => String c (replicate k c) end.

End JSString.

(** ** Numbers *)

Module JSNumber.

Inductive number : Type :=
| NaN
| Infinity (negative : bool)
| Fin (q : Qc).

Definition ofZ (z : Z) : number := Fin (Q2Qc (inject_Z z)).

Definition Qc_ltb (a b : Qc) : bool := negb (Qle_bool b a).
Definition Qc_leb (a b : Qc) : bool := Qle_bool a b.
Definition Qc_eqb (a b : Qc) : bool := Qeq_bool a b.

(** [isNaN(x)] *)
Definition isNaN (x : number) : bool :=
  match x with NaN => true | _ => false end.

(** [Number.isFinite(x)] *)
Definition isFinite (x : number) : bool :=
  match x with Fin _ => true | _ => false end.

(** [x > 0] *)
Definition gt0 (x : number) : bool :=
  match x with
  | NaN => false
  | Infinity neg => negb neg
  | Fin q => Qc_ltb 0 q
  end.

(** [x >= 0] *)
Definition ge0 (x : number) : bool :=
  match x with
  | NaN => false
  | Infinity neg => negb neg
  | Fin q => Qc_leb 0 q
  end.

(** Truthiness of a number: neither zero nor NaN. *)
Definition truthy (x : number) : bool :=
  match x with
  | NaN => false
  | Infinity _ => true
  | Fin q => negb (Qc_eqb q 0)
  end.

(** [x === y] on numbers. *)
Definition strictEq (x y : number) : bool :=
  match x, y with
  | Fin a, Fin b => Qc_eqb a b
  | Infinity s, Infinity t => Bool.eqb s t
  | _, _ => false
  end.

(** *** binary64 *)

(** The integer nearest to [x], the even one of two. *)
Definition roundHalfEven (x : Q) : Z :=
  let f := Qfloor x in
  match (x - inject_Z f ?= 1 # 2)%Q with
  | Lt => f
  | Gt => (f + 1)%Z
  | Eq => if Z.even f then f else (f + 1)%Z
  end.

(** The integer part of the binary logarithm of [v > 0]. *)
Definition log2Floor (v : Q) : Z :=
  let l := (Z.log2 (Qnum v) - Z.log2 (Z.pos (Qden v)))%Z in
  if Qle_bool (2 ^ l) v then l else (l - 1)%Z.

(** The exponent [e] of the last mantissa bit of the binary64 values around
    [v > 0]: [2^(e+52) <= v < 2^(e+53)], and -1074 for every [v] below
    2^-1022 (the subnormal range). *)
Definition ulpExponent (v : Q) : Z := Z.max (-1074) (log2Floor v - 52).

(** The Number for the real of magnitude [a >= 0] and sign [neg]: the
    nearest multiple of [2^e], the one with the even mantissa of two; it is
    Infinity when that multiple reaches 2^1024. *)
Definition round64 (neg : bool) (a : Q) : number :=
  if Qeq_bool a 0 then Fin 0
  else
    let e := ulpExponent a in
    let r := (inject_Z (roundHalfEven (a / 2 ^ e)) * 2 ^ e)%Q in
    if Qle_bool (2 ^ 1024) r then Infinity neg
    else Fin (Q2Qc (if neg then - r else r)).

(** The Number for the real [q]. *)
Definition roundQ (q : Q) : number :=
  round64 (negb (Qle_bool 0 q)) (Qabs q).

(** [x * y] *)
Definition mul (x y : number) : number :=
  match x, y with
  | NaN, _ | _, NaN => NaN
  | Infinity s, Infinity t => Infinity (xorb s t)
  | Infinity s, Fin q | Fin q, Infinity s =>
      if Qc_eqb q 0 then NaN else Infinity (xorb s (Qc_ltb q 0))
  | Fin a, Fin b => roundQ (this a * this b)
  end.

(** [x + y] *)
Definition add (x y : number) : number :=
  match x, y with
  | NaN, _ | _, NaN => NaN
  | Infinity s, Infinity t => if Bool.eqb s t then Infinity s else NaN
  | Infinity s, Fin _ | Fin _, Infinity s => Infinity s
  | Fin a, Fin b => roundQ (this a + this b)
  end.

(** [x / y] *)
Definition div (x y : number) : number :=
  match x, y with
  | NaN, _ | _, NaN => NaN
  | Infinity _, Infinity _ => NaN
  | Infinity s, Fin q => Infinity (xorb s (Qc_ltb q 0))
  | Fin _, Infinity _ => Fin 0
  | Fin a, Fin b =>
      if Qc_eqb b 0 then (if Qc_eqb a 0 then NaN else Infinity (Qc_ltb a 0))
      else roundQ (this a / this b)
  end.

(** *** Decimal digits *)

Definition digitChar (d : N) : ascii := ascii_of_N (48 + d).

(** Little-endian decimal digits of [n]; [fuel] bounds the number of digits. *)
Fixpoint digitsLE (fuel : nat) (n : N) : list N :=
  match fuel with
  | O => []
  | S f => if (n <? 10)%N then [n] else (n mod 10)%N :: digitsLE f (n / 10)%N
  end.

Definition stringOfLE (l : list N) : string :=
  string_of_list_ascii (map digitChar (rev l)).

(** The decimal representation of a natural number ("0" for zero). *)
Definition decimalDigits (n : N) : string :=
  stringOfLE (digitsLE (S (N.to_nat (N.size n))) n).

(** Exactly [k] little-endian digits of [n] (the low ones). *)
Fixpoint fixedLE (k : nat) (n : N) : list N :=
  match k with
  | O => []
  | S k' => (n mod 10)%N :: fixedLE k' (n / 10)%N
  end.

(** *** Number::toString *)

(** The shortest round-trip digits of a positive finite value that is not a
    safe integer: part of the language, not of the repository. *)
Class ShortestDigits := shortestDigits : Qc -> string.

Definition MAX_SAFE_INTEGER : Z := 9007199254740991.

Definition isInteger (q : Qc) : bool := Pos.eqb (Qden (this q)) 1.

Definition positiveToString `{ShortestDigits} (q : Qc) : string :=
  if isInteger q && (Qnum (this q) <=? MAX_SAFE_INTEGER)%Z
  then decimalDigits (Z.to_N (Qnum (this q)))
  else shortestDigits q.

(** [String(x)], [`${x}`] *)
Definition ToString `{ShortestDigits} (x : number) : string :=
  match x with
  | NaN => "NaN"
  | Infinity false => "Infinity"
  | Infinity true => "-Infinity"
  | Fin q =>
      if Qc_ltb q 0 then "-" +:+ positiveToString (- q)%Qc
      else positiveToString q
  end.

(** *** Number.prototype.toFixed *)

Definition pow10 (k : nat) : Z := 10 ^ Z.of_nat k.

(** The integer [n] for which [n / 10^f - x] is as close to zero as possible,
    the larger one of two. *)
Definition nearestScaled (x : Q) (f : nat) : Z :=
  Qfloor (x * inject_Z (pow10 f) + (1 # 2)).

(** Steps 10.a-10.c of toFixed: the digits of [n] with a point before the
    last [f] of them, zero-padded on the left to [f + 1] digits. *)
Definition pointBefore (f : nat) (m : string) : string :=
  match f with
  | O => m
  | _ =>
      let k := String.length m in
      let m' := if (k <=? f)%nat then JSString.replicate (f + 1 - k) "0" +:+ m else m in
      let k' := String.length m' in
      substring 0 (k' - f) m' +:+ "." +:+ substring (k' - f) f m'
  end.

(** [x.toFixed(f)] *)
Definition toFixed `{ShortestDigits} (x : number) (f : nat) : string :=
  match x with
  | Fin q =>
      let neg := Qc_ltb q 0 in
      let a := Qabs (this q) in
      let s := if neg then "-" else EmptyString in
      if Qle_bool (inject_Z (10 ^ 21)) a
      then s +:+ ToString (Fin (Q2Qc a))
      else s +:+ pointBefore f (decimalDigits (Z.to_N (nearestScaled a f)))
  | _ => ToString x
  end.

(** *** parseFloat *)

Definition isDigit (c : ascii) : bool :=
  let n := N_of_ascii c in (48 <=? n)%N && (n <=? 57)%N.

Definition digitValue (c : ascii) : N := (N_of_ascii c - 48)%N.

(** The longest run of decimal digits at the head of [s], and the rest. *)
Fixpoint spanDigits (s : string) : list ascii * string :=
  match s with
  | String c r =>
      if isDigit c then let '(ds, rest) := spanDigits r in (c :: ds, rest)
      else ([], s)
  | EmptyString => ([], EmptyString)
  end.

Definition valueOfDigits (ds : list ascii) : N :=
  fold_left (fun acc c => (acc * 10 + digitValue c)%N) ds 0%N.

(** An optional sign at the head of [s]. *)
Definition signOf (s : string) : bool * string :=
  match s with
  | String "-" r => (true, r)
  | String "+" r => (false, r)
  | _ => (false, s)
  end.

(** ExponentPart at the head of [s]: its value, zero when there is none. *)
Definition exponentOf (s : string) : Z :=
  match s with
  | String c r =>
      if Ascii.eqb c "e" || Ascii.eqb c "E" then
        let '(neg, r') := signOf r in
        let '(ds, _) := spanDigits r' in
        match ds with
        | [] => 0%Z
        | _ => let v := Z.of_N (valueOfDigits ds) in if neg then (- v)%Z else v
        end
      else 0%Z
  | EmptyString => 0%Z
  end.

(** [m * 10^e] as an exact rational. *)
Definition scale10 (m : N) (e : Z) : Q :=
  if (0 <=? e)%Z then inject_Z (Z.of_N m * 10 ^ e)
  else inject_Z (Z.of_N m) / inject_Z (10 ^ (- e)).

(** The Number value of the decimal [m * 10^e] with sign [neg]. *)
Definition roundDecimal (neg : bool) (m : N) (e : Z) : number :=
  if (m =? 0)%N then Fin 0 else round64 neg (scale10 m e).

(** [parseFloat(input)]: leading white space skipped, then the longest prefix
    that is a StrDecimalLiteral; NaN when there is none. *)
Definition parseFloat (input : string) : number :=
  let '(neg, s1) := signOf (JSString.trimStart input) in
  if JSString.startsWith "Infinity" s1 then Infinity neg
  else
    let '(ip, s2) := spanDigits s1 in
    let '(fp, s3) :=
      match s2 with
      | String "." r => spanDigits r
      | _ => ([], s2)
      end in
    match ip ++ fp with
    | [] => NaN
    | ds => roundDecimal neg (valueOfDigits ds)
              (exponentOf s3 - Z.of_nat (length fp))
    end.

End JSNumber.

(** ** Map, iterated in insertion order *)

Module JSMap.

Definition t (V : Type) : Type := list (string * V).

Definition empty {V} : t V := [].

(** [m.get(k)] *)
Fixpoint get {V} (k : string) (m : t V) : option V :=
  match m with
  | [] => None
  | (k', v) :: r => if String.eqb k' k then Some v else get k r
  end.

(** [m.set(k, v)]: an existing key keeps its place, a new one goes last. *)
Fixpoint set {V} (k : string) (v : V) (m : t V) : t V :=
  match m with
  | [] => [(k, v)]
  | (k', v') :: r =>
      if String.eqb k' k then (k', v) :: r else (k', v') :: set k v r
  end.

(** [m.entries()] *)
Definition entries {V} (m : t V) : list (string * V) := m.

End JSMap.

(** ** The data of the extension *)

Import JSNumber.

(** [interface StockData] *)
Record StockData := mkStockData {
  code : string;
  name : string;
  current : string;
  change : string;
  changePercent : string;
  previousClose : string;
  updateTime : string;
}.

(** [vscode.ThemeIcon] with its optional [vscode.ThemeColor]. *)
Record ThemeIcon := mkThemeIcon {
  iconId : string;
  iconColor : option string;
}.

(** [vscode.TreeItemCollapsibleState] *)
Inductive TreeItemCollapsibleState := StateNone | Collapsed | Expanded.

(** [class StockItem extends vscode.TreeItem] *)
Record StockItem := mkStockItem {
  label : string;
  collapsibleState : TreeItemCollapsibleState;
  description : option string;
  iconPath : option ThemeIcon;
  stockCode : option string;
  isRoot : bool;
  tooltip : string;
  contextValue : option string;
}.

(** The constructor of [StockItem]. *)
Definition newStockItem (label : string) (state : TreeItemCollapsibleState)
    (description : option string) (iconPath : option ThemeIcon)
    (stockCode : option string) (isRoot : bool) : StockItem :=
  {| label := label;
     collapsibleState := state;
     description := description;
     iconPath := iconPath;
     stockCode := stockCode;
     isRoot := isRoot;
     tooltip := EmptyString;
     contextValue :=
       if isRoot && from_option JSString.truthy false stockCode
       then Some "stockRoot" else None |}.

(** The fields of [StockDataProvider]. *)
Record Provider := mkProvider {
  stocksData : gmap string StockData;
  isLoading : bool;
  stockCodeList : list string;
  holdingShares : JSMap.t number;
  lastUpdateTime : string;
  fired : nat;
}.

(** The fields' initialisers, before the constructor body runs. *)
Definition initialProvider : Provider :=
  {| stocksData := ∅;
     isLoading := true;
     stockCodeList := [];
     holdingShares := JSMap.empty;
     lastUpdateTime := EmptyString;
     fired := 0 |}.

(** Exceptions of the language that the provider's code can raise. *)
Inductive JSError := SyntaxError | TypeError.

Inductive Completion (A : Type) : Type :=
| Normal (a : A)
| Throw (e : JSError).
Arguments Normal {A} a.
Arguments Throw {A} e.

Definition bindC {A B} (c : Completion A) (k : A -> Completion B) : Completion B :=
  match c with
  | Normal a => k a
  | Throw e => Throw e
  end.

(** A loop body run over a list in order, stopping at the first exception. *)
Fixpoint mapC {A B} (f : A -> Completion B) (l : list A) : Completion (list B) :=
  match l with
  | [] => Normal []
  | x :: r =>
      bindC (f x) (fun y => bindC (mapC f r) (fun ys => Normal (y :: ys)))
  end.

(** ** loadStockCodes *)

(** The body of the loop over the trimmed, non-empty entries: the parsed
    codes so far and the holdings map. *)
Definition parseEntry (acc : list string * JSMap.t number) (entry : string)
    : list string * JSMap.t number :=
  let '(parsedCodes, holdings) := acc in
  let parts := JSString.split ":" entry in
  let stockCode := JSString.trim (nth 0 parts EmptyString) in
  if JSString.truthy stockCode then
    (parsedCodes ++ [stockCode],
     match nth_error parts 1 with
     | Some rhs =>
         let shares := parseFloat (JSString.trim rhs) in
         if negb (isNaN shares) && gt0 shares
         then JSMap.set stockCode shares holdings
         else holdings
     | None => holdings
     end)
  else acc.

(** [loadStockCodes()], with the value of the setting
    [stockInvestment.stockCodeList] as [customCodes]. *)
Definition loadStockCodes (customCodes : list string) (s : Provider) : Provider :=
  let s0 := {| stocksData := stocksData s;
               isLoading := isLoading s;
               stockCodeList := ["1.000001"];
               holdingShares := JSMap.empty;
               lastUpdateTime := lastUpdateTime s;
               fired := fired s |} in
  if (0 <? length customCodes)%nat then
    let codes :=
      List.filter (fun c => (0 <? String.length c)%nat)
                  (map JSString.trim customCodes) in
    if (0 <? length codes)%nat then
      let '(parsedCodes, holdings) :=
        fold_left parseEntry codes ([], holdingShares s0) in
      {| stocksData := stocksData s;
         isLoading := isLoading s;
         stockCodeList := parsedCodes;
         holdingShares := holdings;
         lastUpdateTime := lastUpdateTime s;
         fired := fired s |}
    else s0
  else s0.

(** ** getRootItems and getDetailItems *)

(** The number formatted to two decimals, with an explicit plus sign when it
    is not negative: the text of both profit-and-loss rows. *)
Definition signedFixed2 `{ShortestDigits} (x : number) : string :=
  if ge0 x then "+" +:+ toFixed x 2 else toFixed x 2.

Definition profitLossItem `{ShortestDigits} (x : number) : StockItem :=
  newStockItem "今日盈亏" StateNone (Some (signedFixed2 x))
    (Some (mkThemeIcon (if ge0 x then "arrow-up" else "arrow-down")
             (Some (if ge0 x then "charts.red" else "charts.green"))))
    None false.

(** The market tag and the icon colour of a code.  [code.split('.')[1]] is
    undefined for a code without a point, and [startsWith] on it is a
    TypeError. *)
Definition marketTagOf (code : string) : Completion (string * string) :=
  let parts := JSString.split "." code in
  let marketCode := nth 0 parts EmptyString in
  let stockCode := nth_error parts 1 in
  if String.eqb marketCode "116" then Normal (" ［港］", "charts.purple")
  else if String.eqb marketCode "105" || String.eqb marketCode "106"
          || String.eqb marketCode "107"
  then Normal (" ［美］", "charts.blue")
  else if String.eqb marketCode "0" then
    match stockCode with
    | None => Throw TypeError
    | Some sc =>
        if JSString.startsWith "3" sc then Normal (" ［创］", "charts.orange")
        else Normal (EmptyString, "charts.green")
    end
  else if String.eqb marketCode "1" then
    match stockCode with
    | None => Throw TypeError
    | Some sc =>
        if JSString.startsWith "688" sc then Normal (" ［科］", "charts.yellow")
        else Normal (EmptyString, "charts.green")
    end
  else Normal (EmptyString, "charts.green").

(** The body of the loop of [getRootItems] over [stockCodeList]. *)
Definition rootItemOf (s : Provider) (code : string) : Completion StockItem :=
  match stocksData s !! code with
  | None =>
      Normal (newStockItem code Collapsed (Some "加载失败")
                (Some (mkThemeIcon "error" None)) (Some code) true)
  | Some stockData =>
      let changeNum := parseFloat (change stockData) in
      let isUp := ge0 changeNum in
      let arrow := if isUp then "↑" else "↓" in
      bindC (marketTagOf code) (fun '(marketTag, color) =>
        Normal (newStockItem (name stockData) Collapsed
                  (Some (current stockData +:+ " " +:+ arrow +:+ " "
                           +:+ changePercent stockData +:+ "%" +:+ marketTag))
                  (Some (mkThemeIcon "circle-filled" (Some color)))
                  (Some code) true))
  end.

(** The second loop of [getRootItems]: the running total and [hasHoldings]. *)
Definition totalProfitLoss (s : Provider) : number * bool :=
  fold_left
    (fun '(total, hasHoldings) '(code, shares) =>
       match stocksData s !! code with
       | Some stockData =>
           if gt0 shares
           then (add total (mul (parseFloat (change stockData)) shares), true)
           else (total, hasHoldings)
       | None => (total, hasHoldings)
       end)
    (JSMap.entries (holdingShares s)) (ofZ 0, false).

(** [getRootItems()] *)
Definition getRootItems `{ShortestDigits} (s : Provider)
    : Completion (list StockItem) :=
  if isLoading s then
    Normal [newStockItem "上证指数" Collapsed (Some "加载中...")
              (Some (mkThemeIcon "loading~spin" None)) (Some "1.000001") true]
  else
    bindC (mapC (rootItemOf s) (stockCodeList s)) (fun items =>
      let '(total, hasHoldings) := totalProfitLoss s in
      let items1 :=
        if hasHoldings then items ++ [profitLossItem total] else items in
      let items2 :=
        if JSString.truthy (lastUpdateTime s)
        then items1 ++ [newStockItem "更新时间" StateNone
                          (Some (lastUpdateTime s))
                          (Some (mkThemeIcon "clock" None)) None false]
        else items1 in
      Normal items2).

(** [getDetailItems(stockCode)] *)
Definition getDetailItems `{ShortestDigits} (stockCode : string) (s : Provider)
    : list StockItem :=
  match stocksData s !! stockCode with
  | None => []
  | Some stockData =>
      let changeNum := parseFloat (change stockData) in
      let isUp := ge0 changeNum in
      let arrow := if isUp then "↑" else "↓" in
      let items :=
        [ newStockItem "昨日收盘" StateNone (Some (previousClose stockData))
            (Some (mkThemeIcon "symbol-number" (Some "charts.blue"))) None false;
          newStockItem "涨跌点数" StateNone
            (Some (arrow +:+ " " +:+ change stockData))
            (Some (mkThemeIcon (if isUp then "arrow-up" else "arrow-down")
                     (Some (if isUp then "charts.red" else "charts.green"))))
            None false ] in
      match JSMap.get stockCode (holdingShares s) with
      | Some shares =>
          if JSNumber.truthy shares then
            items ++
            [ newStockItem "持有股数" StateNone (Some (ToString shares))
                (Some (mkThemeIcon "database" (Some "charts.purple"))) None false;
              profitLossItem (mul changeNum shares) ]
          else items
      | None => items
      end
  end.

(** ** The batch fetch *)

(** One record of [jsonData.data.diff], after the coercions the loop applies
    to its fields: [f12] (symbol) and [f14] (name, empty when falsy) as
    strings; [f13] (market id), [f2], [f3], [f4], [f18] as numbers. *)
Record RawStock := mkRawStock {
  f12 : string;
  f13 : number;
  f14 : string;
  f2 : number;
  f3 : number;
  f4 : number;
  f18 : number;
}.

(** What the response handler finds at [jsonData.data.diff]. *)
Inductive Diff :=
| DiffFalsy                                  (* a falsy link of the && chain *)
| DiffNotIterable                            (* truthy, and for-of throws *)
| DiffArray (stocks : list (option RawStock)). (* [None]: a falsy element *)

Inductive Body :=
| InvalidJSON                                (* [JSON.parse] throws *)
| Json (diff : Diff).

(** The one event a request ends with: ['error'] on the request, or ['end']
    on the response with the body received. *)
Inductive Response :=
| RequestError
| ResponseEnd (body : Body).

(** A request in flight: the closure of [fetchBatchStocks]. *)
Record Request := mkRequest {
  url : string;
  batchTime : string;
}.

Definition isHKorUS (marketCode : number) : bool :=
  strictEq marketCode (ofZ 116) || strictEq marketCode (ofZ 105)
  || strictEq marketCode (ofZ 106) || strictEq marketCode (ofZ 107).

(** The quote built from one record (the body of the for-of loop). *)
Definition quoteOf `{ShortestDigits} (updateTime : string) (stockData : RawStock)
    : StockData :=
  let marketCode := f13 stockData in
  let stockCode := ToString marketCode +:+ "." +:+ f12 stockData in
  let name := if JSString.truthy (f14 stockData) then f14 stockData else stockCode in
  let divisor := if isHKorUS marketCode then ofZ 1000 else ofZ 100 in
  let decimals := if isHKorUS marketCode then 3%nat else 2%nat in
  {| code := stockCode;
     name := name;
     current := toFixed (div (f2 stockData) divisor) decimals;
     change := toFixed (div (f4 stockData) divisor) decimals;
     changePercent := toFixed (div (f3 stockData) (ofZ 100)) 2;
     previousClose := toFixed (div (f18 stockData) divisor) decimals;
     updateTime := updateTime |}.

Definition setStocksData (m : gmap string StockData) (s : Provider) : Provider :=
  {| stocksData := m;
     isLoading := isLoading s;
     stockCodeList := stockCodeList s;
     holdingShares := holdingShares s;
     lastUpdateTime := lastUpdateTime s;
     fired := fired s |}.

Definition storeQuote `{ShortestDigits} (updateTime : string)
    (m : gmap string StockData) (item : option RawStock) : gmap string StockData :=
  match item with
  | None => m
  | Some stockData =>
      let q := quoteOf updateTime stockData in <[code q := q]> m
  end.

(** The completion callback passed by [fetchAllStockData]. *)
Definition callback (s : Provider) : Completion Provider :=
  Normal {| stocksData := stocksData s;
            isLoading := false;
            stockCodeList := stockCodeList s;
            holdingShares := holdingShares s;
            lastUpdateTime := lastUpdateTime s;
            fired := S (fired s) |}.

(** The [try] block of the ['end'] handler.  Both exceptions are raised
    before the first [stocksData.set]. *)
Definition tryBlock `{ShortestDigits} (req : Request) (body : Body) (s : Provider)
    : Completion Provider :=
  match body with
  | InvalidJSON => Throw SyntaxError
  | Json DiffFalsy => Normal s
  | Json DiffNotIterable => Throw TypeError
  | Json (DiffArray stocks) =>
      Normal (setStocksData
                (fold_left (storeQuote (batchTime req)) stocks (stocksData s)) s)
  end.

(** [try { ... } catch (error) { console.error(...) }] *)
Definition tryCatch {A} (block : Completion A) (handler : JSError -> Completion A)
    : Completion A :=
  match block with
  | Normal a => Normal a
  | Throw e => handler e
  end.

(** [res.on("end", ...)] *)
Definition onEnd `{ShortestDigits} (req : Request) (body : Body) (s : Provider)
    : Completion Provider :=
  bindC (tryCatch (tryBlock req body s) (fun _ => Normal s)) callback.

(** [.on("error", ...)] *)
Definition onError (req : Request) (s : Provider) : Completion Provider :=
  callback s.

Definition respond `{ShortestDigits} (req : Request) (r : Response) (s : Provider)
    : Completion Provider :=
  match r with
  | RequestError => onError req s
  | ResponseEnd body => onEnd req body s
  end.

(** [fetchBatchStocks(stockCodeList, updateTime, callback)]: the request it
    issues; its handlers are [onEnd] and [onError]. *)
Definition fetchBatchStocks (stockCodeList : list string) (updateTime : string)
    : Request :=
  {| url := "http://push2.eastmoney.com/api/qt/ulist.np/get?secids="
            +:+ JSString.join "," stockCodeList
            +:+ "&fields=f12,f13,f14,f2,f4,f3,f18";
     batchTime := updateTime |}.

(** [fetchAllStockData()], with [new Date().toLocaleTimeString("zh-CN")] as
    [now]: the synchronous part, and the request left in flight. *)
Definition fetchAllStockData (now : string) (s : Provider)
    : Provider * option Request :=
  if (length (stockCodeList s) =? 0)%nat then
    ({| stocksData := stocksData s;
        isLoading := false;
        stockCodeList := stockCodeList s;
        holdingShares := holdingShares s;
        lastUpdateTime := lastUpdateTime s;
        fired := S (fired s) |}, None)
  else
    ({| stocksData := ∅;
        isLoading := isLoading s;
        stockCodeList := stockCodeList s;
        holdingShares := holdingShares s;
        lastUpdateTime := now;
        fired := fired s |},
     Some (fetchBatchStocks (stockCodeList s) now)).

(** ** updateHoldingShares *)

(** The new value of the setting computed by [updateHoldingShares]. *)
Definition rewriteEntries `{ShortestDigits} (customCodes : list string)
    (stockCode : string) (shares : number) : list string :=
  let '(newCodes, found) :=
    fold_left
      (fun '(newCodes, found) code =>
         let trimmedCode := JSString.trim code in
         if negb (JSString.truthy trimmedCode) then (newCodes, found)
         else
           let parts := JSString.split ":" trimmedCode in
           let codeOnly := JSString.trim (nth 0 parts EmptyString) in
           if String.eqb codeOnly stockCode then
             (newCodes ++ [if gt0 shares
                           then stockCode +:+ ":" +:+ ToString shares
                           else stockCode], true)
           else (newCodes ++ [trimmedCode], found))
      customCodes ([], false) in
  if negb found && gt0 shares
  then newCodes ++ [stockCode +:+ ":" +:+ ToString shares]
  else newCodes.

(** ** The extension as a transition system *)

(** The provider, the setting [stockInvestment.stockCodeList] of the
    configuration store, and the requests in flight. *)
Record Engine := mkEngine {
  provider : Provider;
  settings : list string;
  inflight : list Request;
}.

Definition startFetch (now : string) (cfg : list string) (reqs : list Request)
    (s : Provider) : Engine :=
  let '(s', req) := fetchAllStockData now s in
  {| provider := s'; settings := cfg; inflight := reqs ++ option_list req |}.

(** [refresh()] *)
Definition refresh (now : string) (e : Engine) : Engine :=
  startFetch now (settings e) (inflight e)
    (loadStockCodes (settings e) (provider e)).

(** The timer of [startAutoUpdate]. *)
Definition tick (now : string) (e : Engine) : Engine :=
  startFetch now (settings e) (inflight e) (provider e).

(** [new StockDataProvider()] *)
Definition construct (now : string) (cfg : list string) : Engine :=
  refresh now {| provider := initialProvider; settings := cfg; inflight := [] |}.

(** [updateHoldingShares(stockCode, shares)]: the setting is rewritten, then
    [refresh()] runs. *)
Definition updateHoldingShares `{ShortestDigits} (stockCode : string)
    (shares : number) (now : string) (e : Engine) : Engine :=
  refresh now {| provider := provider e;
                 settings := rewriteEntries (settings e) stockCode shares;
                 inflight := inflight e |}.

Inductive step `{ShortestDigits} : Engine -> Engine -> Prop :=
| step_refresh now e :
    step e (refresh now e)
| step_tick now e :
    step e (tick now e)
| step_configure cfg now e :
    step e (refresh now {| provider := provider e; settings := cfg;
                           inflight := inflight e |})
| step_update stockCode shares now e :
    step e (updateHoldingShares stockCode shares now e)
| step_respond i req r s' e :
    inflight e !! i = Some req ->
    respond req r (provider e) = Normal s' ->
    step e {| provider := s'; settings := settings e;
              inflight := delete i (inflight e) |}.

(** ** Worked inputs *)

(** A printer for the examples: no example prints a value outside the safe
    integers. *)
Definition examplePrinter : ShortestDigits := fun _ => "?".

(** Shanghai index, market 1: raw fields in hundredths. *)
Definition exampleIndex : RawStock :=
  mkRawStock "000001" (ofZ 1) "上证指数"
    (ofZ 312345) (ofZ (-45)) (ofZ (-1234)) (ofZ 313579).

(** A Hong Kong record, market 116: raw fields in thousandths. *)
Definition exampleHK : RawStock :=
  mkRawStock "00700" (ofZ 116) "腾讯控股"
    (ofZ 312345) (ofZ 45) (ofZ 1234) (ofZ 311111).

(** The provider after a first cycle started at 09:30:00 that received both
    records, for the setting ["1.000001"; "116.00700:100"]. *)
Definition exampleLoaded : Provider :=
  let e := construct "09:30:00" ["1.000001"; "116.00700:100"] in
  match inflight e with
  | req :: _ =>
      match @respond examplePrinter req
              (ResponseEnd (Json (DiffArray [Some exampleIndex; Some exampleHK])))
              (provider e) with
      | Normal s => s
      | Throw _ => provider e
      end
  | [] => provider e
  end.

(** The provider after a first cycle started at 09:30:00 for the setting
    [cfg] that received the records [stocks]. *)
Definition exampleCycle (cfg : list string) (stocks : list (option RawStock))
    : Provider :=
  let e := construct "09:30:00" cfg in
  match inflight e with
  | req :: _ =>
      match @respond examplePrinter req
              (ResponseEnd (Json (DiffArray stocks))) (provider e) with
      | Normal s => s
      | Throw _ => provider e
      end
  | [] => provider e
  end.

(** A record of a suspended instrument: the provider sends "-" for every
    price field, which the division turns into NaN. *)
Definition exampleSuspended : RawStock :=
  mkRawStock "000001" (ofZ 1) "上证指数" NaN NaN NaN NaN.

(** The engine after the request at position [i] of the requests in flight
    got the response [r]. *)
Definition answer `{ShortestDigits} (i : nat) (r : Response) (e : Engine) : Engine :=
  match inflight e !! i with
  | Some req =>
      match respond req r (provider e) with
      | Normal s' =>
          {| provider := s'; settings := settings e;
             inflight := delete i (inflight e) |}
      | Throw _ => e
      end
  | None => e
  end.

(** The engine of the first cycle once its request is answered with both
    records. *)
Definition exampleAnswered : Engine :=
  @answer examplePrinter 0
    (ResponseEnd (Json (DiffArray [Some exampleIndex; Some exampleHK])))
    (construct "09:30:00" ["1.000001"; "116.00700:100"]).

(** Two cycles overlap: the timer starts the cycle of 09:30:03 while the
    request of 09:30:00 is in flight, then the first request is answered with
    both records.  The request of 09:30:03 is still in flight. *)
Definition exampleOverlap : Engine :=
  @answer examplePrinter 0
    (ResponseEnd (Json (DiffArray [Some exampleIndex; Some exampleHK])))
    (tick "09:30:03" (construct "09:30:00" ["1.000001"; "116.00700:100"])).

(** ** Vocabulary of the statements *)

(** Every holding belongs to a listed code and is positive. *)
Definition holdingsInvariant (s : Provider) : Prop :=
  forall c v, In (c, v) (JSMap.entries (holdingShares s)) ->
    In c (stockCodeList s) /\ gt0 v = true.

Definition registryInvariant (acc : list string * JSMap.t number) : Prop :=
  forall c v, In (c, v) (snd acc) -> In c (fst acc) /\ gt0 v = true.

(** A whole cycle with no other event between its start and its response. *)
Definition runCycle `{ShortestDigits} (now : string) (r : Response) (s : Provider)
    : Completion Provider :=
  let '(s1, req) := fetchAllStockData now s in
  match req with
  | Some req => respond req r s1
  | None => Normal s1
  end.

(** A cycle fails on a network error or on an exception of the [try] block. *)
Definition failedResponse (r : Response) : Prop :=
  r = RequestError \/ r = ResponseEnd InvalidJSON
  \/ r = ResponseEnd (Json DiffNotIterable).

(** The quotes a response carries, keyed by their reconstructed codes. *)
Definition receivedQuotes `{ShortestDigits} (updateTime : string) (r : Response)
    : gmap string StockData :=
  match r with
  | ResponseEnd (Json (DiffArray stocks)) =>
      fold_left (storeQuote updateTime) stocks ∅
  | _ => ∅
  end.

(** The keys of a cache built by the fetch contain a point. *)
Definition dottedKeys (m : gmap string StockData) : Prop :=
  forall k q, m !! k = Some q -> JSString.contains "." k.

(** The last row of the root list: the update time. *)
Definition updateTimeRow (t : string) : StockItem :=
  newStockItem "更新时间" StateNone (Some t) (Some (mkThemeIcon "clock" None))
    None false.

(** The row of an instrument that has no quote in the cache. *)
Definition failedRow (code : string) : StockItem :=
  newStockItem code Collapsed (Some "加载失败")
    (Some (mkThemeIcon "error" None)) (Some code) true.

(** The engine of the examples, and the provider one failed cycle later. *)
Definition exampleEngine : Engine :=
  {| provider := exampleLoaded;
     settings := ["1.000001"; "116.00700:100"];
     inflight := [] |}.

(** The aggregate profit-and-loss row of the root list. *)
Definition isProfitLossRow (it : StockItem) : Prop :=
  label it = "今日盈亏" /\ isRoot it = false.

(** The holdings, in order, whose instrument has a quote in the cache. *)
Definition heldWithQuote (s : Provider) : list (string * number) :=
  List.filter
    (fun entry => match stocksData s !! fst entry with
                  | Some _ => true
                  | None => false
                  end)
    (JSMap.entries (holdingShares s)).

(** change x shares of one holding. *)
Definition positionProfitLoss (s : Provider) (entry : string * number) : number :=
  match stocksData s !! fst entry with
  | Some q => mul (parseFloat (change q)) (snd entry)
  | None => ofZ 0
  end.

(** The sum of change x shares over the holdings that have a quote. *)
Definition profitLossSum (s : Provider) : number :=
  fold_left add (map (positionProfitLoss s) (heldWithQuote s)) (ofZ 0).

(** The stored share counts are positive. *)
Definition positiveHoldings (s : Provider) : Prop :=
  forall c v, In (c, v) (JSMap.entries (holdingShares s)) -> gt0 v = true.

(** The code of a raw entry: what stands before its first colon, trimmed. *)
Definition entryCode (entry : string) : string :=
  JSString.trim (nth 0 (JSString.split ":" (JSString.trim entry)) EmptyString).

(** An entry of white space only. *)
Definition isBlank (entry : string) : bool :=
  negb (JSString.truthy (JSString.trim entry)).

(** The entry written for the target: [code:shares], or the bare code when
    the share count is not positive. *)
Definition holdingEntry `{ShortestDigits} (stockCode : string) (shares : number)
    : string :=
  if gt0 shares then stockCode +:+ ":" +:+ ToString shares else stockCode.

(** What becomes of one non-blank entry. *)
Definition rewrittenEntry `{ShortestDigits} (stockCode : string) (shares : number)
    (entry : string) : string :=
  if String.eqb (entryCode entry) stockCode
  then holdingEntry stockCode shares
  else JSString.trim entry.

(** Some non-blank entry has the target's code. *)
Definition mentions (customCodes : list string) (stockCode : string) : bool :=
  existsb (fun entry => negb (isBlank entry) && String.eqb (entryCode entry) stockCode)
    customCodes.

(** What stands before the first colon of [s] (all of [s] without one). *)
Definition firstSegment (s : string) : string :=
  nth 0 (JSString.split ":" s) EmptyString.

(** A raw field the provider sends as an integer that a Number holds
    exactly. *)
Definition safeInteger (n : Z) : Prop := (Z.abs n <= MAX_SAFE_INTEGER)%Z.


(** The integer [n] divided by [10^k], written with exactly [k] decimals:
    sign, integer part, point, [k] digits. *)
Definition scaledDecimal (n : Z) (k : nat) : string :=
  let m := Z.to_N (Z.abs n) in
  let p := (10 ^ N.of_nat k)%N in
  (if (n <? 0)%Z then "-" else EmptyString)
  +:+ (decimalDigits (m / p) +:+ "." +:+ stringOfLE (fixedLE k (m mod p))).


(** What the aggregate row shows for the total [x]: for a finite total
    below 10^21 its sign, explicit also when it is not negative, and its
    magnitude rounded to the nearest hundredth (the upper one of two) with
    exactly two decimals; the name of the value when it is not finite. *)
Definition showsTotal (x : number) (text : string) : Prop :=
  match x with
  | NaN => text = "NaN"
  | Infinity neg => text = if neg then "-Infinity" else "+Infinity"
  | Fin q =>
      (Qabs q < inject_Z (10 ^ 21))%Q ->
      exists c : Z,
        (inject_Z c - (1 # 2) <= Qabs q * 100)%Q
        /\ (Qabs q * 100 < inject_Z c + (1 # 2))%Q
        /\ text = (if Qle_bool 0 q then "+" else "-") +:+ scaledDecimal c 2
  end.

(** The number [loadStockCodes] reads from the right part of an entry. *)
Definition parsedShares (rhs : string) : number :=
  parseFloat (JSString.trim (firstSegment rhs)).

(** The guard of [loadStockCodes] on a parsed share count. *)
Definition accepted (shares : number) : bool :=
  negb (isNaN shares) && gt0 shares.

(** ** The rest of the provider and of [activate] *)

(** [getChildren(element)]: the root list for no element, the detail list
    for a root row that carries a code, nothing otherwise. *)
Definition getChildren `{ShortestDigits} (element : option StockItem) (s : Provider)
    : Completion (list StockItem) :=
  match element with
  | None => getRootItems s
  | Some el =>
      match stockCode el with
      | Some c =>
          if isRoot el && JSString.truthy c
          then Normal (getDetailItems c s)
          else Normal []
      | None => Normal []
      end
  end.

(** The interval timers of the event loop and the module variable
    [updateInterval]: [setInterval] registers a timer under a fresh handle,
    [clearInterval] removes the timer of a handle. *)
Record Scheduler := mkScheduler {
  timers : list (nat * Z);
  updateInterval : option nat;
  nextHandle : nat;
}.

Definition initialScheduler : Scheduler :=
  {| timers := []; updateInterval := None; nextHandle := 0 |}.

Definition clearInterval (h : nat) (timers : list (nat * Z)) : list (nat * Z) :=
  List.filter (fun t => negb (Nat.eqb (fst t) h)) timers.

(** [startAutoUpdate(interval = 3000)] *)
Definition startAutoUpdate (interval : option Z) (sch : Scheduler) : Scheduler :=
  let period := from_option id 3000%Z interval in
  let live :=
    match updateInterval sch with
    | Some h => clearInterval h (timers sch)
    | None => timers sch
    end in
  {| timers := live ++ [(nextHandle sch, period)];
     updateInterval := Some (nextHandle sch);
     nextHandle := S (nextHandle sch) |}.

(** [stopAutoUpdate()]; [deactivate()] has the same body. *)
Definition stopAutoUpdate (sch : Scheduler) : Scheduler :=
  match updateInterval sch with
  | Some h =>
      {| timers := clearInterval h (timers sch);
         updateInterval := None;
         nextHandle := nextHandle sch |}
  | None => sch
  end.

Definition deactivate (sch : Scheduler) : Scheduler := stopAutoUpdate sch.

(** [x < 0] *)
Definition lt0 (x : number) : bool :=
  match x with
  | NaN => false
  | Infinity neg => neg
  | Fin q => Qc_ltb q 0
  end.

(** [Number.isInteger(x)] *)
Definition NumberIsInteger (x : number) : bool :=
  match x with
  | Fin q => isInteger q
  | _ => false
  end.

(** [parseInt(input, 10)]: leading white space skipped, an optional sign,
    then the longest run of decimal digits; NaN when there is none. *)
Definition parseInt (input : string) : number :=
  let '(neg, s1) := signOf (JSString.trimStart input) in
  let '(ds, _) := spanDigits s1 in
  match ds with
  | [] => NaN
  | _ => roundDecimal neg (valueOfDigits ds) 0
  end.

(** The loop of the edit command over the setting: the share count of the
    first entry for the code that has an annotation, zero when that
    annotation is not accepted or when there is no such entry. *)
Fixpoint currentSharesOf (customCodes : list string) (stockCode : string) : number :=
  match customCodes with
  | [] => ofZ 0
  | code :: rest =>
      let parts := JSString.split ":" (JSString.trim code) in
      if String.eqb (JSString.trim (nth 0 parts EmptyString)) stockCode
         && (1 <? length parts)%nat
      then
        let shares := parseFloat (JSString.trim (nth 1 parts EmptyString)) in
        if negb (isNaN shares) && gt0 shares then shares else ofZ 0
      else currentSharesOf rest stockCode
  end.

(** The [value] the input box opens with. *)
Definition prefilledValue `{ShortestDigits} (currentShares : number) : string :=
  if gt0 currentShares then ToString currentShares else EmptyString.

(** [validateInput(value)]: [None] is [null], the input is acceptable. *)
Definition validateInput (value : string) : option string :=
  if negb (JSString.truthy (JSString.trim value)) then None
  else
    let num := parseFloat value in
    if isNaN num then Some "请输入有效的数字"
    else if lt0 num then Some "持有股数不能为负数"
    else if negb (NumberIsInteger num) then Some "请输入整数"
    else None.

(** What the command shows when it ends. *)
Inductive Message :=
| ErrorMessage (text : string)
| InformationMessage (text : string).

(** The command [stockView.editHoldingShares]: [item] is the tree row it was
    invoked on, [input] the text the input box returned ([None] when the
    user cancelled). *)
Definition editHoldingShares `{ShortestDigits} (item : option StockItem)
    (input : option string) (now : string) (e : Engine)
    : Engine * option Message :=
  match item with
  | None => (e, Some (ErrorMessage "无法获取股票代码"))
  | Some it =>
      match stockCode it with
      | None => (e, Some (ErrorMessage "无法获取股票代码"))
      | Some c =>
          if negb (JSString.truthy c)
          then (e, Some (ErrorMessage "无法获取股票代码"))
          else
            match input with
            | None => (e, None)
            | Some text =>
                let shares :=
                  if negb (JSString.truthy (JSString.trim text)) then ofZ 0
                  else parseInt (JSString.trim text) in
                (updateHoldingShares c shares now e,
                 Some (InformationMessage
                         (if gt0 shares
                          then "已设置 " +:+ label it +:+ " 持有股数为 "
                               +:+ ToString shares
                          else "已清除 " +:+ label it +:+ " 的持仓配置")))
            end
      end
  end.

(** ** Vocabulary of the further properties *)

(** The share count a raw entry carries, when [loadStockCodes] accepts it. *)
Definition entryShares (entry : string) : option number :=
  match nth_error (JSString.split ":" (JSString.trim entry)) 1 with
  | Some rhs =>
      if accepted (parseFloat (JSString.trim rhs))
      then Some (parseFloat (JSString.trim rhs)) else None
  | None => None
  end.

(** An entry that contributes an instrument: its code is not empty. *)
Definition listedEntry (entry : string) : bool :=
  JSString.truthy (entryCode entry).

(** The setting has an entry that is not blank. *)
Definition hasEntries (customCodes : list string) : bool :=
  existsb (fun entry => negb (isBlank entry)) customCodes.

(** The codes of the entries that contribute one, in the order of the
    setting, repetitions kept. *)
Definition configuredCodes (customCodes : list string) : list string :=
  map entryCode (List.filter listedEntry customCodes).

(** The holding the setting gives a code: the accepted share count of the
    last entry for that code that carries one. *)
Definition configuredHolding (customCodes : list string) (c : string)
    : option number :=
  fold_left
    (fun found entry =>
       if listedEntry entry && String.eqb (entryCode entry) c
       then match entryShares entry with
            | Some v => Some v
            | None => found
            end
       else found)
    customCodes None.

(** A code as the registry keeps it: not empty, without a colon, and with no
    white space around it. *)
Definition cleanCode (c : string) : Prop :=
  c <> EmptyString /\ ~ JSString.contains ":" c /\ JSString.trim c = c.

(** The value of little-endian decimal digits. *)
Definition valueLE (l : list N) : N :=
  fold_right (fun d acc => (d + 10 * acc)%N) 0%N l.

(** A string of decimal digits only. *)
Definition allDigits (s : string) : Prop :=
  Forall (fun c => isDigit c = true) (list_ascii_of_string s).

(** The code under which the response loop stores a record. *)
Definition recordCode `{ShortestDigits} (r : RawStock) : string :=
  ToString (f13 r) +:+ "." +:+ f12 r.

(** The last record of a response that is stored under the code [k]. *)
Fixpoint lastRecordFor `{ShortestDigits} (k : string)
    (stocks : list (option RawStock)) : option RawStock :=
  match stocks with
  | [] => None
  | item :: rest =>
      match lastRecordFor k rest with
      | Some r => Some r
      | None =>
          match item with
          | Some r => if String.eqb (recordCode r) k then Some r else None
          | None => None
          end
      end
  end.

(** A row that is no instrument: it carries no code, cannot be expanded and
    has no context menu. *)
Definition plainRow (it : StockItem) : Prop :=
  stockCode it = None /\ isRoot it = false /\ contextValue it = None.

(** The calls that touch the update timer. *)
Inductive TimerCall :=
| CallStartAutoUpdate (interval : option Z)
| CallStopAutoUpdate
| CallDeactivate.

Definition runTimerCall (sch : Scheduler) (call : TimerCall) : Scheduler :=
  match call with
  | CallStartAutoUpdate interval => startAutoUpdate interval sch
  | CallStopAutoUpdate => stopAutoUpdate sch
  | CallDeactivate => deactivate sch
  end.

(** The first detail row of the Hong Kong instrument of the examples. *)
Definition exampleDetailRow : StockItem :=
  nth 0 (@getDetailItems examplePrinter "116.00700" exampleLoaded)
    (updateTimeRow EmptyString).

(** * Proofs *)

(** ** The registry ([loadStockCodes]) *)

Lemma JSMap_set_In {V} (k : string) (x : V) (m : JSMap.t V) c v :
  In (c, v) (JSMap.set k x m) -> (c, v) = (k, x) \/ In (c, v) m.
Proof.
  induction m as [|[k' v'] m IH]; simpl.
  - intros [E|[]]; left; congruence.
  - destruct (String.eqb k' k) eqn:E; simpl.
    + apply String.eqb_eq in E; subst k'.
      intros [E'|Hin]; [left; congruence | right; right; exact Hin].
    + intros [E'|Hin]; [right; left; exact E' |].
      destruct (IH Hin) as [E'|Hin']; [left; exact E' | right; right; exact Hin'].
Qed.

Lemma parseEntry_invariant acc entry :
  registryInvariant acc -> registryInvariant (parseEntry acc entry).
Proof.
  destruct acc as [codes h]. unfold registryInvariant, parseEntry.
  cbn [fst snd]. intros Hacc.
  destruct (JSString.truthy _); [| exact Hacc].
  cbn [fst snd]. intros c v Hin.
  assert (Hold : In (c, v) h ->
            In c (codes ++ [JSString.trim (nth 0 (JSString.split ":" entry) "")])
            /\ gt0 v = true).
  { intros Hh. destruct (Hacc c v Hh) as [Hc Hv].
    split; [apply in_or_app; left; exact Hc | exact Hv]. }
  destruct (nth_error _ 1) as [rhs|]; [| exact (Hold Hin)].
  destruct (negb (isNaN _) && gt0 _) eqn:G; [| exact (Hold Hin)].
  apply JSMap_set_In in Hin as [E|Hin]; [| exact (Hold Hin)].
  inversion E; subst c v. apply andb_prop in G as [_ G].
  split; [apply in_or_app; right; left; reflexivity | exact G].
Qed.

Lemma fold_parseEntry_invariant entries acc :
  registryInvariant acc -> registryInvariant (fold_left parseEntry entries acc).
Proof.
  revert acc. induction entries as [|e entries IH]; simpl; intros acc Hacc.
  - exact Hacc.
  - apply IH, parseEntry_invariant, Hacc.
Qed.

Lemma loadStockCodes_invariant cfg s : holdingsInvariant (loadStockCodes cfg s).
Proof.
  unfold loadStockCodes, holdingsInvariant.
  destruct (0 <? length cfg)%nat; [| simpl; intros c v []].
  destruct (0 <? length _)%nat; [| simpl; intros c v []].
  match goal with |- context [fold_left parseEntry ?l ?a] =>
    pose proof (fold_parseEntry_invariant l a) as Hinv;
    destruct (fold_left parseEntry l a) as [codes h] end.
  simpl. apply Hinv. intros c v [].
Qed.

(** The registry part of the state after a reload is a function of the
    setting alone. *)
Lemma loadStockCodes_registry cfg s s' :
  stockCodeList (loadStockCodes cfg s) = stockCodeList (loadStockCodes cfg s')
  /\ holdingShares (loadStockCodes cfg s) = holdingShares (loadStockCodes cfg s').
Proof.
  unfold loadStockCodes.
  destruct (0 <? length cfg)%nat; [| split; reflexivity].
  destruct (0 <? length _)%nat; [| split; reflexivity].
  simpl. destruct (fold_left parseEntry _ _) as [codes h]. split; reflexivity.
Qed.

Lemma loadStockCodes_frame cfg s :
  stocksData (loadStockCodes cfg s) = stocksData s
  /\ isLoading (loadStockCodes cfg s) = isLoading s
  /\ lastUpdateTime (loadStockCodes cfg s) = lastUpdateTime s
  /\ fired (loadStockCodes cfg s) = fired s.
Proof.
  unfold loadStockCodes.
  destruct (0 <? length cfg)%nat; [| repeat split].
  destruct (0 <? length _)%nat; [| repeat split].
  destruct (fold_left parseEntry _ _) as [codes h]. repeat split.
Qed.

Lemma Provider_eq (a b : Provider) :
  stocksData a = stocksData b -> isLoading a = isLoading b ->
  stockCodeList a = stockCodeList b -> holdingShares a = holdingShares b ->
  lastUpdateTime a = lastUpdateTime b -> fired a = fired b -> a = b.
Proof. destruct a, b; simpl; intros; subst; reflexivity. Qed.

Lemma loadStockCodes_twice cfg s :
  loadStockCodes cfg (loadStockCodes cfg s) = loadStockCodes cfg s.
Proof.
  destruct (loadStockCodes_frame cfg (loadStockCodes cfg s)) as (A & B & C & D).
  destruct (loadStockCodes_registry cfg (loadStockCodes cfg s) s) as (E & F).
  apply Provider_eq; assumption.
Qed.

(** C9.  Reloading the configuration twice in a row, with the same setting,
    leaves the registry (code list and holdings map) as one reload leaves it,
    and the root list built afterwards, from the same cache, is the same. *)
Theorem loadStockCodes_idempotent `{ShortestDigits} (cfg : list string) (s : Provider) :
  stockCodeList (loadStockCodes cfg (loadStockCodes cfg s))
    = stockCodeList (loadStockCodes cfg s)
  /\ holdingShares (loadStockCodes cfg (loadStockCodes cfg s))
    = holdingShares (loadStockCodes cfg s)
  /\ stocksData (loadStockCodes cfg (loadStockCodes cfg s))
    = stocksData (loadStockCodes cfg s)
  /\ getRootItems (loadStockCodes cfg (loadStockCodes cfg s))
    = getRootItems (loadStockCodes cfg s).
Proof.
  rewrite loadStockCodes_twice. repeat split.
Qed.

(** C7, evaluated on the code: for the setting [":5"], whose only entry has
    an empty left part, the reload leaves an empty code list, not the default
    ["1.000001"]; the fetch that follows finds nothing to request. *)
Theorem loadStockCodes_empty_left_part :
  stockCodeList (loadStockCodes [":5"] initialProvider) = []
  /\ stockCodeList (loadStockCodes [] initialProvider) = ["1.000001"]
  /\ stockCodeList (loadStockCodes ["  "] initialProvider) = ["1.000001"]
  /\ inflight (construct "09:30:00" [":5"]) = [].
Proof. repeat split. Qed.

(** ** The holdings invariant along the transitions *)

Lemma fetchAllStockData_registry now s :
  stockCodeList (fst (fetchAllStockData now s)) = stockCodeList s
  /\ holdingShares (fst (fetchAllStockData now s)) = holdingShares s.
Proof.
  unfold fetchAllStockData. destruct (length (stockCodeList s) =? 0)%nat; split; reflexivity.
Qed.

Lemma respond_registry `{ShortestDigits} req r s s' :
  respond req r s = Normal s' ->
  stockCodeList s' = stockCodeList s /\ holdingShares s' = holdingShares s.
Proof.
  destruct r as [|body]; simpl.
  - intros E; inversion E; subst; split; reflexivity.
  - unfold onEnd. destruct body as [|[| |stocks]]; simpl;
      intros E; inversion E; subst; split; reflexivity.
Qed.

Lemma holdingsInvariant_registry s s' :
  stockCodeList s' = stockCodeList s -> holdingShares s' = holdingShares s ->
  holdingsInvariant s -> holdingsInvariant s'.
Proof. unfold holdingsInvariant. intros -> ->. auto. Qed.

Lemma startFetch_invariant now cfg reqs s :
  holdingsInvariant s -> holdingsInvariant (provider (startFetch now cfg reqs s)).
Proof.
  intros Hs. unfold startFetch.
  destruct (fetchAllStockData_registry now s) as [A B].
  destruct (fetchAllStockData now s) as [s' req]. simpl in *.
  exact (holdingsInvariant_registry s s' A B Hs).
Qed.

(** C10.  After every configuration reload each key of the holdings map is a
    listed instrument code and each stored value is strictly positive; and
    every transition of the extension (refresh, timer tick, change of the
    setting, holdings update with its reload, response of a request) keeps it
    so. *)
Theorem holdings_invariant_preserved `{ShortestDigits} :
  (forall cfg s, holdingsInvariant (loadStockCodes cfg s))
  /\ (forall e e', holdingsInvariant (provider e) -> step e e' ->
        holdingsInvariant (provider e')).
Proof.
  split; [intros; apply loadStockCodes_invariant |].
  intros e e' He Hstep. destruct Hstep.
  - unfold refresh. apply startFetch_invariant, loadStockCodes_invariant.
  - unfold tick. apply startFetch_invariant, He.
  - unfold refresh. apply startFetch_invariant, loadStockCodes_invariant.
  - unfold updateHoldingShares, refresh.
    apply startFetch_invariant, loadStockCodes_invariant.
  - simpl. match goal with Hr : respond _ _ _ = Normal _ |- _ =>
      destruct (respond_registry _ _ _ _ Hr) as [A B] end.
    exact (holdingsInvariant_registry _ _ A B He).
Qed.

Lemma exampleLoaded_invariant : holdingsInvariant exampleLoaded.
Proof.
  intros c v Hin. vm_compute in Hin. destruct Hin as [E|[]].
  inversion E; subst. split; [right; left; reflexivity | reflexivity].
Qed.

Lemma holdings_invariant_preserved_witness :
  holdingsInvariant
    (provider (@updateHoldingShares examplePrinter "1.000001" (ofZ 12) "09:30:03"
                 exampleEngine)).
Proof.
  apply (proj2 (@holdings_invariant_preserved examplePrinter) exampleEngine).
  - exact exampleLoaded_invariant.
  - apply step_update.
Defined.

(** ** The refresh cycle *)

Lemma fetchAllStockData_start now s :
  stockCodeList s <> [] ->
  fetchAllStockData now s =
    ({| stocksData := ∅; isLoading := isLoading s;
        stockCodeList := stockCodeList s; holdingShares := holdingShares s;
        lastUpdateTime := now; fired := fired s |},
     Some (fetchBatchStocks (stockCodeList s) now)).
Proof.
  intros Hne. unfold fetchAllStockData.
  destruct (stockCodeList s); [congruence | reflexivity].
Qed.


Lemma respond_failed `{ShortestDigits} req r s :
  failedResponse r ->
  respond req r s =
    Normal {| stocksData := stocksData s; isLoading := false;
              stockCodeList := stockCodeList s; holdingShares := holdingShares s;
              lastUpdateTime := lastUpdateTime s; fired := S (fired s) |}.
Proof. intros [-> | [-> | ->]]; reflexivity. Qed.

Lemma answer_reachable `{ShortestDigits} i r e : rtc step e (answer i r e).
Proof.
  unfold answer. destruct (inflight e !! i) as [req|] eqn:L; [| apply rtc_refl].
  destruct (respond req r (provider e)) as [s'|err] eqn:R; [| apply rtc_refl].
  eapply rtc_l; [exact (step_respond i req r s' e L R) | apply rtc_refl].
Qed.

Lemma exampleAnswered_reachable :
  rtc (@step examplePrinter) (construct "09:30:00" ["1.000001"; "116.00700:100"])
    exampleAnswered.
Proof. apply answer_reachable. Qed.

Lemma exampleOverlap_reachable :
  rtc (@step examplePrinter) (construct "09:30:00" ["1.000001"; "116.00700:100"])
    exampleOverlap.
Proof.
  eapply rtc_l; [apply (step_tick "09:30:03") |]. apply answer_reachable.
Qed.

(** C3, as stated, fails on the code: when the timer starts a second cycle
    while the request of the first is still in flight, and the first response
    arrives before the second request fails, the failed cycle ends with the
    quotes of the first cycle in the cache.  Here the cycle of 09:30:03
    fails, and afterwards both quotes of the cycle of 09:30:00 are served. *)
Lemma failed_cycle_keeps_earlier_quotes :
  rtc (@step examplePrinter) (construct "09:30:00" ["1.000001"; "116.00700:100"])
    exampleOverlap
  /\ inflight exampleOverlap
     = [fetchBatchStocks ["1.000001"; "116.00700"] "09:30:03"]
  /\ lastUpdateTime (provider exampleOverlap) = "09:30:03"
  /\ exists s',
       @respond examplePrinter
         (fetchBatchStocks ["1.000001"; "116.00700"] "09:30:03") RequestError
         (provider exampleOverlap) = Normal s'
       /\ fired s' = S (fired (provider exampleOverlap))
       /\ isLoading s' = false
       /\ updateTime <$> stocksData s' !! "1.000001" = Some "09:30:00"
       /\ updateTime <$> stocksData s' !! "116.00700" = Some "09:30:00"
       /\ length (@getDetailItems examplePrinter "116.00700" s') = 4%nat.
Proof.
  split; [exact exampleOverlap_reachable |].
  split; [vm_compute; reflexivity |]. split; [vm_compute; reflexivity |].
  eexists. split; [reflexivity |]. vm_compute. repeat split.
Qed.

(** C3, amended.  A failing response (network error, or an exception while
    the response is parsed), in whatever state it arrives: the handler
    completes normally, the completion callback runs exactly once (one change
    notification, the loading flag cleared), and the cache, the instrument
    list, the holdings and the update time are left as the response found
    them.  So a failed cycle with no response of another cycle between its
    start and its response ends with the map it emptied at its start, while
    quotes that the response of an earlier cycle stored in between stay. *)
Theorem failed_cycle_completes_once `{ShortestDigits} (r : Response) :
  failedResponse r ->
  (forall req s, exists s', respond req r s = Normal s'
      /\ fired s' = S (fired s) /\ isLoading s' = false
      /\ stocksData s' = stocksData s
      /\ stockCodeList s' = stockCodeList s
      /\ holdingShares s' = holdingShares s
      /\ lastUpdateTime s' = lastUpdateTime s)
  /\ (forall now s, stockCodeList s <> [] ->
      exists s', runCycle now r s = Normal s'
        /\ fired s' = S (fired s) /\ isLoading s' = false /\ stocksData s' = ∅).
Proof.
  intros Hfail. split.
  - intros req s. eexists. split; [apply (respond_failed req r s Hfail) |].
    repeat split.
  - intros now s Hne. unfold runCycle. rewrite (fetchAllStockData_start now s Hne).
    eexists. split; [apply (respond_failed _ r _ Hfail) |]. repeat split.
Qed.

Lemma failed_cycle_completes_once_witness :
  (exists s',
     @respond examplePrinter
       (fetchBatchStocks ["1.000001"; "116.00700"] "09:30:03") RequestError
       (provider exampleOverlap) = Normal s'
     /\ fired s' = S (fired (provider exampleOverlap)) /\ isLoading s' = false
     /\ stocksData s' = stocksData (provider exampleOverlap)
     /\ stockCodeList s' = stockCodeList (provider exampleOverlap)
     /\ holdingShares s' = holdingShares (provider exampleOverlap)
     /\ lastUpdateTime s' = lastUpdateTime (provider exampleOverlap))
  /\ (exists s',
        @runCycle examplePrinter "09:30:03" RequestError exampleLoaded = Normal s'
        /\ fired s' = S (fired exampleLoaded) /\ isLoading s' = false
        /\ stocksData s' = ∅).
Proof.
  split.
  - apply (proj1 (@failed_cycle_completes_once examplePrinter RequestError
                    (or_introl eq_refl))).
  - apply (proj2 (@failed_cycle_completes_once examplePrinter RequestError
                    (or_introl eq_refl))).
    vm_compute. discriminate.
Defined.

Lemma getDetailItems_empty `{ShortestDigits} code s :
  stocksData s = ∅ -> getDetailItems code s = [].
Proof. intros E. unfold getDetailItems. rewrite E, lookup_empty. reflexivity. Qed.

Lemma mapC_failed s l :
  stocksData s = ∅ -> mapC (rootItemOf s) l = Normal (map failedRow l).
Proof.
  intros E. induction l as [|c l IH]; [reflexivity |].
  cbn [mapC map]. unfold rootItemOf at 1. rewrite E, lookup_empty.
  cbn [bindC]. rewrite IH. reflexivity.
Qed.

Lemma totalProfitLoss_empty s :
  stocksData s = ∅ -> totalProfitLoss s = (ofZ 0, false).
Proof.
  intros E. unfold totalProfitLoss. rewrite E. generalize (ofZ 0, false).
  induction (JSMap.entries (holdingShares s)) as [|[c v] l IH]; intros [t h];
    [reflexivity |].
  cbn [fold_left]. rewrite lookup_empty. apply IH.
Qed.

(** With an empty cache and loading over, the root list shows every
    instrument as failed, then the update time. *)
Lemma getRootItems_cleared `{ShortestDigits} s :
  stocksData s = ∅ -> isLoading s = false ->
  getRootItems s =
    Normal (map failedRow (stockCodeList s)
            ++ (if JSString.truthy (lastUpdateTime s)
                then [updateTimeRow (lastUpdateTime s)] else [])).
Proof.
  intros E L. unfold getRootItems. rewrite L, (mapC_failed s _ E).
  cbn [bindC]. rewrite (totalProfitLoss_empty s E).
  destruct (JSString.truthy (lastUpdateTime s)); [reflexivity |].
  rewrite app_nil_r. reflexivity.
Qed.

Lemma startFetch_keeps_empty now cfg reqs s :
  stocksData s = ∅ -> stocksData (provider (startFetch now cfg reqs s)) = ∅.
Proof.
  intros E. unfold startFetch, fetchAllStockData.
  destruct (length (stockCodeList s) =? 0)%nat; [exact E | reflexivity].
Qed.

Lemma refresh_keeps_empty now e :
  stocksData (provider e) = ∅ -> stocksData (provider (refresh now e)) = ∅.
Proof.
  intros E. unfold refresh. apply startFetch_keeps_empty.
  rewrite (proj1 (loadStockCodes_frame _ _)). exact E.
Qed.

Lemma fold_storeQuote_union `{ShortestDigits} t stocks (m0 m : gmap string StockData) :
  fold_left (storeQuote t) stocks (m0 ∪ m) = fold_left (storeQuote t) stocks m0 ∪ m.
Proof.
  revert m0. induction stocks as [|x stocks IH]; intros m0; [reflexivity |].
  cbn [fold_left]. rewrite <- IH. f_equal.
  destruct x as [raw|]; [| reflexivity].
  unfold storeQuote. apply insert_union_l.
Qed.

(** A response, in whatever state it arrives: the handler completes
    normally, fires once, and leaves the quotes it carries over the cache it
    found. *)
Lemma respond_merges `{ShortestDigits} req r s :
  exists s', respond req r s = Normal s'
    /\ fired s' = S (fired s)
    /\ stocksData s' = receivedQuotes (batchTime req) r ∪ stocksData s.
Proof.
  destruct r as [|[|[| |stocks]]]; simpl; unfold onEnd, onError; simpl;
    eexists; (split; [reflexivity |]); simpl;
    (split; [reflexivity |]); rewrite ?(left_id_L ∅ (∪)); try reflexivity.
  rewrite <- fold_storeQuote_union, (left_id_L ∅ (∪)). reflexivity.
Qed.

(** C2, as stated, fails on the code: between the start of a cycle and its
    response no notification has fired, yet a reader already finds the cache
    emptied.  Here the detail list of a loaded instrument becomes empty, and
    every instrument row of the root list reads "load failed". *)
Lemma cleared_cache_visible_before_completion :
  fired (fst (fetchAllStockData "09:30:03" exampleLoaded)) = fired exampleLoaded
  /\ @getDetailItems examplePrinter "1.000001" exampleLoaded <> []
  /\ @getDetailItems examplePrinter "1.000001"
       (fst (fetchAllStockData "09:30:03" exampleLoaded)) = []
  /\ @getRootItems examplePrinter (fst (fetchAllStockData "09:30:03" exampleLoaded))
     = Normal
         [ newStockItem "1.000001" Collapsed (Some "加载失败")
             (Some (mkThemeIcon "error" None)) (Some "1.000001") true;
           newStockItem "116.00700" Collapsed (Some "加载失败")
             (Some (mkThemeIcon "error" None)) (Some "116.00700") true;
           updateTimeRow "09:30:03" ].
Proof.
  split; [reflexivity |]. split; [vm_compute; discriminate |].
  split; [reflexivity | vm_compute; reflexivity].
Qed.

(** C2, amended.  The cache is not replaced at the end of a cycle.  A cycle
    with a non-empty code list empties the cache synchronously at its start,
    without a notification: right after the start [getDetailItems] returns no
    row for any code and, when loading is over, [getRootItems] shows every
    instrument as failed, followed only by the update time.  From an empty
    cache every refresh, timer tick, change of the setting and holdings update
    leaves the cache empty: only a response changes it.  A response, in
    whatever state it arrives, completes normally, leaves its quotes over the
    cache as it then is, removing no key, and fires the notification in the
    same step; into an empty cache the result is exactly the quotes of that
    response.  With two requests in flight the quotes of the first response
    are therefore served while the second cycle has not completed. *)
Theorem cache_cleared_at_start_filled_at_response `{ShortestDigits} :
  (forall now s, stockCodeList s <> [] ->
     exists s1 req, fetchAllStockData now s = (s1, Some req)
       /\ batchTime req = now
       /\ stocksData s1 = ∅ /\ fired s1 = fired s
       /\ (forall c, getDetailItems c s1 = [])
       /\ (isLoading s = false ->
           getRootItems s1 =
             Normal (map failedRow (stockCodeList s)
                     ++ (if JSString.truthy now then [updateTimeRow now] else []))))
  /\ (forall e, stocksData (provider e) = ∅ ->
        (forall now, stocksData (provider (refresh now e)) = ∅)
        /\ (forall now, stocksData (provider (tick now e)) = ∅)
        /\ (forall cfg now,
              stocksData (provider (refresh now {| provider := provider e;
                                                   settings := cfg;
                                                   inflight := inflight e |})) = ∅)
        /\ (forall stockCode shares now,
              stocksData (provider (updateHoldingShares stockCode shares now e)) = ∅))
  /\ (forall req r s, exists s', respond req r s = Normal s'
        /\ fired s' = S (fired s)
        /\ stocksData s' = receivedQuotes (batchTime req) r ∪ stocksData s
        /\ (forall k, is_Some (stocksData s !! k) -> is_Some (stocksData s' !! k))
        /\ (stocksData s = ∅ -> stocksData s' = receivedQuotes (batchTime req) r))
  /\ (exists e req,
        rtc step (construct "09:30:00" ["1.000001"; "116.00700:100"]) e
        /\ inflight e = [req] /\ batchTime req = "09:30:03"
        /\ lastUpdateTime (provider e) = "09:30:03"
        /\ updateTime <$> stocksData (provider e) !! "1.000001" = Some "09:30:00").
Proof.
  split; [| split; [| split]].
  - intros now s Hne. rewrite (fetchAllStockData_start now s Hne).
    eexists _, _. split; [reflexivity |]. simpl.
    split; [reflexivity |]. split; [reflexivity |]. split; [reflexivity |].
    split; [intros c; apply getDetailItems_empty; reflexivity |].
    intros L.
    match goal with |- getRootItems ?s1 = _ =>
      exact (getRootItems_cleared s1 eq_refl L) end.
  - intros e E. split; [| split; [| split]].
    + intros now. apply refresh_keeps_empty, E.
    + intros now. unfold tick. apply startFetch_keeps_empty, E.
    + intros cfg now. apply refresh_keeps_empty, E.
    + intros stockCode shares now. unfold updateHoldingShares.
      apply refresh_keeps_empty, E.
  - intros req r s. destruct (respond_merges req r s) as (s' & R & F & U).
    exists s'. split; [exact R |]. split; [exact F |]. split; [exact U |]. split.
    + intros k Hk. rewrite U. apply lookup_union_is_Some. right. exact Hk.
    + intros E. rewrite U, E. apply (right_id_L ∅ (∪)).
  - exists (answer 0
              (ResponseEnd (Json (DiffArray [Some exampleIndex; Some exampleHK])))
              (tick "09:30:03" (construct "09:30:00" ["1.000001"; "116.00700:100"]))).
    eexists. split.
    + eapply rtc_l; [apply (step_tick "09:30:03") | apply answer_reachable].
    + vm_compute. repeat split.
Qed.

Lemma cache_cleared_at_start_filled_at_response_witness :
  exists s1 req, fetchAllStockData "09:30:03" exampleLoaded = (s1, Some req)
    /\ batchTime req = "09:30:03"
    /\ stocksData s1 = ∅ /\ fired s1 = fired exampleLoaded
    /\ (forall c, @getDetailItems examplePrinter c s1 = [])
    /\ (isLoading exampleLoaded = false ->
        @getRootItems examplePrinter s1 =
          Normal (map failedRow (stockCodeList exampleLoaded)
                  ++ (if JSString.truthy "09:30:03"
                      then [updateTimeRow "09:30:03"] else []))).
Proof.
  apply (proj1 (@cache_cleared_at_start_filled_at_response examplePrinter)).
  vm_compute. discriminate.
Defined.

(** ** The root list *)

Lemma split_contains sep s :
  JSString.contains sep s -> exists a b rest, JSString.split sep s = a :: b :: rest.
Proof.
  unfold JSString.contains.
  induction s as [|c r IH]; simpl; [intros [] |].
  destruct (Ascii.eqb c sep) eqn:E.
  - intros _. destruct (JSString.split sep r) as [|b rest] eqn:S.
    + destruct r; simpl in S; [discriminate |].
      destruct (Ascii.eqb _ sep); [discriminate |].
      destruct (JSString.split sep r); discriminate.
    + eauto.
  - intros [Hc|Hin]; [apply Ascii.eqb_neq in E; congruence |].
    destruct (IH Hin) as (a & b & rest & ->). eauto.
Qed.

Lemma contains_app sep a b : JSString.contains sep (a +:+ String sep b).
Proof.
  unfold JSString.contains. induction a as [|c a IH]; simpl.
  - left; reflexivity.
  - right; exact IH.
Qed.

Lemma marketTagOf_normal code :
  JSString.contains "." code -> exists t, marketTagOf code = Normal t.
Proof.
  intros Hc. destruct (split_contains _ _ Hc) as (a & b & rest & E).
  unfold marketTagOf. rewrite E. simpl.
  repeat match goal with
  | |- context [if ?c then _ else _] => destruct c
  end; eauto.
Qed.

Lemma rootItemOf_normal s code :
  dottedKeys (stocksData s) ->
  exists it, rootItemOf s code = Normal it /\ isRoot it = true.
Proof.
  intros Hd. unfold rootItemOf.
  destruct (stocksData s !! code) as [q|] eqn:E.
  - destruct (marketTagOf_normal code (Hd _ _ E)) as ([tag color] & ->).
    simpl. eauto.
  - eauto.
Qed.

Lemma mapC_normal {A B} (f : A -> Completion B) (P : B -> Prop) l :
  (forall x, exists y, f x = Normal y /\ P y) ->
  exists ys, mapC f l = Normal ys /\ Forall P ys.
Proof.
  intros Hf. induction l as [|x l (ys & E & HP)]; simpl.
  - eauto.
  - destruct (Hf x) as (y & -> & Hy). simpl. rewrite E. simpl. eauto.
Qed.

(** The shape of the root list once loading is over: the instrument rows,
    then the aggregate row when some holding has a quote, then the update
    time when there is one. *)
Lemma getRootItems_shape `{ShortestDigits} s :
  isLoading s = false -> dottedKeys (stocksData s) ->
  exists rows, Forall (fun it => isRoot it = true) rows
    /\ getRootItems s =
       Normal (rows
               ++ (if snd (totalProfitLoss s)
                   then [profitLossItem (fst (totalProfitLoss s))] else [])
               ++ (if JSString.truthy (lastUpdateTime s)
                   then [updateTimeRow (lastUpdateTime s)] else [])).
Proof.
  intros Hl Hd. unfold getRootItems. rewrite Hl.
  destruct (mapC_normal (rootItemOf s) (fun it => isRoot it = true)
              (stockCodeList s) (fun c => rootItemOf_normal s c Hd))
    as (rows & E & HP).
  exists rows. split; [exact HP |]. rewrite E. simpl.
  destruct (totalProfitLoss s) as [total has]. simpl.
  destruct has, (JSString.truthy (lastUpdateTime s));
    rewrite <- ?app_assoc, ?app_nil_r; reflexivity.
Qed.

Lemma storeQuote_dottedKeys `{ShortestDigits} t m item :
  dottedKeys m -> dottedKeys (storeQuote t m item).
Proof.
  intros Hm. destruct item as [r|]; [| exact Hm].
  intros k q. unfold storeQuote. rewrite lookup_insert_Some.
  intros [[<- _]|[_ E]]; [| exact (Hm _ _ E)].
  simpl. apply contains_app.
Qed.

Lemma receivedQuotes_dottedKeys `{ShortestDigits} t r : dottedKeys (receivedQuotes t r).
Proof.
  assert (He : dottedKeys ∅) by (intros k q E; rewrite lookup_empty in E; discriminate).
  destruct r as [|[|[| |stocks]]]; try exact He. simpl.
  generalize (∅ : gmap string StockData) He.
  induction stocks as [|x stocks IH]; simpl; intros m Hm; [exact Hm |].
  apply IH, storeQuote_dottedKeys, Hm.
Qed.





(** ** The aggregate profit-and-loss row *)

Lemma totalProfitLoss_fold s l total has :
  (forall c v, In (c, v) l -> gt0 v = true) ->
  fold_left
    (fun '(total, hasHoldings) '(code, shares) =>
       match stocksData s !! code with
       | Some stockData =>
           if gt0 shares
           then (add total (mul (parseFloat (change stockData)) shares), true)
           else (total, hasHoldings)
       | None => (total, hasHoldings)
       end) l (total, has)
  = (fold_left add
       (map (positionProfitLoss s)
          (List.filter (fun entry => match stocksData s !! fst entry with
                                     | Some _ => true
                                     | None => false
                                     end) l)) total,
     has || negb (forallb (fun entry => match stocksData s !! fst entry with
                                        | Some _ => false
                                        | None => true
                                        end) l)).
Proof.
  revert total has. induction l as [|[c v] l IH]; intros total has Hpos.
  - simpl. rewrite orb_false_r. reflexivity.
  - cbn [fold_left List.filter forallb fst].
    assert (Hv : gt0 v = true) by (apply (Hpos c v); left; reflexivity).
    assert (Hl : forall c' v', In (c', v') l -> gt0 v' = true)
      by (intros c' v' Hin; apply (Hpos c' v'); right; exact Hin).
    assert (Hp : forall q, stocksData s !! c = Some q ->
              positionProfitLoss s (c, v) = mul (parseFloat (change q)) v).
    { intros q E. unfold positionProfitLoss. cbn [fst snd]. rewrite E. reflexivity. }
    destruct (stocksData s !! c) as [q|] eqn:E.
    + rewrite Hv, (IH _ _ Hl). cbn [map fold_left].
      rewrite (Hp q eq_refl). cbn [negb andb]. rewrite orb_true_r. reflexivity.
    + rewrite (IH _ _ Hl). reflexivity.
Qed.

Lemma totalProfitLoss_spec s :
  positiveHoldings s ->
  totalProfitLoss s
  = (profitLossSum s, match heldWithQuote s with [] => false | _ => true end).
Proof.
  intros Hpos. unfold totalProfitLoss, profitLossSum, heldWithQuote.
  unfold positiveHoldings in Hpos. unfold JSMap.entries in *.
  rewrite (totalProfitLoss_fold s _ _ _ Hpos). f_equal.
  cbn [orb]. clear Hpos.
  induction (holdingShares s) as [|[c v] l IH]; [reflexivity |].
  cbn [forallb List.filter fst]. destruct (stocksData s !! c); [reflexivity |].
  cbn [andb]. exact IH.
Qed.

Lemma exampleLoaded_dottedKeys : dottedKeys (stocksData exampleLoaded).
Proof.
  change (stocksData exampleLoaded)
    with (@receivedQuotes examplePrinter "09:30:00"
            (ResponseEnd (Json (DiffArray [Some exampleIndex; Some exampleHK])))).
  apply receivedQuotes_dottedKeys.
Qed.

(** ** The holdings updater *)

Lemma rewriteEntries_fold `{ShortestDigits} stockCode shares l newCodes found :
  fold_left
    (fun '(newCodes, found) code =>
       let trimmedCode := JSString.trim code in
       if negb (JSString.truthy trimmedCode) then (newCodes, found)
       else
         let parts := JSString.split ":" trimmedCode in
         let codeOnly := JSString.trim (nth 0 parts EmptyString) in
         if String.eqb codeOnly stockCode then
           (newCodes ++ [if gt0 shares
                         then stockCode +:+ ":" +:+ ToString shares
                         else stockCode], true)
         else (newCodes ++ [trimmedCode], found))
    l (newCodes, found)
  = (newCodes ++ map (rewrittenEntry stockCode shares)
                   (List.filter (fun entry => negb (isBlank entry)) l),
     found || mentions l stockCode).
Proof.
  match goal with |- fold_left ?f _ _ = _ => set (body := f) end.
  revert newCodes found.
  induction l as [|entry l IH]; intros newCodes found.
  - simpl. rewrite app_nil_r, orb_false_r. reflexivity.
  - cbn [fold_left].
    assert (Hbody : body (newCodes, found) entry
              = if isBlank entry then (newCodes, found)
                else if String.eqb (entryCode entry) stockCode
                     then (newCodes ++ [holdingEntry stockCode shares], true)
                     else (newCodes ++ [JSString.trim entry], found))
      by reflexivity.
    rewrite Hbody. clear Hbody.
    unfold mentions. cbn [existsb List.filter]. fold (mentions l stockCode).
    destruct (isBlank entry) eqn:B; cbn [negb andb orb map].
    + apply IH.
    + assert (Hentry : rewrittenEntry stockCode shares entry
                = if String.eqb (entryCode entry) stockCode
                  then holdingEntry stockCode shares else JSString.trim entry)
        by reflexivity.
      rewrite Hentry. clear Hentry.
      destruct (String.eqb (entryCode entry) stockCode) eqn:E;
        rewrite IH, <- app_assoc; cbn [app orb];
        [rewrite orb_true_r | ]; reflexivity.
Qed.

(** C5, as stated, fails on the code: an entry for another code is not
    passed through unchanged when it has white space around it, and a blank
    entry is not passed through at all. *)
Lemma updateHoldingShares_trims_other_entries :
  settings (@updateHoldingShares examplePrinter "1.000001" (ofZ 12) "09:30:03"
              {| provider := initialProvider;
                 settings := ["1.000001:7"; " 0.300750:5 "; "  "];
                 inflight := [] |})
    = ["1.000001:12"; "0.300750:5"]
  /\ ["1.000001:12"; "0.300750:5"] <> ["1.000001:12"; " 0.300750:5 "; "  "].
Proof. split; [vm_compute; reflexivity | discriminate]. Qed.

(** C5, amended.  For every setting, target code and share count,
    [updateHoldingShares] writes back the non-blank entries in order: an
    entry whose code is the target becomes [code:shares] when shares > 0 and
    the bare code otherwise; every other entry is kept with the white space
    around it trimmed, annotation included; blank entries are dropped; and
    when no entry had the target's code and shares > 0, [code:shares] is
    appended at the end. *)
Theorem updateHoldingShares_rewrites `{ShortestDigits}
    (stockCode : string) (shares : number) (now : string) (e : Engine) :
  settings (updateHoldingShares stockCode shares now e)
  = map (rewrittenEntry stockCode shares)
      (List.filter (fun entry => negb (isBlank entry)) (settings e))
    ++ (if negb (mentions (settings e) stockCode) && gt0 shares
        then [stockCode +:+ ":" +:+ ToString shares] else []).
Proof.
  assert (Hs : settings (updateHoldingShares stockCode shares now e)
               = rewriteEntries (settings e) stockCode shares).
  { unfold updateHoldingShares, refresh, startFetch. cbn [settings provider].
    destruct (fetchAllStockData _ _). reflexivity. }
  rewrite Hs. unfold rewriteEntries. rewrite rewriteEntries_fold. cbn [app orb].
  destruct (negb (mentions (settings e) stockCode) && gt0 shares);
    [reflexivity | rewrite app_nil_r; reflexivity].
Qed.

(** ** Entries of the form code:right *)

Lemma trimStart_app_colon a b :
  JSString.trimStart (a +:+ String ":" b) = JSString.trimStart a +:+ String ":" b.
Proof.
  induction a as [|c a IH]; [reflexivity |].
  simpl. destruct (JSString.isWhiteSpace c); [exact IH | reflexivity].
Qed.

Lemma trimEnd_app_colon a b :
  JSString.trimEnd (a +:+ String ":" b) = a +:+ String ":" (JSString.trimEnd b).
Proof.
  induction a as [|c a IH].
  - simpl. destruct (JSString.trimEnd b); reflexivity.
  - simpl. rewrite IH. destruct a; reflexivity.
Qed.

Lemma split_nonempty sep s : JSString.split sep s <> [].
Proof.
  destruct s as [|c r]; simpl; [discriminate |].
  destruct (Ascii.eqb c sep); [discriminate |].
  destruct (JSString.split sep r); discriminate.
Qed.

Lemma split_app_sep sep a b :
  ~ JSString.contains sep a ->
  JSString.split sep (a +:+ String sep b) = a :: JSString.split sep b.
Proof.
  unfold JSString.contains. induction a as [|c a IH]; simpl; intros Hn.
  - rewrite Ascii.eqb_refl. reflexivity.
  - destruct (Ascii.eqb c sep) eqn:E.
    + apply Ascii.eqb_eq in E. destruct Hn. left. exact E.
    + rewrite IH; [reflexivity |]. intros Hin. apply Hn. right. exact Hin.
Qed.

Lemma trimStart_idempotent s :
  JSString.trimStart (JSString.trimStart s) = JSString.trimStart s.
Proof.
  induction s as [|c r IH]; [reflexivity |].
  simpl. destruct (JSString.isWhiteSpace c) eqn:E; [exact IH |].
  simpl. rewrite E. reflexivity.
Qed.

Lemma trimStart_contains sep s :
  JSString.contains sep (JSString.trimStart s) -> JSString.contains sep s.
Proof.
  unfold JSString.contains. induction s as [|c r IH]; simpl; [tauto |].
  destruct (JSString.isWhiteSpace c); [intros Hin; right; exact (IH Hin) |].
  simpl. tauto.
Qed.

Lemma trimStart_trimEnd s :
  JSString.trimStart (JSString.trimEnd s) = JSString.trimEnd (JSString.trimStart s).
Proof.
  induction s as [|c r IH]; [reflexivity |].
  cbn [JSString.trimStart JSString.trimEnd].
  destruct (JSString.isWhiteSpace c) eqn:E.
  - rewrite <- IH. destruct (JSString.trimEnd r); [reflexivity |].
    cbn [JSString.trimStart]. rewrite E. reflexivity.
  - cbn [JSString.trimEnd]. rewrite E.
    destruct (JSString.trimEnd r); cbn [JSString.trimStart]; rewrite E; reflexivity.
Qed.

Lemma firstSegment_cons c r :
  firstSegment (String c r)
  = if Ascii.eqb c ":" then EmptyString else String c (firstSegment r).
Proof.
  unfold firstSegment. simpl. destruct (Ascii.eqb c ":"); [reflexivity |].
  destruct (JSString.split ":" r) eqn:S; [| reflexivity].
  destruct (split_nonempty _ _ S).
Qed.

Lemma trimEnd_firstSegment s :
  JSString.trimEnd (firstSegment (JSString.trimEnd s))
  = JSString.trimEnd (firstSegment s).
Proof.
  induction s as [|c r IH]; [reflexivity |].
  rewrite (firstSegment_cons c r). cbn [JSString.trimEnd].
  destruct (JSString.trimEnd r) as [|d t] eqn:T.
  - destruct (JSString.isWhiteSpace c) eqn:W.
    + destruct (Ascii.eqb c ":") eqn:E; [reflexivity |].
      cbn [JSString.trimEnd]. rewrite <- IH, W. reflexivity.
    + rewrite firstSegment_cons. destruct (Ascii.eqb c ":"); [reflexivity |].
      cbn [JSString.trimEnd]. rewrite <- IH. reflexivity.
  - rewrite firstSegment_cons. destruct (Ascii.eqb c ":"); [reflexivity |].
    cbn [JSString.trimEnd]. rewrite IH. reflexivity.
Qed.

Lemma trim_firstSegment_trimEnd s :
  JSString.trim (firstSegment (JSString.trimEnd s)) = JSString.trim (firstSegment s).
Proof.
  unfold JSString.trim. rewrite <- !trimStart_trimEnd, trimEnd_firstSegment.
  reflexivity.
Qed.

Lemma truthy_true s : s <> EmptyString -> JSString.truthy s = true.
Proof. destruct s; [congruence | reflexivity]. Qed.

(** The entry [code:right], trimmed as [loadStockCodes] trims it, in parts. *)
Lemma entry_parts code rhs :
  ~ JSString.contains ":" code ->
  JSString.split ":" (JSString.trim (code +:+ ":" +:+ rhs))
  = JSString.trimStart code :: JSString.split ":" (JSString.trimEnd rhs).
Proof.
  intros Hn. unfold JSString.trim.
  change (code +:+ ":" +:+ rhs) with (code +:+ String ":" rhs).
  rewrite trimStart_app_colon, trimEnd_app_colon.
  apply split_app_sep. intros Hin. apply Hn, trimStart_contains, Hin.
Qed.

Lemma gt0_cases x :
  negb (isNaN x) && gt0 x = true
  <-> x = Infinity false \/ exists q, x = Fin q /\ (0 < q)%Qc.
Proof.
  destruct x as [|[|]|q]; simpl.
  - split; [discriminate | intros [E|(q & E & _)]; discriminate].
  - split; [discriminate | intros [E|(q & E & _)]; discriminate].
  - split; [left; reflexivity | reflexivity].
  - unfold Qc_ltb. rewrite negb_true_iff. split.
    + intros Hle. right. exists q. split; [reflexivity |].
      apply Qnot_le_lt. intros Hq. apply Qle_bool_iff in Hq.
      apply not_true_iff_false in Hle. apply Hle. exact Hq.
    + intros [E|(q' & E & Hq)]; [discriminate |]. inversion E; subst q'.
      match goal with |- ?b = false => destruct b eqn:Hb end; [| reflexivity].
      apply Qle_bool_iff in Hb. apply Qlt_not_le in Hq. destruct (Hq Hb).
Qed.

(** C6, as stated, fails on the code: the right part [Infinity] parses to a
    number that is not finite, and it is stored as the holding. *)
Lemma infinite_holding_accepted :
  parsedShares "Infinity" = Infinity false
  /\ isFinite (parsedShares "Infinity") = false
  /\ JSMap.get "1.000001"
       (holdingShares (loadStockCodes ["1.000001:Infinity"] initialProvider))
     = Some (Infinity false).
Proof. repeat split. Qed.

(** C6, amended.  For every raw entry [code:right] with a non-blank code, the
    code is appended to the instrument list, and the number parsed from the
    right part (up to a further colon, white space trimmed) is stored as its
    holding if and only if it is not NaN and greater than zero, that is a
    strictly positive finite number or +Infinity; otherwise the holdings map
    is left as it was.  In particular a setting of that one entry yields the
    code alone, with or without its holding. *)
Theorem holding_accepted_iff_positive (code rhs : string)
    (parsedCodes : list string) (holdings : JSMap.t number) (s : Provider) :
  ~ JSString.contains ":" code -> JSString.trim code <> EmptyString ->
  parseEntry (parsedCodes, holdings) (JSString.trim (code +:+ ":" +:+ rhs))
  = (parsedCodes ++ [JSString.trim code],
     if accepted (parsedShares rhs)
     then JSMap.set (JSString.trim code) (parsedShares rhs) holdings
     else holdings)
  /\ (accepted (parsedShares rhs) = true
      <-> parsedShares rhs = Infinity false
          \/ exists q, parsedShares rhs = Fin q /\ (0 < q)%Qc)
  /\ stockCodeList (loadStockCodes [code +:+ ":" +:+ rhs] s) = [JSString.trim code]
  /\ holdingShares (loadStockCodes [code +:+ ":" +:+ rhs] s)
     = if accepted (parsedShares rhs)
       then [(JSString.trim code, parsedShares rhs)] else [].
Proof.
  intros Hn Hne.
  assert (Hentry : forall codes h,
            parseEntry (codes, h) (JSString.trim (code +:+ ":" +:+ rhs))
            = (codes ++ [JSString.trim code],
               if accepted (parsedShares rhs)
               then JSMap.set (JSString.trim code) (parsedShares rhs) h
               else h)).
  { intros codes h. unfold parseEntry. rewrite (entry_parts code rhs Hn).
    cbn [nth nth_error].
    assert (Hcode : JSString.trim (JSString.trimStart code) = JSString.trim code)
      by (unfold JSString.trim; rewrite trimStart_idempotent; reflexivity).
    rewrite Hcode, (truthy_true _ Hne).
    destruct (JSString.split ":" (JSString.trimEnd rhs)) as [|seg rest] eqn:S;
      [destruct (split_nonempty _ _ S) |].
    assert (Hseg : JSString.trim seg = JSString.trim (firstSegment rhs)).
    { rewrite <- trim_firstSegment_trimEnd. unfold firstSegment. rewrite S.
      reflexivity. }
    cbn [nth_error]. rewrite Hseg. reflexivity. }
  split; [apply Hentry |]. split; [apply gt0_cases |].
  assert (Hlen : (0 <? String.length (JSString.trim (code +:+ ":" +:+ rhs)))%nat = true).
  { unfold JSString.trim.
    change (code +:+ ":" +:+ rhs) with (code +:+ String ":" rhs).
    rewrite trimStart_app_colon, trimEnd_app_colon.
    destruct (JSString.trimStart code); reflexivity. }
  unfold loadStockCodes.
  change (0 <? length [code +:+ ":" +:+ rhs])%nat with true. cbv iota.
  cbn [map List.filter]. rewrite Hlen.
  change (0 <? length [JSString.trim (code +:+ ":" +:+ rhs)])%nat with true.
  cbv iota. cbn [fold_left holdingShares].
  rewrite Hentry. cbn [stockCodeList holdingShares app].
  split; [reflexivity |]. destruct (accepted (parsedShares rhs)); reflexivity.
Qed.

Lemma holding_accepted_iff_positive_witness :
  parseEntry ([], JSMap.empty) (JSString.trim ("1.000001" +:+ ":" +:+ " 10 "))
  = ([] ++ [JSString.trim "1.000001"],
     if accepted (parsedShares " 10 ")
     then JSMap.set (JSString.trim "1.000001") (parsedShares " 10 ") JSMap.empty
     else JSMap.empty)
  /\ (accepted (parsedShares " 10 ") = true
      <-> parsedShares " 10 " = Infinity false
          \/ exists q, parsedShares " 10 " = Fin q /\ (0 < q)%Qc)
  /\ stockCodeList (loadStockCodes ["1.000001" +:+ ":" +:+ " 10 "] initialProvider)
     = [JSString.trim "1.000001"]
  /\ holdingShares (loadStockCodes ["1.000001" +:+ ":" +:+ " 10 "] initialProvider)
     = if accepted (parsedShares " 10 ")
       then [(JSString.trim "1.000001", parsedShares " 10 ")] else [].
Proof.
  apply (holding_accepted_iff_positive "1.000001" " 10 " [] JSMap.empty
           initialProvider).
  - unfold JSString.contains. simpl. intuition discriminate.
  - vm_compute. discriminate.
Defined.

(** ** Decimal digits and toFixed *)

Lemma digitsLE_fuel f g n :
  (n < 2 ^ N.of_nat f)%N -> (n < 2 ^ N.of_nat g)%N ->
  digitsLE (S f) n = digitsLE (S g) n.
Proof.
  revert g n. induction f as [|f IH]; intros g n Hf Hg.
  - assert (n = 0%N) by (simpl in Hf; lia). subst n. reflexivity.
  - cbn [digitsLE]. destruct (n <? 10)%N eqn:E; [reflexivity |].
    apply N.ltb_ge in E.
    destruct g as [|g]; [simpl in Hg; lia |].
    f_equal. rewrite Nat2N.inj_succ, N.pow_succ_r' in Hf, Hg.
    apply IH; apply N.Div0.div_lt_upper_bound; lia.
Qed.

Lemma digitsLE_unfold n :
  digitsLE (S (N.to_nat (N.size n))) n
  = if (n <? 10)%N then [n]
    else (n mod 10)%N
         :: digitsLE (S (N.to_nat (N.size (n / 10)))) (n / 10)%N.
Proof.
  cbn [digitsLE]. destruct (n <? 10)%N eqn:E; [reflexivity |].
  apply N.ltb_ge in E. f_equal.
  pose proof (N.size_gt n) as Hn. pose proof (N.size_gt (n / 10)) as Hd.
  destruct (N.to_nat (N.size n)) as [|f] eqn:F.
  - assert (N.size n = 0%N) as Z0 by lia. rewrite Z0 in Hn. simpl in Hn. lia.
  - apply digitsLE_fuel.
    + assert (N.size n = N.succ (N.of_nat f)) as Sz by lia.
      rewrite Sz, N.pow_succ_r' in Hn.
      apply N.Div0.div_lt_upper_bound. lia.
    + rewrite N2Nat.id. exact Hd.
Qed.

Lemma digitsLE_length_pos n :
  (1 <= length (digitsLE (S (N.to_nat (N.size n))) n))%nat.
Proof. rewrite digitsLE_unfold. destruct (n <? 10)%N; simpl; lia. Qed.

(** The digits of [n], zero-padded to [k + 1], are the [k] low digits
    followed by the digits of [n / 10^k]. *)
Lemma digits_split k n :
  digitsLE (S (N.to_nat (N.size n))) n
    ++ repeat 0%N (S k - length (digitsLE (S (N.to_nat (N.size n))) n))
  = fixedLE k n
    ++ digitsLE (S (N.to_nat (N.size (n / 10 ^ N.of_nat k)))) (n / 10 ^ N.of_nat k)%N.
Proof.
  revert n. induction k as [|k IH]; intros n.
  - pose proof (digitsLE_length_pos n).
    replace (1 - _)%nat with 0%nat by lia.
    simpl. rewrite app_nil_r, N.div_1_r. reflexivity.
  - rewrite Nat2N.inj_succ, N.pow_succ_r', <- N.Div0.div_div.
    rewrite (digitsLE_unfold n). cbn [fixedLE].
    destruct (n <? 10)%N eqn:E.
    + apply N.ltb_lt in E.
      rewrite (N.mod_small n 10 E), (N.div_small n 10 E).
      specialize (IH 0%N). rewrite N.Div0.div_0_l in *.
      cbn [app length]. f_equal. rewrite <- IH. simpl.
      rewrite Nat.sub_0_r. reflexivity.
    + cbn [app length]. f_equal. rewrite <- IH. reflexivity.
Qed.

Lemma fixedLE_mod k n : fixedLE k (n mod 10 ^ N.of_nat k) = fixedLE k n.
Proof.
  revert n. induction k as [|k IH]; intros n; [reflexivity |].
  cbn [fixedLE]. rewrite Nat2N.inj_succ, N.pow_succ_r'.
  assert (Hp : (10 ^ N.of_nat k <> 0)%N) by (apply N.pow_nonzero; discriminate).
  f_equal.
  - rewrite N.Div0.mod_mul_r, N.mul_comm, N.Div0.mod_add.
    apply N.Div0.mod_mod.
  - rewrite <- (IH (n / 10)%N). f_equal.
    rewrite N.Div0.mod_mul_r, N.mul_comm, N.div_add; [| discriminate].
    rewrite (N.div_small (n mod 10) 10); [reflexivity |].
    apply N.mod_lt. discriminate.
Qed.

Lemma fixedLE_length k n : length (fixedLE k n) = k.
Proof. revert n. induction k as [|k IH]; intros n; simpl; [| rewrite IH]; reflexivity. Qed.

Lemma string_of_list_ascii_app l1 l2 :
  string_of_list_ascii (l1 ++ l2)
  = string_of_list_ascii l1 +:+ string_of_list_ascii l2.
Proof. induction l1 as [|c l1 IH]; simpl; [| rewrite IH]; reflexivity. Qed.

Lemma stringOfLE_app l1 l2 : stringOfLE (l1 ++ l2) = stringOfLE l2 +:+ stringOfLE l1.
Proof.
  unfold stringOfLE. rewrite rev_app_distr, map_app. apply string_of_list_ascii_app.
Qed.

Lemma stringOfLE_zeros j : stringOfLE (repeat 0%N j) = JSString.replicate j "0".
Proof.
  unfold stringOfLE. rewrite rev_repeat.
  induction j as [|j IH]; simpl; [| rewrite IH]; reflexivity.
Qed.

Lemma stringOfLE_length l : String.length (stringOfLE l) = length l.
Proof.
  unfold stringOfLE. rewrite <- (length_rev l), <- (length_map digitChar (rev l)).
  induction (map digitChar (rev l)) as [|c r IH]; simpl; [| rewrite IH]; reflexivity.
Qed.

Lemma append_length a b : String.length (a +:+ b) = (String.length a + String.length b)%nat.
Proof. induction a as [|c a IH]; simpl; [| rewrite IH]; reflexivity. Qed.

Lemma substring_all b : substring 0 (String.length b) b = b.
Proof. induction b as [|c b IH]; simpl; [| rewrite IH]; reflexivity. Qed.

Lemma substring_app_l a b : substring 0 (String.length a) (a +:+ b) = a.
Proof.
  induction a as [|c a IH]; simpl; [| rewrite IH; reflexivity].
  destruct b; reflexivity.
Qed.

Lemma substring_app_r a b :
  substring (String.length a) (String.length b) (a +:+ b) = b.
Proof. induction a as [|c a IH]; simpl; [apply substring_all | exact IH]. Qed.

(** Steps 10.a-10.c of toFixed on the digits of [n], for at least one
    decimal: the integer part, the point, and exactly [k] decimals. *)
Lemma pointBefore_digits k n :
  pointBefore (S k) (decimalDigits n)
  = decimalDigits (n / 10 ^ N.of_nat (S k))
    +:+ "." +:+ stringOfLE (fixedLE (S k) (n mod 10 ^ N.of_nat (S k))).
Proof.
  rewrite fixedLE_mod. unfold pointBefore, decimalDigits.
  set (D := digitsLE (S (N.to_nat (N.size n))) n).
  set (A := stringOfLE (digitsLE _ (n / 10 ^ N.of_nat (S k))%N)).
  set (B := stringOfLE (fixedLE (S k) n)).
  assert (Hpad : (if (String.length (stringOfLE D) <=? S k)%nat
                  then JSString.replicate (S k + 1 - String.length (stringOfLE D)) "0"
                       +:+ stringOfLE D
                  else stringOfLE D) = A +:+ B).
  { unfold A, B. rewrite <- stringOfLE_app, <- (digits_split (S k) n). fold D.
    rewrite stringOfLE_app, stringOfLE_zeros, stringOfLE_length.
    destruct (length D <=? S k)%nat eqn:E.
    - replace (S k + 1 - length D)%nat with (S (S k) - length D)%nat by lia.
      reflexivity.
    - apply Nat.leb_gt in E.
      replace (S (S k) - length D)%nat with 0%nat by lia. reflexivity. }
  rewrite Hpad.
  assert (HB : String.length B = S k)
    by (unfold B; rewrite stringOfLE_length; apply fixedLE_length).
  rewrite append_length, HB.
  replace (String.length A + S k - S k)%nat with (String.length A) by lia.
  rewrite substring_app_l. rewrite <- HB at 1. rewrite substring_app_r.
  reflexivity.
Qed.



Lemma pow10_pos k : (0 < pow10 k)%Z.
Proof. unfold pow10. apply Z.pow_pos_nonneg; lia. Qed.

(** ** binary64 rounding *)

Lemma inject_Z_minus a b : (inject_Z (a - b) == inject_Z a - inject_Z b)%Q.
Proof. unfold Z.sub, Qminus. rewrite inject_Z_plus, inject_Z_opp. reflexivity. Qed.

Lemma roundHalfEven_comp x y : (x == y)%Q -> roundHalfEven x = roundHalfEven y.
Proof.
  intros E. unfold roundHalfEven. rewrite (Qfloor_comp _ _ E).
  assert (E' : (x - inject_Z (Qfloor y) == y - inject_Z (Qfloor y))%Q)
    by (rewrite E; reflexivity).
  rewrite (Qcompare_comp _ _ E' _ _ (Qeq_refl _)). reflexivity.
Qed.

Lemma roundHalfEven_bounds x :
  (inject_Z (roundHalfEven x) - (1 # 2) <= x
   /\ x <= inject_Z (roundHalfEven x) + (1 # 2))%Q.
Proof.
  unfold roundHalfEven.
  pose proof (Qfloor_le x) as Hl. pose proof (Qlt_floor x) as Hu.
  rewrite inject_Z_plus in Hu. change (inject_Z 1) with 1%Q in Hu.
  destruct (Qcompare_spec (x - inject_Z (Qfloor x)) (1 # 2)) as [E|E|E].
  - destruct (Z.even (Qfloor x));
      rewrite ?inject_Z_plus; change (inject_Z 1) with 1%Q; lra.
  - lra.
  - rewrite inject_Z_plus. change (inject_Z 1) with 1%Q. lra.
Qed.

Lemma Qfloor_unique x z :
  (inject_Z z <= x)%Q -> (x < inject_Z z + 1)%Q -> Qfloor x = z.
Proof.
  intros Hl Hu.
  pose proof (Qfloor_le x) as Fl. pose proof (Qlt_floor x) as Fu.
  rewrite inject_Z_plus in Fu. change (inject_Z 1) with 1%Q in Fu.
  assert (H1 : (inject_Z (Qfloor x) < inject_Z (z + 1))%Q)
    by (rewrite inject_Z_plus; change (inject_Z 1) with 1%Q; lra).
  assert (H2 : (inject_Z z < inject_Z (Qfloor x + 1))%Q)
    by (rewrite inject_Z_plus; change (inject_Z 1) with 1%Q; lra).
  rewrite <- Zlt_Qlt in H1, H2. lia.
Qed.

Lemma roundHalfEven_unique x k :
  (inject_Z k - (1 # 2) < x)%Q -> (x < inject_Z k + (1 # 2))%Q ->
  roundHalfEven x = k.
Proof.
  intros Hl Hu. unfold roundHalfEven.
  destruct (Qlt_le_dec x (inject_Z k)) as [Hlt|Hge].
  - assert (F : Qfloor x = (k - 1)%Z).
    { apply Qfloor_unique; rewrite inject_Z_minus;
        change (inject_Z 1) with 1%Q; lra. }
    rewrite F, inject_Z_minus. change (inject_Z 1) with 1%Q.
    destruct (Qcompare_spec (x - (inject_Z k - 1)) (1 # 2)) as [E|E|E];
      try lra. lia.
  - assert (F : Qfloor x = k) by (apply Qfloor_unique; lra).
    rewrite F.
    destruct (Qcompare_spec (x - inject_Z k) (1 # 2)) as [E|E|E]; try lra.
    reflexivity.
Qed.

Lemma roundHalfEven_Z x k : (x == inject_Z k)%Q -> roundHalfEven x = k.
Proof. intros E. apply roundHalfEven_unique; lra. Qed.

Lemma pow2_pos e : (0 < 2 ^ e)%Q.
Proof. apply Qpower_0_lt. reflexivity. Qed.

Lemma pow2_plus a b : (2 ^ (a + b) == 2 ^ a * 2 ^ b)%Q.
Proof. apply Qpower_plus. discriminate. Qed.

Lemma pow2_lt a b : (a < b)%Z -> (2 ^ a < 2 ^ b)%Q.
Proof. intros H. apply Qpower_lt_compat_l; [exact H | reflexivity]. Qed.

Lemma pow2_le a b : (a <= b)%Z -> (2 ^ a <= 2 ^ b)%Q.
Proof. intros H. apply Qpower_le_compat_l; [exact H | discriminate]. Qed.

Lemma pow2_lt_inv a b : (2 ^ a < 2 ^ b)%Q -> (a < b)%Z.
Proof. intros H. apply (Qpower_lt_compat_l_inv 2); [exact H | reflexivity]. Qed.

Lemma pow2_Z n : (0 <= n)%Z -> (inject_Z (2 ^ n) == 2 ^ n)%Q.
Proof. intros H. apply (Zpower_Qpower 2 n H). Qed.

Lemma pow2_succ a : (2 ^ (a + 1) == 2 * 2 ^ a)%Q.
Proof. rewrite pow2_plus. change (2 ^ 1)%Q with 2%Q. ring. Qed.

Lemma log2Floor_spec v :
  (0 < v)%Q -> (2 ^ log2Floor v <= v /\ v < 2 ^ (log2Floor v + 1))%Q.
Proof.
  intros Hv. destruct v as [n d]. unfold log2Floor. cbn [Qnum Qden].
  assert (Hn : (0 < n)%Z) by (unfold Qlt in Hv; simpl in Hv; lia).
  set (ln := Z.log2 n). set (ld := Z.log2 (Z.pos d)). set (l := (ln - ld)%Z).
  destruct (Z.log2_spec n Hn) as [Hn1 Hn2]. fold ln in Hn1, Hn2.
  destruct (Z.log2_spec (Z.pos d) (Pos2Z.is_pos d)) as [Hd1 Hd2].
  fold ld in Hd1, Hd2.
  pose proof (Z.log2_nonneg n) as Hln. fold ln in Hln.
  pose proof (Z.log2_nonneg (Z.pos d)) as Hld. fold ld in Hld.
  assert (HD : (0 < inject_Z (Z.pos d))%Q) by (unfold Qlt; simpl; lia).
  assert (HvD : ((n # d) * inject_Z (Z.pos d) == inject_Z n)%Q)
    by (rewrite (Qmake_Qdiv n d); field; intros E; rewrite E in HD; inversion HD).
  rewrite Zle_Qle, (pow2_Z ln Hln) in Hn1.
  rewrite Zlt_Qlt, (pow2_Z (Z.succ ln)) in Hn2 by lia.
  rewrite Zle_Qle, (pow2_Z ld Hld) in Hd1.
  rewrite Zlt_Qlt, (pow2_Z (Z.succ ld)) in Hd2 by lia.
  assert (E1 : (2 ^ Z.succ ln == 2 ^ (l + 1) * 2 ^ ld)%Q)
    by (rewrite <- pow2_plus; f_equiv; unfold l; lia).
  assert (E2 : (2 ^ ln == 2 ^ (l - 1) * 2 ^ Z.succ ld)%Q)
    by (rewrite <- pow2_plus; f_equiv; unfold l; lia).
  pose proof (pow2_pos (l + 1)) as P1. pose proof (pow2_pos (l - 1)) as P2.
  pose proof (pow2_pos l) as P3.
  assert (Hup : ((n # d) < 2 ^ (l + 1))%Q).
  { apply (Qmult_lt_r _ _ (inject_Z (Z.pos d)) HD). rewrite HvD.
    apply (Qlt_le_trans _ _ _ Hn2). rewrite E1.
    apply Qmult_le_l; [exact P1 | exact Hd1]. }
  assert (Hlow : (2 ^ (l - 1) <= (n # d))%Q).
  { apply Qlt_le_weak. apply (Qmult_lt_r _ _ (inject_Z (Z.pos d)) HD). rewrite HvD.
    apply (Qlt_le_trans _ (2 ^ (l - 1) * 2 ^ Z.succ ld)).
    - apply Qmult_lt_l; [exact P2 | exact Hd2].
    - rewrite <- E2. exact Hn1. }
  destruct (Qle_bool (2 ^ l) (n # d)) eqn:B.
  - apply Qle_bool_iff in B. split; assumption.
  - split; [exact Hlow |]. replace (l - 1 + 1)%Z with l by lia.
    apply Qnot_le_lt. intros Hle. apply Qle_bool_iff in Hle. congruence.
Qed.

Lemma log2_unique v a b :
  (2 ^ a <= v)%Q -> (v < 2 ^ (a + 1))%Q -> (2 ^ b <= v)%Q -> (v < 2 ^ (b + 1))%Q ->
  a = b.
Proof.
  intros A1 A2 B1 B2.
  pose proof (pow2_lt_inv a (b + 1) (Qle_lt_trans _ _ _ A1 B2)).
  pose proof (pow2_lt_inv b (a + 1) (Qle_lt_trans _ _ _ B1 A2)).
  lia.
Qed.

Lemma ulpExponent_normal v e :
  (-1074 <= e)%Z -> (2 ^ (e + 52) <= v)%Q -> (v < 2 ^ (e + 53))%Q ->
  ulpExponent v = e.
Proof.
  intros He Hl Hu. unfold ulpExponent.
  assert (Hv : (0 < v)%Q) by (apply (Qlt_le_trans _ _ _ (pow2_pos (e + 52)) Hl)).
  destruct (log2Floor_spec v Hv) as [L1 L2].
  replace (e + 53)%Z with (e + 52 + 1)%Z in Hu by lia.
  rewrite (log2_unique v _ _ L1 L2 Hl Hu). lia.
Qed.

Lemma ulpExponent_bounds v p :
  (0 < v)%Q -> (v < 2 ^ p)%Q -> (-1074 <= p - 53)%Z ->
  (-1074 <= ulpExponent v <= p - 53)%Z.
Proof.
  intros Hv Hp Hmin. unfold ulpExponent.
  destruct (log2Floor_spec v Hv) as [L1 _].
  pose proof (pow2_lt_inv _ _ (Qle_lt_trans _ _ _ L1 Hp)). lia.
Qed.

(** Above 2^-1022 the value lies in the binade of its exponent. *)
Lemma ulpExponent_binade v :
  (2 ^ (-1022) <= v)%Q ->
  (2 ^ (ulpExponent v + 52) <= v /\ v < 2 ^ (ulpExponent v + 53))%Q.
Proof.
  intros Hmin.
  assert (Hv : (0 < v)%Q) by (apply (Qlt_le_trans _ _ _ (pow2_pos (-1022)) Hmin)).
  destruct (log2Floor_spec v Hv) as [L1 L2].
  pose proof (pow2_lt_inv _ _ (Qle_lt_trans _ _ _ Hmin L2)) as HL.
  unfold ulpExponent. rewrite Z.max_r by lia.
  replace (log2Floor v - 52 + 52)%Z with (log2Floor v) by lia.
  replace (log2Floor v - 52 + 53)%Z with (log2Floor v + 1)%Z by lia.
  split; assumption.
Qed.

Lemma ulpExponent_comp v v' :
  (v == v')%Q -> (0 < v)%Q -> ulpExponent v = ulpExponent v'.
Proof.
  intros E Hv. unfold ulpExponent. f_equal. f_equal.
  assert (Hv' : (0 < v')%Q) by (rewrite <- E; exact Hv).
  destruct (log2Floor_spec v Hv) as [L1 L2].
  destruct (log2Floor_spec v' Hv') as [L1' L2'].
  apply (log2_unique v _ _ L1 L2); rewrite E; assumption.
Qed.

Lemma Q2Qc_eq a b : (a == b)%Q -> Q2Qc a = Q2Qc b.
Proof. intros E. apply Qc_is_canon. simpl. rewrite !Qred_correct. exact E. Qed.

Lemma round64_comp neg a a' :
  (a == a')%Q -> (0 <= a)%Q -> round64 neg a = round64 neg a'.
Proof.
  intros E Ha. unfold round64. rewrite <- (Qeqb_comp _ _ E _ _ (Qeq_refl 0)).
  destruct (Qeq_bool a 0) eqn:Z0; [reflexivity |].
  assert (Hpos : (0 < a)%Q).
  { apply Qeq_bool_neq in Z0. destruct (Qle_lt_or_eq _ _ Ha) as [H|H];
      [exact H | destruct Z0; symmetry; exact H]. }
  rewrite <- (ulpExponent_comp a a' E Hpos).
  assert (E' : (a / 2 ^ ulpExponent a == a' / 2 ^ ulpExponent a)%Q)
    by (apply Qdiv_comp; [exact E | reflexivity]).
  rewrite <- (roundHalfEven_comp _ _ E'). reflexivity.
Qed.

(** The value with mantissa [m] nearest to [y / 2^e] in the binade of [e]. *)
Lemma round64_near neg y e m :
  (-1074 <= e)%Z -> (2 ^ (e + 52) <= y)%Q -> (y < 2 ^ (e + 53))%Q ->
  (inject_Z m - (1 # 2) < y / 2 ^ e)%Q -> (y / 2 ^ e < inject_Z m + (1 # 2))%Q ->
  (inject_Z m * 2 ^ e < 2 ^ 1024)%Q ->
  round64 neg y
  = Fin (Q2Qc (if neg then - (inject_Z m * 2 ^ e) else inject_Z m * 2 ^ e)).
Proof.
  intros He Hl Hu Hm1 Hm2 Hmax. unfold round64.
  assert (Hy : (0 < y)%Q) by (apply (Qlt_le_trans _ _ _ (pow2_pos (e + 52)) Hl)).
  assert (Z0 : Qeq_bool y 0 = false).
  { destruct (Qeq_bool y 0) eqn:B; [| reflexivity].
    apply Qeq_bool_eq in B. rewrite B in Hy. inversion Hy. }
  rewrite Z0, (ulpExponent_normal y e He Hl Hu).
  rewrite (roundHalfEven_unique _ m Hm1 Hm2).
  assert (Hov : Qle_bool (2 ^ 1024) (inject_Z m * 2 ^ e) = false).
  { destruct (Qle_bool (2 ^ 1024) (inject_Z m * 2 ^ e)) eqn:B; [| reflexivity].
    apply Qle_bool_iff in B. exfalso. exact (Qlt_not_le _ _ Hmax B). }
  rewrite Hov. reflexivity.
Qed.

Lemma pow2_scaled a e : (a / 2 ^ e * 2 ^ e == a)%Q.
Proof. field. intros E. pose proof (pow2_pos e) as P. rewrite E in P. inversion P. Qed.

Lemma pow2_div_le a e k : (2 ^ (e + k) <= a)%Q <-> (2 ^ k <= a / 2 ^ e)%Q.
Proof.
  pose proof (pow2_pos e) as P. rewrite pow2_plus. split; intros H.
  - apply (Qmult_le_r _ _ (2 ^ e) P). rewrite pow2_scaled.
    rewrite Qmult_comm. exact H.
  - apply (Qmult_le_r _ _ (2 ^ e) P) in H. rewrite pow2_scaled in H.
    rewrite Qmult_comm. exact H.
Qed.

Lemma pow2_div_lt a e k : (a < 2 ^ (e + k))%Q <-> (a / 2 ^ e < 2 ^ k)%Q.
Proof.
  pose proof (pow2_pos e) as P. rewrite pow2_plus. split; intros H.
  - apply (Qmult_lt_r _ _ (2 ^ e) P). rewrite pow2_scaled.
    rewrite Qmult_comm. exact H.
  - apply (Qmult_lt_r _ _ (2 ^ e) P) in H. rewrite pow2_scaled in H.
    rewrite Qmult_comm. exact H.
Qed.

Lemma Zle_half_Q (a b : Z) : (inject_Z a - (1 # 2) <= inject_Z b)%Q -> (a <= b)%Z.
Proof.
  intros H. assert (H' : (inject_Z (a - 1) < inject_Z b)%Q)
    by (rewrite inject_Z_minus; change (inject_Z 1) with 1%Q; lra).
  rewrite <- Zlt_Qlt in H'. lia.
Qed.

Lemma Zlt_half_Q (a b : Z) : (inject_Z a < inject_Z b + (1 # 2))%Q -> (a <= b)%Z.
Proof.
  intros H. assert (H' : (inject_Z a < inject_Z (b + 1))%Q)
    by (rewrite inject_Z_plus; change (inject_Z 1) with 1%Q; lra).
  rewrite <- Zlt_Qlt in H'. lia.
Qed.

(** In the normal range the result is a mantissa of 53 bits times the unit
    in the last place. *)
Lemma round64_normal neg a :
  (2 ^ (-1022) <= a)%Q -> (a < 2 ^ 1023)%Q ->
  (-1074 <= ulpExponent a <= 970)%Z
  /\ (2 ^ (ulpExponent a + 52) <= a /\ a < 2 ^ (ulpExponent a + 53))%Q
  /\ (2 ^ 52 <= roundHalfEven (a / 2 ^ ulpExponent a) <= 2 ^ 53)%Z
  /\ round64 neg a
     = Fin (Q2Qc (if neg
                  then - (inject_Z (roundHalfEven (a / 2 ^ ulpExponent a))
                          * 2 ^ ulpExponent a)
                  else inject_Z (roundHalfEven (a / 2 ^ ulpExponent a))
                       * 2 ^ ulpExponent a)).
Proof.
  intros Hmin Hmax.
  assert (Ha : (0 < a)%Q) by (apply (Qlt_le_trans _ _ _ (pow2_pos (-1022)) Hmin)).
  pose proof (ulpExponent_bounds a 1023 Ha Hmax ltac:(lia)) as He.
  destruct (ulpExponent_binade a Hmin) as [B1 B2].
  set (e := ulpExponent a) in *. set (x := (a / 2 ^ e)%Q).
  assert (X1 : (inject_Z (2 ^ 52) <= x)%Q)
    by (rewrite (pow2_Z 52) by lia; apply pow2_div_le; exact B1).
  assert (X2 : (x < inject_Z (2 ^ 53))%Q)
    by (rewrite (pow2_Z 53) by lia; apply pow2_div_lt; exact B2).
  destruct (roundHalfEven_bounds x) as [R1 R2].
  assert (M1 : (2 ^ 52 <= roundHalfEven x)%Z) by (apply Zle_half_Q; lra).
  assert (M2 : (roundHalfEven x <= 2 ^ 53)%Z) by (apply Zlt_half_Q; lra).
  split; [lia |]. split; [split; assumption |]. split; [split; assumption |].
  unfold round64. fold e. fold x.
  assert (Z0 : Qeq_bool a 0 = false).
  { destruct (Qeq_bool a 0) eqn:B; [| reflexivity].
    apply Qeq_bool_eq in B. rewrite B in Ha. inversion Ha. }
  rewrite Z0.
  assert (Hov : Qle_bool (2 ^ 1024) (inject_Z (roundHalfEven x) * 2 ^ e) = false).
  { destruct (Qle_bool (2 ^ 1024) (inject_Z (roundHalfEven x) * 2 ^ e)) eqn:B;
      [| reflexivity].
    apply Qle_bool_iff in B. exfalso.
    assert (Hm : (inject_Z (roundHalfEven x) <= 2 ^ 53)%Q)
      by (rewrite <- (pow2_Z 53) by lia; rewrite <- Zle_Qle; exact M2).
    assert (Hr : (inject_Z (roundHalfEven x) * 2 ^ e <= 2 ^ (e + 53))%Q).
    { rewrite pow2_plus, (Qmult_comm (2 ^ e)).
      apply Qmult_le_r; [apply pow2_pos | exact Hm]. }
    pose proof (pow2_le (e + 53) 1023 ltac:(lia)) as H1.
    pose proof (pow2_lt 1023 1024 ltac:(lia)) as H2.
    apply (Qlt_not_le _ _ H2). 
    apply (Qle_trans _ _ _ B). apply (Qle_trans _ _ _ Hr). exact H1. }
  rewrite Hov. reflexivity.
Qed.

(** An integer of at most 53 bits is a Number. *)
Lemma round64_integer neg z :
  (1 <= z <= 2 ^ 53)%Z ->
  round64 neg (inject_Z z)
  = Fin (Q2Qc (if neg then - inject_Z z else inject_Z z)).
Proof.
  intros Hz.
  destruct (Z.log2_spec z ltac:(lia)) as [L1 L2].
  pose proof (Z.log2_nonneg z) as L0.
  assert (L53 : (Z.log2 z <= 53)%Z).
  { rewrite <- (Z.log2_pow2 53) by lia. apply Z.log2_le_mono. lia. }
  set (L := Z.log2 z) in *.
  rewrite Zle_Qle, (pow2_Z L L0) in L1.
  rewrite Zlt_Qlt, (pow2_Z (Z.succ L)) in L2 by lia.
  assert (Hbig : (inject_Z z < 2 ^ 1024)%Q).
  { apply (Qle_lt_trans _ (2 ^ 53)).
    - rewrite <- (pow2_Z 53) by lia. rewrite <- Zle_Qle. lia.
    - apply pow2_lt. lia. }
  destruct (Z.eq_dec L 53%Z) as [E53|N53].
  - assert (Ez : z = (2 ^ 53)%Z).
    { rewrite E53 in L1. rewrite <- (pow2_Z 53) in L1 by lia.
      rewrite <- Zle_Qle in L1. lia. }
    assert (Em : (inject_Z (2 ^ 52) * 2 ^ 1 == inject_Z z)%Q)
      by (rewrite Ez; reflexivity).
    rewrite (round64_near neg (inject_Z z) 1 (2 ^ 52)).
    + f_equal. apply Q2Qc_eq. destruct neg; rewrite Em; reflexivity.
    + lia.
    + rewrite Ez. rewrite (pow2_Z 53) by lia. apply Qle_refl.
    + rewrite Ez. rewrite (pow2_Z 53) by lia. apply pow2_lt. lia.
    + rewrite Ez. vm_compute. reflexivity.
    + rewrite Ez. vm_compute. reflexivity.
    + rewrite Em. exact Hbig.
  - assert (HL : (L <= 52)%Z) by lia.
    set (k := (52 - L)%Z).
    assert (Ek : (2 ^ k * 2 ^ (L - 52) == 1)%Q).
    { rewrite <- pow2_plus. replace (k + (L - 52))%Z with 0%Z by (unfold k; lia).
      reflexivity. }
    assert (Em : (inject_Z (z * 2 ^ k) * 2 ^ (L - 52) == inject_Z z)%Q).
    { rewrite inject_Z_mult, (pow2_Z k) by (unfold k; lia).
      rewrite <- Qmult_assoc, Ek. ring. }
    assert (Ex : (inject_Z z / 2 ^ (L - 52) == inject_Z (z * 2 ^ k))%Q).
    { rewrite <- Em at 1. unfold Qdiv. rewrite <- Qmult_assoc, Qmult_inv_r.
      - ring.
      - intros E. pose proof (pow2_pos (L - 52)) as P. rewrite E in P. inversion P. }
    rewrite (round64_near neg (inject_Z z) (L - 52) (z * 2 ^ k)).
    + f_equal. apply Q2Qc_eq. destruct neg; rewrite Em; reflexivity.
    + lia.
    + replace (L - 52 + 52)%Z with L by lia. exact L1.
    + replace (L - 52 + 53)%Z with (Z.succ L) by lia. exact L2.
    + rewrite Ex. lra.
    + rewrite Ex. lra.
    + rewrite Em. exact Hbig.
Qed.

Lemma this_ofZ z : this (Q2Qc (inject_Z z)) = inject_Z z.
Proof. cbn [this Q2Qc]. apply Qred_identity. simpl. apply Z.gcd_1_r. Qed.


Lemma Qfloor_half m : Qfloor (inject_Z m + (1 # 2)) = m.
Proof. apply Qfloor_unique; lra. Qed.

Lemma quotient_Qmake n d :
  (0 < d)%Z -> (inject_Z n / inject_Z d == n # Z.to_pos d)%Q.
Proof.
  intros Hd. rewrite (Qmake_Qdiv n (Z.to_pos d)), Z2Pos.id by exact Hd. reflexivity.
Qed.

Lemma div_ofZ n d :
  (0 < d)%Z ->
  div (ofZ n) (ofZ d)
  = round64 (n <? 0)%Z (inject_Z (Z.abs n) / inject_Z d).
Proof.
  intros Hd. unfold div, ofZ.
  assert (E : Qc_eqb (Q2Qc (inject_Z d)) 0 = false).
  { unfold Qc_eqb. cbn [this Q2Qc].
    match goal with |- ?b = false => destruct b eqn:Q end; [| reflexivity].
    apply Qeq_bool_eq in Q. rewrite Qred_correct in Q.
    unfold Qeq in Q. simpl in Q. lia. }
  rewrite E. unfold roundQ. rewrite !this_ofZ.
  pose proof (quotient_Qmake n d Hd) as Hq.
  assert (Hs : negb (Qle_bool 0 (inject_Z n / inject_Z d)) = (n <? 0)%Z).
  { rewrite (Qleb_comp _ _ (Qeq_refl 0) _ _ Hq). unfold Qle_bool. cbn [Qnum Qden].
    rewrite Z.mul_1_r, Z.ltb_antisym. reflexivity. }
  rewrite Hs. apply round64_comp; [| apply Qabs_nonneg].
  rewrite (Qabs_wd _ _ Hq). rewrite (quotient_Qmake (Z.abs n) d Hd). reflexivity.
Qed.

Lemma round64_zero neg a : (a == 0)%Q -> round64 neg a = Fin 0.
Proof. intros E. unfold round64. rewrite (Qeq_eq_bool _ _ E). reflexivity. Qed.

(** Sign and magnitude of a signed rational. *)
Lemma signed_parts (neg : bool) (r : Q) :
  (0 < r)%Q ->
  Qc_ltb (Q2Qc (if neg then - r else r)) 0 = neg
  /\ (Qabs (this (Q2Qc (if neg then - r else r))) == r)%Q.
Proof.
  intros Hr. cbn [this Q2Qc]. split.
  - unfold Qc_ltb. cbn [this Q2Qc].
    rewrite (Qleb_comp _ _ (Qeq_refl _) _ _ (Qred_correct _)).
    change (Qred 0) with 0%Q. destruct neg.
    + apply negb_true_iff. destruct (Qle_bool 0 (- r)) eqn:B; [| reflexivity].
      apply Qle_bool_iff in B. lra.
    + apply negb_false_iff. apply Qle_bool_iff. lra.
  - rewrite (Qabs_wd _ _ (Qred_correct _)). destruct neg.
    + rewrite Qabs_opp. apply Qabs_pos. lra.
    + apply Qabs_pos. lra.
Qed.

Lemma nearestScaled_comp x y k : (x == y)%Q -> nearestScaled x k = nearestScaled y k.
Proof. intros E. unfold nearestScaled. apply Qfloor_comp. rewrite E. reflexivity. Qed.

Lemma nearestScaled_bounds x k :
  (inject_Z (nearestScaled x k) - (1 # 2) <= x * inject_Z (pow10 k)
   /\ x * inject_Z (pow10 k) < inject_Z (nearestScaled x k) + (1 # 2))%Q.
Proof.
  unfold nearestScaled.
  pose proof (Qfloor_le (x * inject_Z (pow10 k) + (1 # 2))) as Hl.
  pose proof (Qlt_floor (x * inject_Z (pow10 k) + (1 # 2))) as Hu.
  rewrite inject_Z_plus in Hu. change (inject_Z 1) with 1%Q in Hu. lra.
Qed.

Lemma nearestScaled_unique x k c :
  (inject_Z c - (1 # 2) <= x * inject_Z (pow10 k))%Q ->
  (x * inject_Z (pow10 k) < inject_Z c + (1 # 2))%Q ->
  nearestScaled x k = c.
Proof. intros Hl Hu. unfold nearestScaled. apply Qfloor_unique; lra. Qed.

Lemma nearestScaled_nonneg x k : (0 <= x)%Q -> (0 <= nearestScaled x k)%Z.
Proof.
  intros Hx. unfold nearestScaled. rewrite <- (Qfloor_Z 0). apply Qfloor_resp_le.
  assert (Hp : (0 < inject_Z (pow10 k))%Q)
    by (rewrite <- (Zlt_Qlt 0); apply pow10_pos).
  pose proof (Qmult_le_0_compat _ _ Hx (Qlt_le_weak _ _ Hp)). 
  change (inject_Z 0) with 0%Q. lra.
Qed.

(** toFixed of a finite value below 10^21: its sign, then the nearest
    multiple of 10^-f of its magnitude with exactly [f] decimals. *)
Lemma toFixed_Fin `{ShortestDigits} q k :
  (Qabs (this q) < inject_Z (10 ^ 21))%Q ->
  toFixed (Fin q) (S k)
  = (if Qc_ltb q 0 then "-" else EmptyString)
    +:+ scaledDecimal (nearestScaled (Qabs (this q)) (S k)) (S k).
Proof.
  intros Hbig. unfold toFixed. cbv zeta.
  assert (B : Qle_bool (inject_Z (10 ^ 21)) (Qabs (this q)) = false).
  { destruct (Qle_bool (inject_Z (10 ^ 21)) (Qabs (this q))) eqn:B; [| reflexivity].
    apply Qle_bool_iff in B. exfalso. exact (Qlt_not_le _ _ Hbig B). }
  rewrite B. f_equal.
  pose proof (nearestScaled_nonneg (Qabs (this q)) (S k) (Qabs_nonneg _)) as Hc.
  set (c := nearestScaled (Qabs (this q)) (S k)) in *.
  rewrite pointBefore_digits. unfold scaledDecimal.
  replace (c <? 0)%Z with false by (symmetry; apply Z.ltb_ge; exact Hc).
  rewrite Z.abs_eq by exact Hc. reflexivity.
Qed.

Lemma toFixed_signed `{ShortestDigits} (neg : bool) (r : Q) k :
  (0 < r)%Q -> (r < inject_Z (10 ^ 21))%Q ->
  toFixed (Fin (Q2Qc (if neg then - r else r))) (S k)
  = (if neg then "-" else EmptyString)
    +:+ scaledDecimal (nearestScaled r (S k)) (S k).
Proof.
  intros Hr Hbig. destruct (signed_parts neg r Hr) as [Hs Ha].
  rewrite toFixed_Fin by (rewrite Ha; exact Hbig).
  rewrite Hs, (nearestScaled_comp _ _ (S k) Ha). reflexivity.
Qed.

Lemma scaledDecimal_signed (neg : bool) c k :
  (1 <= c)%Z ->
  (if neg then "-" else EmptyString) +:+ scaledDecimal c k
  = scaledDecimal (if neg then - c else c)%Z k.
Proof.
  intros Hc. unfold scaledDecimal. destruct neg.
  - replace (- c <? 0)%Z with true by (symmetry; apply Z.ltb_lt; lia).
    replace (c <? 0)%Z with false by (symmetry; apply Z.ltb_ge; lia).
    rewrite Z.abs_opp. reflexivity.
  - reflexivity.
Qed.

Lemma round_error a e m :
  (inject_Z m - (1 # 2) <= a / 2 ^ e)%Q -> (a / 2 ^ e <= inject_Z m + (1 # 2))%Q ->
  (inject_Z m * 2 ^ e - (1 # 2) * 2 ^ e <= a
   /\ a <= inject_Z m * 2 ^ e + (1 # 2) * 2 ^ e)%Q.
Proof.
  intros H1 H2. pose proof (Qlt_le_weak _ _ (pow2_pos e)) as P.
  pose proof (Qmult_le_compat_r _ _ _ H1 P) as L.
  pose proof (Qmult_le_compat_r _ _ _ H2 P) as U.
  rewrite pow2_scaled in L, U. split; lra.
Qed.

Lemma Z_of_Q_bounds (c k : Z) :
  (inject_Z c - (1 # 2) <= inject_Z k)%Q -> (inject_Z k < inject_Z c + (1 # 2))%Q ->
  c = k.
Proof.
  intros H1 H2. pose proof (Zle_half_Q c k H1). 
  assert (k <= c)%Z by (apply Zlt_half_Q; exact H2). lia.
Qed.

Lemma pow2_below_1024 r : (r < inject_Z (10 ^ 21))%Q -> (r < 2 ^ 1024)%Q.
Proof.
  intros H. apply (Qlt_le_trans _ (2 ^ 70)).
  - apply (Qlt_le_trans _ _ _ H). apply Qle_bool_iff. vm_compute. reflexivity.
  - apply pow2_le. lia.
Qed.

(** The quotient of a positive safe integer by 1000, rounded. *)
Lemma quotient_rounded_3 (neg : bool) (n : Z) :
  (1 <= n <= MAX_SAFE_INTEGER)%Z ->
  exists r : Q,
    (0 < r)%Q /\ (r < inject_Z (10 ^ 21))%Q
    /\ round64 neg (inject_Z n / inject_Z (pow10 3))
       = Fin (Q2Qc (if neg then - r else r))
    /\ (1 <= nearestScaled r 3)%Z
    /\ ((n <= 2 ^ 52)%Z -> nearestScaled r 3 = n)
    /\ round64 neg (inject_Z (nearestScaled r 3) / inject_Z (pow10 3))
       = Fin (Q2Qc (if neg then - r else r)).
Proof.
  intros Hn. unfold MAX_SAFE_INTEGER in Hn.
  change (inject_Z (pow10 3)) with (inject_Z 1000).
  set (a := (inject_Z n / inject_Z 1000)%Q).
  assert (Ha : (a * 1000 == inject_Z n)%Q) by (unfold a; field).
  assert (N1 : (inject_Z 1 <= inject_Z n)%Q) by (rewrite <- Zle_Qle; lia).
  assert (N2 : (inject_Z n <= inject_Z 9007199254740991)%Q)
    by (rewrite <- Zle_Qle; lia).
  change (inject_Z 1) with 1%Q in N1.
  change (inject_Z 9007199254740991) with 9007199254740991%Q in N2.
  assert (E10 : (2 ^ (-10) == 1 # 1024)%Q) by reflexivity.
  assert (E9 : (2 ^ (-9) == 1 # 512)%Q) by reflexivity.
  assert (E44 : (2 ^ 44 == 17592186044416)%Q) by reflexivity.
  assert (E43 : (2 ^ 43 == 8796093022208)%Q) by reflexivity.
  assert (Hmin : (2 ^ (-1022) <= a)%Q).
  { apply (Qle_trans _ (2 ^ (-10))); [apply pow2_le; lia | lra]. }
  assert (H44 : (a < 2 ^ 44)%Q) by lra.
  assert (Hmax : (a < 2 ^ 1023)%Q).
  { apply (Qlt_le_trans _ _ _ H44). apply pow2_le. lia. }
  assert (Ha0 : (0 < a)%Q) by lra.
  destruct (round64_normal neg a Hmin Hmax) as (_ & [B1 B2] & [M1 M2] & Hr).
  pose proof (ulpExponent_bounds a 44 Ha0 H44 ltac:(lia)) as He.
  destruct (roundHalfEven_bounds (a / 2 ^ ulpExponent a)) as [R1 R2].
  remember (ulpExponent a) as e eqn:Ee.
  remember (roundHalfEven (a / 2 ^ e)) as m eqn:Em.
  destruct (round_error a e m R1 R2) as [A1 A2].
  remember (inject_Z m * 2 ^ e)%Q as r eqn:Er.
  pose proof (pow2_pos e) as Pu.
  assert (Hm1 : (inject_Z (2 ^ 52) <= inject_Z m)%Q) by (rewrite <- Zle_Qle; exact M1).
  assert (Hm2 : (inject_Z m <= inject_Z (2 ^ 53))%Q) by (rewrite <- Zle_Qle; exact M2).
  change (inject_Z (2 ^ 52)) with 4503599627370496%Q in Hm1.
  change (inject_Z (2 ^ 53)) with 9007199254740992%Q in Hm2.
  assert (Hu9 : (2 ^ e <= 1 # 512)%Q) by (rewrite <- E9; apply pow2_le; lia).
  assert (Hr0 : (0 < r)%Q).
  { rewrite Er. apply Qmult_lt_0_compat; [lra | exact Pu]. }
  assert (Hrbig : (r < inject_Z (10 ^ 21))%Q).
  { change (inject_Z (10 ^ 21)) with (1000000000000000000000 # 1)%Q. lra. }
  exists r. split; [exact Hr0 |]. split; [exact Hrbig |]. split; [exact Hr |].
  destruct (nearestScaled_bounds r 3) as [C1 C2].
  change (inject_Z (pow10 3)) with (1000 # 1)%Q in C1, C2.
  destruct (Z.eq_dec e (-9)%Z) as [E0|NE].
  - (* the unit in the last place is 2^-9, coarser than 10^-3 *)
    assert (Er' : (r == inject_Z m * (1 # 512))%Q) by (rewrite Er, E0, E9; reflexivity).
    rewrite E0 in B1, B2.
    replace (-9 + 52)%Z with 43%Z in B1 by lia.
    replace (-9 + 53)%Z with 44%Z in B2 by lia.
    remember (nearestScaled r 3) as c eqn:Ec.
    assert (Hc : (1 <= c)%Z).
    { apply Zle_half_Q. change (inject_Z 1) with 1%Q. lra. }
    split; [exact Hc |]. split.
    { intros Hsmall. exfalso.
      assert (Hq : (inject_Z n <= inject_Z (2 ^ 52))%Q)
        by (rewrite <- Zle_Qle; exact Hsmall).
      change (inject_Z (2 ^ 52)) with 4503599627370496%Q in Hq. lra. }
    assert (Hedge : forall R : Z,
              (1 <= R <= 2 ^ 53)%Z -> (r == inject_Z R)%Q ->
              round64 neg (inject_Z c / inject_Z 1000)
              = Fin (Q2Qc (if neg then - r else r))).
    { intros R HR ER.
      assert (Ec' : c = (R * 1000)%Z).
      { apply Z_of_Q_bounds; rewrite inject_Z_mult;
          change (inject_Z 1000) with 1000%Q; lra. }
      rewrite (round64_comp neg _ (inject_Z R)).
      - rewrite (round64_integer neg R HR). f_equal. apply Q2Qc_eq.
        destruct neg; rewrite ER; reflexivity.
      - rewrite Ec', inject_Z_mult. field.
      - apply Qle_shift_div_l; [reflexivity |].
        rewrite Qmult_0_l. rewrite <- (Zle_Qle 0). lia. }
    destruct (Z.eq_dec m (2 ^ 52)%Z) as [Elo|Nlo];
      [| destruct (Z.eq_dec m (2 ^ 53)%Z) as [Ehi|Nhi]].
    + apply (Hedge (2 ^ 43)%Z); [lia |]. rewrite Er', Elo. reflexivity.
    + apply (Hedge (2 ^ 44)%Z); [lia |]. rewrite Er', Ehi. reflexivity.
    + assert (Hm1' : (inject_Z (2 ^ 52 + 1) <= inject_Z m)%Q)
        by (rewrite <- Zle_Qle; lia).
      assert (Hm2' : (inject_Z m <= inject_Z (2 ^ 53 - 1))%Q)
        by (rewrite <- Zle_Qle; lia).
      change (inject_Z (2 ^ 52 + 1)) with 4503599627370497%Q in Hm1'.
      change (inject_Z (2 ^ 53 - 1)) with 9007199254740991%Q in Hm2'.
      set (y := (inject_Z c / inject_Z 1000)%Q).
      assert (Hy : (y * 1000 == inject_Z c)%Q) by (unfold y; field).
      assert (Ey : (y / 2 ^ (-9) == y * 512)%Q) by (rewrite E9; field).
      rewrite (round64_near neg y (-9) m).
      * rewrite Er, E0. reflexivity.
      * lia.
      * replace (-9 + 52)%Z with 43%Z by lia. lra.
      * replace (-9 + 53)%Z with 44%Z by lia. lra.
      * rewrite Ey. lra.
      * rewrite Ey. lra.
      * rewrite <- E0, <- Er. apply pow2_below_1024, Hrbig.
  - (* the unit in the last place is at most 2^-10, finer than 10^-3 *)
    assert (Hu10 : (2 ^ e <= 1 # 1024)%Q) by (rewrite <- E10; apply pow2_le; lia).
    assert (Ec : nearestScaled r 3 = n).
    { apply nearestScaled_unique; change (inject_Z (pow10 3)) with (1000 # 1)%Q; lra. }
    rewrite Ec. split; [lia |]. split; [reflexivity | exact Hr].
Qed.

(** The quotient of a positive safe integer by 100, rounded. *)
Lemma quotient_rounded_2 (neg : bool) (n : Z) :
  (1 <= n <= MAX_SAFE_INTEGER)%Z ->
  exists r : Q,
    (0 < r)%Q /\ (r < inject_Z (10 ^ 21))%Q
    /\ round64 neg (inject_Z n / inject_Z (pow10 2))
       = Fin (Q2Qc (if neg then - r else r))
    /\ (1 <= nearestScaled r 2)%Z
    /\ ((n <= 2 ^ 52)%Z -> nearestScaled r 2 = n)
    /\ round64 neg (inject_Z (nearestScaled r 2) / inject_Z (pow10 2))
       = Fin (Q2Qc (if neg then - r else r)).
Proof.
  intros Hn. unfold MAX_SAFE_INTEGER in Hn.
  change (inject_Z (pow10 2)) with (inject_Z 100).
  set (a := (inject_Z n / inject_Z 100)%Q).
  assert (Ha : (a * 100 == inject_Z n)%Q) by (unfold a; field).
  assert (N1 : (inject_Z 1 <= inject_Z n)%Q) by (rewrite <- Zle_Qle; lia).
  assert (N2 : (inject_Z n <= inject_Z 9007199254740991)%Q)
    by (rewrite <- Zle_Qle; lia).
  change (inject_Z 1) with 1%Q in N1.
  change (inject_Z 9007199254740991) with 9007199254740991%Q in N2.
  assert (E10 : (2 ^ (-7) == 1 # 128)%Q) by reflexivity.
  assert (E9 : (2 ^ (-6) == 1 # 64)%Q) by reflexivity.
  assert (E44 : (2 ^ 47 == 140737488355328)%Q) by reflexivity.
  assert (E43 : (2 ^ 46 == 70368744177664)%Q) by reflexivity.
  assert (Hmin : (2 ^ (-1022) <= a)%Q).
  { apply (Qle_trans _ (2 ^ (-7))); [apply pow2_le; lia | lra]. }
  assert (H44 : (a < 2 ^ 47)%Q) by lra.
  assert (Hmax : (a < 2 ^ 1023)%Q).
  { apply (Qlt_le_trans _ _ _ H44). apply pow2_le. lia. }
  assert (Ha0 : (0 < a)%Q) by lra.
  destruct (round64_normal neg a Hmin Hmax) as (_ & [B1 B2] & [M1 M2] & Hr).
  pose proof (ulpExponent_bounds a 47 Ha0 H44 ltac:(lia)) as He.
  destruct (roundHalfEven_bounds (a / 2 ^ ulpExponent a)) as [R1 R2].
  remember (ulpExponent a) as e eqn:Ee.
  remember (roundHalfEven (a / 2 ^ e)) as m eqn:Em.
  destruct (round_error a e m R1 R2) as [A1 A2].
  remember (inject_Z m * 2 ^ e)%Q as r eqn:Er.
  pose proof (pow2_pos e) as Pu.
  assert (Hm1 : (inject_Z (2 ^ 52) <= inject_Z m)%Q) by (rewrite <- Zle_Qle; exact M1).
  assert (Hm2 : (inject_Z m <= inject_Z (2 ^ 53))%Q) by (rewrite <- Zle_Qle; exact M2).
  change (inject_Z (2 ^ 52)) with 4503599627370496%Q in Hm1.
  change (inject_Z (2 ^ 53)) with 9007199254740992%Q in Hm2.
  assert (Hu9 : (2 ^ e <= 1 # 64)%Q) by (rewrite <- E9; apply pow2_le; lia).
  assert (Hr0 : (0 < r)%Q).
  { rewrite Er. apply Qmult_lt_0_compat; [lra | exact Pu]. }
  assert (Hrbig : (r < inject_Z (10 ^ 21))%Q).
  { change (inject_Z (10 ^ 21)) with (1000000000000000000000 # 1)%Q. lra. }
  exists r. split; [exact Hr0 |]. split; [exact Hrbig |]. split; [exact Hr |].
  destruct (nearestScaled_bounds r 2) as [C1 C2].
  change (inject_Z (pow10 2)) with (100 # 1)%Q in C1, C2.
  destruct (Z.eq_dec e (-6)%Z) as [E0|NE].
  - (* the unit in the last place is 2^-6, coarser than 10^-2 *)
    assert (Er' : (r == inject_Z m * (1 # 64))%Q) by (rewrite Er, E0, E9; reflexivity).
    rewrite E0 in B1, B2.
    replace (-6 + 52)%Z with 46%Z in B1 by lia.
    replace (-6 + 53)%Z with 47%Z in B2 by lia.
    remember (nearestScaled r 2) as c eqn:Ec.
    assert (Hc : (1 <= c)%Z).
    { apply Zle_half_Q. change (inject_Z 1) with 1%Q. lra. }
    split; [exact Hc |]. split.
    { intros Hsmall. exfalso.
      assert (Hq : (inject_Z n <= inject_Z (2 ^ 52))%Q)
        by (rewrite <- Zle_Qle; exact Hsmall).
      change (inject_Z (2 ^ 52)) with 4503599627370496%Q in Hq. lra. }
    assert (Hedge : forall R : Z,
              (1 <= R <= 2 ^ 53)%Z -> (r == inject_Z R)%Q ->
              round64 neg (inject_Z c / inject_Z 100)
              = Fin (Q2Qc (if neg then - r else r))).
    { intros R HR ER.
      assert (Ec' : c = (R * 100)%Z).
      { apply Z_of_Q_bounds; rewrite inject_Z_mult;
          change (inject_Z 100) with 100%Q; lra. }
      rewrite (round64_comp neg _ (inject_Z R)).
      - rewrite (round64_integer neg R HR). f_equal. apply Q2Qc_eq.
        destruct neg; rewrite ER; reflexivity.
      - rewrite Ec', inject_Z_mult. field.
      - apply Qle_shift_div_l; [reflexivity |].
        rewrite Qmult_0_l. rewrite <- (Zle_Qle 0). lia. }
    destruct (Z.eq_dec m (2 ^ 52)%Z) as [Elo|Nlo];
      [| destruct (Z.eq_dec m (2 ^ 53)%Z) as [Ehi|Nhi]].
    + apply (Hedge (2 ^ 46)%Z); [lia |]. rewrite Er', Elo. reflexivity.
    + apply (Hedge (2 ^ 47)%Z); [lia |]. rewrite Er', Ehi. reflexivity.
    + assert (Hm1' : (inject_Z (2 ^ 52 + 1) <= inject_Z m)%Q)
        by (rewrite <- Zle_Qle; lia).
      assert (Hm2' : (inject_Z m <= inject_Z (2 ^ 53 - 1))%Q)
        by (rewrite <- Zle_Qle; lia).
      change (inject_Z (2 ^ 52 + 1)) with 4503599627370497%Q in Hm1'.
      change (inject_Z (2 ^ 53 - 1)) with 9007199254740991%Q in Hm2'.
      set (y := (inject_Z c / inject_Z 100)%Q).
      assert (Hy : (y * 100 == inject_Z c)%Q) by (unfold y; field).
      assert (Ey : (y / 2 ^ (-6) == y * 64)%Q) by (rewrite E9; field).
      rewrite (round64_near neg y (-6) m).
      * rewrite Er, E0. reflexivity.
      * lia.
      * replace (-6 + 52)%Z with 46%Z by lia. lra.
      * replace (-6 + 53)%Z with 47%Z by lia. lra.
      * rewrite Ey. lra.
      * rewrite Ey. lra.
      * rewrite <- E0, <- Er. apply pow2_below_1024, Hrbig.
  - (* the unit in the last place is at most 2^-7, finer than 10^-2 *)
    assert (Hu10 : (2 ^ e <= 1 # 128)%Q) by (rewrite <- E10; apply pow2_le; lia).
    assert (Ec : nearestScaled r 2 = n).
    { apply nearestScaled_unique; change (inject_Z (pow10 2)) with (100 # 1)%Q; lra. }
    rewrite Ec. split; [lia |]. split; [reflexivity | exact Hr].
Qed.

(** The quotient of a positive safe integer by 100 or 1000: the Number [r]
    it rounds to prints, with as many decimals, as an integer of hundredths
    or thousandths that is at least 1, that is the dividend itself up to
    2^52, and whose own quotient rounds to [r] again. *)
Lemma quotient_rounded (neg : bool) (n : Z) (k : nat) :
  (1 <= n <= MAX_SAFE_INTEGER)%Z -> k = 2%nat \/ k = 3%nat ->
  exists r : Q,
    (0 < r)%Q /\ (r < inject_Z (10 ^ 21))%Q
    /\ round64 neg (inject_Z n / inject_Z (pow10 k))
       = Fin (Q2Qc (if neg then - r else r))
    /\ (1 <= nearestScaled r k)%Z
    /\ ((n <= 2 ^ 52)%Z -> nearestScaled r k = n)
    /\ round64 neg (inject_Z (nearestScaled r k) / inject_Z (pow10 k))
       = Fin (Q2Qc (if neg then - r else r)).
Proof.
  intros Hn [->| ->]; [apply quotient_rounded_2 | apply quotient_rounded_3]; exact Hn.
Qed.

Lemma signed_abs n : (if (n <? 0)%Z then - Z.abs n else Z.abs n)%Z = n.
Proof. destruct (n <? 0)%Z eqn:E; [apply Z.ltb_lt in E | apply Z.ltb_ge in E]; lia. Qed.

(** toFixed of an integer of magnitude up to 2^52 divided by 100 or 1000, to
    as many decimals: the exact decimal expansion, the rounding of the
    quotient to binary64 notwithstanding. *)
Lemma toFixed_scaled `{ShortestDigits} n k :
  (Z.abs n <= 2 ^ 52)%Z -> k = 2%nat \/ k = 3%nat ->
  toFixed (div (ofZ n) (ofZ (pow10 k))) k = scaledDecimal n k.
Proof.
  intros Hn Hk. rewrite (div_ofZ n _ (pow10_pos k)).
  destruct (Z.eq_dec n 0%Z) as [->|Hn0].
  - destruct Hk as [->| ->]; vm_compute; reflexivity.
  - destruct (quotient_rounded (n <? 0)%Z (Z.abs n) k) as (r & Hr0 & Hbig & Hr & Hc & Hsmall & _);
      [unfold MAX_SAFE_INTEGER; lia | exact Hk |].
    rewrite Hr. assert (Hk' : exists j, k = S j) by (destruct Hk as [->| ->]; eauto).
    destruct Hk' as [j ->].
    rewrite (toFixed_signed _ _ _ Hr0 Hbig), (Hsmall Hn).
    rewrite scaledDecimal_signed by lia. rewrite signed_abs. reflexivity.
Qed.


Lemma fixedLE_digits k n : Forall (fun d => (d < 10)%N) (fixedLE k n).
Proof.
  revert n. induction k as [|k IH]; intros n; simpl; constructor.
  - apply N.mod_lt. discriminate.
  - apply IH.
Qed.

Lemma digitChar_isDigit d : (d < 10)%N -> isDigit (digitChar d) = true.
Proof.
  intros Hd. unfold isDigit, digitChar.
  rewrite N_ascii_embedding by lia.
  apply andb_true_intro. split; apply N.leb_le; lia.
Qed.

(** [scaledDecimal n k] has exactly [k] decimals: after its point stand [k]
    characters, all of them digits. *)
Lemma scaledDecimal_places n k :
  exists whole frac,
    scaledDecimal n k = whole +:+ "." +:+ frac
    /\ String.length frac = k
    /\ Forall (fun c => isDigit c = true) (list_ascii_of_string frac).
Proof.
  unfold scaledDecimal.
  set (m := Z.to_N (Z.abs n)). set (p := (10 ^ N.of_nat k)%N).
  exists ((if (n <? 0)%Z then "-" else EmptyString) +:+ decimalDigits (m / p)).
  exists (stringOfLE (fixedLE k (m mod p))).
  split; [destruct (n <? 0)%Z; reflexivity |].
  split; [rewrite stringOfLE_length; apply fixedLE_length |].
  unfold stringOfLE. rewrite list_ascii_of_string_of_list_ascii.
  apply Forall_forall. intros c Hc.
  apply list_elem_of_In, in_map_iff in Hc as (d & <- & Hd).
  apply digitChar_isDigit. apply in_rev in Hd.
  pose proof (fixedLE_digits k (m mod p)) as Hall.
  rewrite Forall_forall in Hall. apply Hall, list_elem_of_In, Hd.
Qed.

(** Every quote a response leaves in the cache was built by [quoteOf] from
    one of its records. *)
Lemma receivedQuotes_quoteOf `{ShortestDigits} t stocks key q :
  receivedQuotes t (ResponseEnd (Json (DiffArray stocks))) !! key = Some q ->
  exists r, In (Some r) stocks /\ q = quoteOf t r /\ key = code q.
Proof.
  simpl.
  assert (G : forall m,
            fold_left (storeQuote t) stocks m !! key = Some q ->
            m !! key = Some q
            \/ exists r, In (Some r) stocks /\ q = quoteOf t r /\ key = code q).
  { induction stocks as [|item stocks IH]; simpl; intros m Hm; [left; exact Hm |].
    destruct (IH _ Hm) as [Hs|(r & Hin & Hq)]; [| right; exists r; tauto].
    destruct item as [r|]; simpl in Hs; [| left; exact Hs].
    apply lookup_insert_Some in Hs as [[Hk Hq]|[_ Hs]]; [| left; exact Hs].
    right. exists r. subst q. split; [left; reflexivity |].
    split; [reflexivity | symmetry; exact Hk]. }
  intros Hm. destruct (G ∅ Hm) as [He|Hr]; [| exact Hr].
  rewrite lookup_empty in He. discriminate.
Qed.



(** Up to 2^52 the strings are the decimal expansions of the quotients. *)
Example small_fields_exact_digits :
  current (@quoteOf examplePrinter "09:30:00" exampleHK) = "312.345"
  /\ change (@quoteOf examplePrinter "09:30:00" exampleHK) = "1.234"
  /\ previousClose (@quoteOf examplePrinter "09:30:00" exampleHK) = "311.111"
  /\ changePercent (@quoteOf examplePrinter "09:30:00" exampleHK) = "0.45"
  /\ current (@quoteOf examplePrinter "09:30:00" exampleIndex) = "3123.45"
  /\ change (@quoteOf examplePrinter "09:30:00" exampleIndex) = "-12.34"
  /\ previousClose (@quoteOf examplePrinter "09:30:00" exampleIndex) = "3135.79"
  /\ changePercent (@quoteOf examplePrinter "09:30:00" exampleIndex) = "-0.45".
Proof. vm_compute. repeat split. Qed.

(** Above 2^52 the rounding of the quotient can show in the last digit: the
    raw price 2^53 - 1 of a Hong Kong record prints as ...740.990, and the
    raw percentage 2^53 - 2 as ...409.91. *)
Example large_fields_last_digit :
  current (@quoteOf examplePrinter "09:30:00"
             (mkRawStock "00700" (ofZ 116) "腾讯控股"
                (ofZ 9007199254740991) (ofZ 9007199254740990) (ofZ 0) (ofZ 0)))
  = "9007199254740.990"
  /\ changePercent (@quoteOf examplePrinter "09:30:00"
                      (mkRawStock "00700" (ofZ 116) "腾讯控股"
                         (ofZ 9007199254740991) (ofZ 9007199254740990)
                         (ofZ 0) (ofZ 0)))
     = "90071992547409.91".
Proof. vm_compute. split; reflexivity. Qed.

(** ** The aggregate row, as displayed *)

Lemma signedFixed2_shows `{ShortestDigits} x : showsTotal x (signedFixed2 x).
Proof.
  destruct x as [|[|]|q]; try reflexivity.
  cbn [showsTotal]. intros Hbig.
  exists (nearestScaled (Qabs q) 2).
  destruct (nearestScaled_bounds (Qabs q) 2) as [C1 C2].
  change (inject_Z (pow10 2)) with 100%Q in C1, C2.
  split; [exact C1 |]. split; [exact C2 |].
  unfold signedFixed2. rewrite (toFixed_Fin q 1 Hbig).
  unfold ge0, Qc_leb, Qc_ltb. change (this 0%Qc) with 0%Q.
  destruct (Qle_bool 0 q); reflexivity.
Qed.

(** C4, as stated, fails on the code: the aggregate row is not always a
    number with two decimals.  With the holding [Infinity] (accepted by
    [loadStockCodes]) the row reads "+Infinity"; with a record whose change
    is NaN it reads "NaN", without a sign. *)
Lemma aggregate_row_not_two_decimals :
  isLoading (exampleCycle ["116.00700:Infinity"] [Some exampleHK]) = false
  /\ @getRootItems examplePrinter
       (exampleCycle ["116.00700:Infinity"] [Some exampleHK])
     = Normal
         [ newStockItem "腾讯控股" Collapsed (Some "312.345 ↑ 0.45% ［港］")
             (Some (mkThemeIcon "circle-filled" (Some "charts.purple")))
             (Some "116.00700") true;
           newStockItem "今日盈亏" StateNone (Some "+Infinity")
             (Some (mkThemeIcon "arrow-up" (Some "charts.red"))) None false;
           updateTimeRow "09:30:00" ]
  /\ isLoading (exampleCycle ["1.000001:100"] [Some exampleSuspended]) = false
  /\ @getRootItems examplePrinter
       (exampleCycle ["1.000001:100"] [Some exampleSuspended])
     = Normal
         [ newStockItem "上证指数" Collapsed (Some "NaN ↓ NaN%")
             (Some (mkThemeIcon "circle-filled" (Some "charts.green")))
             (Some "1.000001") true;
           newStockItem "今日盈亏" StateNone (Some "NaN")
             (Some (mkThemeIcon "arrow-down" (Some "charts.green"))) None false;
           updateTimeRow "09:30:00" ].
Proof. vm_compute. repeat split. Qed.

(** The total is a binary64 number.  For one share and the change 1.005
    the row reads "+1.00": the double nearest to 1.005 lies below it. *)
Example aggregate_row_rounds_in_binary :
  exists rows,
    @getRootItems examplePrinter
      (exampleCycle ["116.00700:1"]
         [Some (mkRawStock "00700" (ofZ 116) "腾讯控股"
                  (ofZ 312345) (ofZ 45) (ofZ 1005) (ofZ 311111))])
    = Normal rows
    /\ (description <$> rows !! 1%nat) = Some (Some "+1.00").
Proof. eexists. split; [vm_compute; reflexivity | reflexivity]. Qed.

(** C4, amended.  Once loading is over, the root list has the aggregate row
    exactly when at least one held instrument has a quote in the cache.  The
    row shows the sum, over the held instruments that have a quote and in the
    order of the holdings map, of change times shares, computed in binary64;
    a holding without a quote adds nothing.  A finite sum below 10^21 is
    shown as its sign, "+" when it is not negative, followed by its magnitude
    rounded to the nearest hundredth with exactly two decimals; a sum that is
    NaN is shown as "NaN" and an infinite one as "+Infinity" or
    "-Infinity". *)
Theorem aggregate_row_iff_held_quote `{ShortestDigits} (s : Provider) :
  isLoading s = false -> positiveHoldings s -> dottedKeys (stocksData s) ->
  exists items, getRootItems s = Normal items
    /\ ((exists it, In it items /\ isProfitLossRow it) <-> heldWithQuote s <> [])
    /\ (forall it, In it items -> isProfitLossRow it ->
          exists text, description it = Some text
            /\ showsTotal (profitLossSum s) text).
Proof.
  intros Hl Hpos Hd.
  destruct (getRootItems_shape s Hl Hd) as (rows & Hrows & G).
  rewrite (totalProfitLoss_spec s Hpos) in G. cbn [fst snd] in G.
  eexists. split; [exact G |].
  assert (Hnot : forall it, In it rows -> ~ isProfitLossRow it).
  { intros it Hin [_ Hr]. rewrite Forall_forall in Hrows.
    rewrite (Hrows it) in Hr; [discriminate |].
    apply list_elem_of_In. exact Hin. }
  assert (Htime : forall it,
            In it (if JSString.truthy (lastUpdateTime s)
                   then [updateTimeRow (lastUpdateTime s)] else []) ->
            ~ isProfitLossRow it).
  { intros it Hin [Hlab _]. destruct (JSString.truthy _); [| destruct Hin].
    destruct Hin as [<-|[]]. simpl in Hlab. discriminate. }
  split; [split |].
  - intros (it & Hin & Hit).
    apply in_app_or in Hin as [Hin|Hin]; [destruct (Hnot it Hin Hit) |].
    apply in_app_or in Hin as [Hin|Hin]; [| destruct (Htime it Hin Hit)].
    destruct (heldWithQuote s); [destruct Hin | discriminate].
  - intros Hne. exists (profitLossItem (profitLossSum s)).
    split; [| split; reflexivity].
    apply in_or_app. right. apply in_or_app. left.
    destruct (heldWithQuote s); [congruence | left; reflexivity].
  - intros it Hin Hit.
    apply in_app_or in Hin as [Hin|Hin]; [destruct (Hnot it Hin Hit) |].
    apply in_app_or in Hin as [Hin|Hin]; [| destruct (Htime it Hin Hit)].
    destruct (heldWithQuote s); [destruct Hin |].
    destruct Hin as [<-|[]]. exists (signedFixed2 (profitLossSum s)).
    split; [reflexivity | apply signedFixed2_shows].
Qed.

Lemma aggregate_row_iff_held_quote_witness :
  exists items, @getRootItems examplePrinter exampleLoaded = Normal items
    /\ ((exists it, In it items /\ isProfitLossRow it)
        <-> heldWithQuote exampleLoaded <> [])
    /\ (forall it, In it items -> isProfitLossRow it ->
          exists text, description it = Some text
            /\ showsTotal (profitLossSum exampleLoaded) text).
Proof.
  apply (@aggregate_row_iff_held_quote examplePrinter).
  - reflexivity.
  - intros c v Hin. apply (exampleLoaded_invariant c v Hin).
  - exact exampleLoaded_dottedKeys.
Defined.

(** ** The hypotheses of the root-list statements are invariants of the engine *)

Lemma dottedKeys_empty : dottedKeys ∅.
Proof. intros k q E. rewrite lookup_empty in E. discriminate. Qed.

Lemma fold_storeQuote_dottedKeys `{ShortestDigits} t stocks m :
  dottedKeys m -> dottedKeys (fold_left (storeQuote t) stocks m).
Proof.
  revert m. induction stocks as [|x stocks IH]; simpl; intros m Hm; [exact Hm |].
  apply IH, storeQuote_dottedKeys, Hm.
Qed.

Lemma startFetch_dottedKeys now cfg reqs s :
  dottedKeys (stocksData s) ->
  dottedKeys (stocksData (provider (startFetch now cfg reqs s))).
Proof.
  intros Hs. unfold startFetch, fetchAllStockData.
  destruct (length (stockCodeList s) =? 0)%nat; simpl;
    [exact Hs | exact dottedKeys_empty].
Qed.

Lemma respond_dottedKeys `{ShortestDigits} req r s s' :
  dottedKeys (stocksData s) -> respond req r s = Normal s' ->
  dottedKeys (stocksData s').
Proof.
  intros Hs. destruct r as [|[|[| |stocks]]]; simpl; unfold onEnd, onError; simpl;
    intros E; inversion E; subst; simpl; try exact Hs.
  apply fold_storeQuote_dottedKeys, Hs.
Qed.

Lemma step_dottedKeys `{ShortestDigits} e e' :
  dottedKeys (stocksData (provider e)) -> step e e' ->
  dottedKeys (stocksData (provider e')).
Proof.
  intros He Hstep. destruct Hstep.
  - unfold refresh. apply startFetch_dottedKeys.
    destruct (loadStockCodes_frame (settings e) (provider e)) as [-> _]. exact He.
  - unfold tick. apply startFetch_dottedKeys, He.
  - unfold refresh. apply startFetch_dottedKeys. cbn [settings provider].
    destruct (loadStockCodes_frame cfg (provider e)) as [-> _]. exact He.
  - unfold updateHoldingShares, refresh. apply startFetch_dottedKeys.
    cbn [settings provider].
    match goal with |- context [loadStockCodes ?c ?p] =>
      destruct (loadStockCodes_frame c p) as [-> _] end.
    exact He.
  - simpl. eapply respond_dottedKeys; eassumption.
Qed.

Lemma construct_invariants now cfg :
  holdingsInvariant (provider (construct now cfg))
  /\ dottedKeys (stocksData (provider (construct now cfg))).
Proof.
  unfold construct, refresh. cbn [settings provider inflight]. split.
  - apply startFetch_invariant, loadStockCodes_invariant.
  - apply startFetch_dottedKeys.
    destruct (loadStockCodes_frame cfg initialProvider) as [-> _].
    exact dottedKeys_empty.
Qed.

Lemma holdingsInvariant_positive s : holdingsInvariant s -> positiveHoldings s.
Proof. intros Hs c v Hin. exact (proj2 (Hs c v Hin)). Qed.

(** ** The examples of the specification, run on the code *)

Example parse_holding_examples :
  (let s := loadStockCodes ["1.000001:10"] initialProvider in
   stockCodeList s = ["1.000001"] /\ holdingShares s = [("1.000001", ofZ 10)])
  /\ (let s := loadStockCodes ["1.000001:-5"] initialProvider in
      stockCodeList s = ["1.000001"] /\ holdingShares s = [])
  /\ (let s := loadStockCodes ["1.000001:abc"] initialProvider in
      stockCodeList s = ["1.000001"] /\ holdingShares s = [])
  /\ (let s := loadStockCodes ["1.000001:0"] initialProvider in
      stockCodeList s = ["1.000001"] /\ holdingShares s = [])
  /\ (let s := loadStockCodes ["0.300750"; "1.000001:7:9"; "0.300750: 2.5e1 "]
                 initialProvider in
      stockCodeList s = ["0.300750"; "1.000001"; "0.300750"]
      /\ holdingShares s = [("1.000001", ofZ 7); ("0.300750", ofZ 25)]).
Proof.
  vm_compute.
  repeat split; repeat (f_equal; try (apply Qc_is_canon; reflexivity)).
Qed.

Example update_holding_examples :
  @rewriteEntries examplePrinter ["X:7"] "X" (ofZ 0) = ["X"]
  /\ @rewriteEntries examplePrinter ["X:7"] "X" (ofZ 12) = ["X:12"]
  /\ @rewriteEntries examplePrinter ["X"] "X" (ofZ 12) = ["X:12"]
  /\ @rewriteEntries examplePrinter ["Y:3"] "X" (ofZ 12) = ["Y:3"; "X:12"]
  /\ @rewriteEntries examplePrinter ["Y:3"] "X" (ofZ 0) = ["Y:3"].
Proof. vm_compute. repeat split. Qed.

Example end_to_end_example :
  @getRootItems examplePrinter exampleLoaded
  = Normal
      [ newStockItem "上证指数" Collapsed (Some "3123.45 ↓ -0.45%")
          (Some (mkThemeIcon "circle-filled" (Some "charts.green")))
          (Some "1.000001") true;
        newStockItem "腾讯控股" Collapsed (Some "312.345 ↑ 0.45% ［港］")
          (Some (mkThemeIcon "circle-filled" (Some "charts.purple")))
          (Some "116.00700") true;
        @profitLossItem examplePrinter (mul (div (ofZ 1234) (ofZ 1000)) (ofZ 100));
        updateTimeRow "09:30:00" ]
  /\ description
       (@profitLossItem examplePrinter (mul (div (ofZ 1234) (ofZ 1000)) (ofZ 100)))
     = Some "+123.40".
Proof. vm_compute. repeat split. Qed.

(** * Further properties *)

(** ** More on strings *)

Lemma trimEnd_idempotent s :
  JSString.trimEnd (JSString.trimEnd s) = JSString.trimEnd s.
Proof.
  induction s as [|c r IH]; [reflexivity |].
  cbn [JSString.trimEnd].
  destruct (JSString.trimEnd r) as [|d t] eqn:T.
  - destruct (JSString.isWhiteSpace c) eqn:W; [reflexivity |].
    cbn [JSString.trimEnd]. rewrite W. reflexivity.
  - cbn [JSString.trimEnd] in *. rewrite IH. reflexivity.
Qed.

Lemma trim_idempotent s : JSString.trim (JSString.trim s) = JSString.trim s.
Proof.
  unfold JSString.trim.
  rewrite (trimStart_trimEnd (JSString.trimStart s)).
  rewrite trimStart_idempotent, trimEnd_idempotent. reflexivity.
Qed.

Lemma trimEnd_contains sep s :
  JSString.contains sep (JSString.trimEnd s) -> JSString.contains sep s.
Proof.
  unfold JSString.contains. induction s as [|c r IH]; [tauto |].
  cbn [JSString.trimEnd].
  destruct (JSString.trimEnd r) as [|d t].
  - destruct (JSString.isWhiteSpace c); simpl; tauto.
  - simpl in *. tauto.
Qed.

Lemma trim_contains sep s :
  JSString.contains sep (JSString.trim s) -> JSString.contains sep s.
Proof. intros H. apply trimStart_contains, trimEnd_contains, H. Qed.

Lemma firstSegment_no_colon s : ~ JSString.contains ":" (firstSegment s).
Proof.
  unfold JSString.contains. induction s as [|c r IH]; [intros [] |].
  rewrite firstSegment_cons. destruct (Ascii.eqb c ":") eqn:E; [intros [] |].
  simpl. intros [Hc|Hin]; [| exact (IH Hin)].
  apply Ascii.eqb_neq in E. congruence.
Qed.

Lemma split_without_sep sep s :
  ~ JSString.contains sep s -> JSString.split sep s = [s].
Proof.
  unfold JSString.contains. induction s as [|c r IH]; [reflexivity |].
  simpl. intros Hn. destruct (Ascii.eqb c sep) eqn:E.
  - apply Ascii.eqb_eq in E. destruct Hn. left. exact E.
  - rewrite IH; [reflexivity |]. intros Hin. apply Hn. right. exact Hin.
Qed.

Lemma entryCode_firstSegment entry :
  entryCode entry = JSString.trim (firstSegment (JSString.trim entry)).
Proof. reflexivity. Qed.

Lemma entryCode_clean entry : listedEntry entry = true -> cleanCode (entryCode entry).
Proof.
  unfold listedEntry. intros Ht. split; [| split].
  - destruct (entryCode entry); [discriminate | discriminate].
  - rewrite entryCode_firstSegment. intros Hc.
    apply trim_contains in Hc. exact (firstSegment_no_colon _ Hc).
  - rewrite entryCode_firstSegment. apply trim_idempotent.
Qed.

(** ** The registry as a function of the setting *)

Lemma isBlank_length entry :
  (0 <? String.length (JSString.trim entry))%nat = negb (isBlank entry).
Proof. unfold isBlank. destruct (JSString.trim entry); reflexivity. Qed.

Lemma blank_not_listed entry : isBlank entry = true -> listedEntry entry = false.
Proof.
  unfold isBlank, listedEntry, entryCode.
  destruct (JSString.trim entry); [reflexivity | discriminate].
Qed.

Lemma parseEntry_entry codes h entry :
  parseEntry (codes, h) (JSString.trim entry)
  = if listedEntry entry
    then (codes ++ [entryCode entry],
          match entryShares entry with
          | Some v => JSMap.set (entryCode entry) v h
          | None => h
          end)
    else (codes, h).
Proof.
  unfold parseEntry, listedEntry, entryShares, entryCode, accepted.
  destruct (JSString.truthy _); [| reflexivity].
  destruct (nth_error _ 1); [| reflexivity].
  destruct (negb _ && _); reflexivity.
Qed.

(** The holdings map the loop builds from the setting. *)
Lemma fold_parseEntry_registry l codes h :
  fold_left parseEntry
    (List.filter (fun c => (0 <? String.length c)%nat) (map JSString.trim l))
    (codes, h)
  = (codes ++ configuredCodes l,
     fold_left
       (fun h entry =>
          if listedEntry entry
          then match entryShares entry with
               | Some v => JSMap.set (entryCode entry) v h
               | None => h
               end
          else h) l h).
Proof.
  revert codes h. induction l as [|entry l IH]; intros codes h.
  - simpl. rewrite app_nil_r. reflexivity.
  - cbn [map List.filter fold_left]. rewrite isBlank_length.
    unfold configuredCodes. cbn [List.filter].
    destruct (isBlank entry) eqn:B; cbn [negb].
    + rewrite (blank_not_listed entry B). apply IH.
    + cbn [fold_left]. rewrite parseEntry_entry.
      destruct (listedEntry entry); rewrite IH; [| reflexivity].
      unfold configuredCodes. cbn [map]. rewrite <- app_assoc. reflexivity.
Qed.

Lemma hasEntries_length l :
  (0 <? length (List.filter (fun c => (0 <? String.length c)%nat)
                  (map JSString.trim l)))%nat = hasEntries l.
Proof.
  induction l as [|entry l IH]; [reflexivity |].
  cbn [map List.filter hasEntries existsb]. rewrite isBlank_length.
  destruct (isBlank entry); cbn [negb orb]; [exact IH | reflexivity].
Qed.

Lemma loadStockCodes_registry_spec cfg s :
  stockCodeList (loadStockCodes cfg s)
    = (if hasEntries cfg then configuredCodes cfg else ["1.000001"])
  /\ holdingShares (loadStockCodes cfg s)
    = fold_left
        (fun h entry =>
           if listedEntry entry
           then match entryShares entry with
                | Some v => JSMap.set (entryCode entry) v h
                | None => h
                end
           else h) cfg JSMap.empty.
Proof.
  unfold loadStockCodes. rewrite hasEntries_length.
  destruct cfg as [|e0 cfg0]; [split; reflexivity |].
  change (0 <? length (e0 :: cfg0))%nat with true. cbv iota.
  set (cfg := e0 :: cfg0).
  cbn [holdingShares]. rewrite fold_parseEntry_registry.
  destruct (hasEntries cfg) eqn:E; cbn [stockCodeList holdingShares app];
    [split; reflexivity |].
  split; [reflexivity |].
  assert (G : forall l h, hasEntries l = false ->
            fold_left
              (fun h entry =>
                 if listedEntry entry
                 then match entryShares entry with
                      | Some v => JSMap.set (entryCode entry) v h
                      | None => h
                      end
                 else h) l h = h).
  { induction l as [|x l IH]; intros h Hl; [reflexivity |].
    cbn [hasEntries existsb] in Hl. apply orb_false_elim in Hl as [Hx Hl].
    apply negb_false_iff in Hx. cbn [fold_left].
    rewrite (blank_not_listed x Hx). apply IH, Hl. }
  rewrite (G cfg _ E). reflexivity.
Qed.

Lemma registry_codes cfg s :
  stockCodeList (loadStockCodes cfg s)
  = if hasEntries cfg then configuredCodes cfg else ["1.000001"].
Proof. apply loadStockCodes_registry_spec. Qed.

(** X1.  The instrument list after a reload is the list of the codes of the
    entries that have one, in the order of the setting and with repetitions
    kept, as soon as some entry is not blank; it is the default index
    otherwise. *)
Theorem loadStockCodes_keeps_order (cfg : list string) (s : Provider) :
  stockCodeList (loadStockCodes cfg s)
  = if hasEntries cfg then configuredCodes cfg else ["1.000001"].
Proof. apply loadStockCodes_registry_spec. Qed.

Lemma registry_codes_clean cfg s c :
  In c (stockCodeList (loadStockCodes cfg s)) -> cleanCode c.
Proof.
  rewrite (proj1 (loadStockCodes_registry_spec cfg s)).
  destruct (hasEntries cfg).
  - unfold configuredCodes. intros Hin.
    apply in_map_iff in Hin as (entry & <- & Hentry).
    apply filter_In in Hentry as [_ Hl]. apply entryCode_clean, Hl.
  - intros [<-|[]]. split; [discriminate |]. split; [| reflexivity].
    unfold JSString.contains. simpl. intuition discriminate.
Qed.

(** X2.  Every code of the instrument list after a reload is not empty, has
    no colon, and has no white space around it. *)
Theorem loaded_codes_are_clean (cfg : list string) (s : Provider) (c : string) :
  In c (stockCodeList (loadStockCodes cfg s)) -> cleanCode c.
Proof. apply registry_codes_clean. Qed.

Lemma loaded_codes_are_clean_witness : cleanCode "116.00700".
Proof.
  apply (loaded_codes_are_clean [" 116.00700 : 100 "] initialProvider).
  left. reflexivity.
Defined.

Lemma JSMap_get_set {V} (k c : string) (v : V) (m : JSMap.t V) :
  JSMap.get c (JSMap.set k v m) = if String.eqb k c then Some v else JSMap.get c m.
Proof.
  induction m as [|[k' v'] m IH]; [reflexivity |].
  cbn [JSMap.set]. destruct (String.eqb k' k) eqn:E.
  - apply String.eqb_eq in E. subst k'. cbn [JSMap.get].
    destruct (String.eqb k c); reflexivity.
  - cbn [JSMap.get]. rewrite IH.
    destruct (String.eqb k' c) eqn:E'; [| reflexivity].
    apply String.eqb_eq in E'. subst k'.
    rewrite String.eqb_sym, E. reflexivity.
Qed.

(** X3.  The holdings map after a reload gives a code the accepted share
    count of the last entry for that code that carries one: a later entry
    for the code without an annotation, or with a rejected one, leaves the
    earlier holding in place. *)
Theorem holding_is_last_accepted (cfg : list string) (s : Provider) (c : string) :
  JSMap.get c (holdingShares (loadStockCodes cfg s)) = configuredHolding cfg c.
Proof.
  rewrite (proj2 (loadStockCodes_registry_spec cfg s)).
  unfold configuredHolding.
  change (@None number) with (JSMap.get c (@JSMap.empty number)).
  generalize (@JSMap.empty number).
  induction cfg as [|entry cfg IH]; intros h; [reflexivity |].
  cbn [fold_left]. rewrite IH. f_equal.
  destruct (listedEntry entry); [| reflexivity].
  destruct (entryShares entry) as [v|].
  - rewrite JSMap_get_set. destruct (String.eqb (entryCode entry) c); reflexivity.
  - destruct (String.eqb (entryCode entry) c); reflexivity.
Qed.

(** ** Digits read back *)

Lemma digitValue_digitChar d : (d < 10)%N -> digitValue (digitChar d) = d.
Proof.
  intros Hd. unfold digitValue, digitChar. rewrite N_ascii_embedding by lia. lia.
Qed.

Lemma valueOfDigits_from ds acc :
  fold_left (fun acc c => (acc * 10 + digitValue c)%N) ds acc
  = (acc * 10 ^ N.of_nat (length ds) + valueOfDigits ds)%N.
Proof.
  unfold valueOfDigits. revert acc.
  induction ds as [|c ds IH]; intros acc.
  - simpl. lia.
  - cbn [fold_left length]. rewrite IH, (IH (0 * 10 + digitValue c)%N).
    rewrite Nat2N.inj_succ, N.pow_succ_r'. lia.
Qed.

Lemma valueOfDigits_app l1 l2 :
  valueOfDigits (l1 ++ l2)
  = (valueOfDigits l1 * 10 ^ N.of_nat (length l2) + valueOfDigits l2)%N.
Proof.
  unfold valueOfDigits at 1. rewrite fold_left_app.
  fold (valueOfDigits l1). apply valueOfDigits_from.
Qed.

Lemma valueOfDigits_LE l :
  Forall (fun d => (d < 10)%N) l ->
  valueOfDigits (map digitChar (rev l)) = valueLE l.
Proof.
  induction 1 as [|d l Hd Hl IH]; [reflexivity |].
  cbn [rev valueLE fold_right]. rewrite map_app, valueOfDigits_app, IH.
  cbn [map length]. unfold valueOfDigits at 1. cbn [fold_left].
  rewrite (digitValue_digitChar d Hd). fold (valueLE l).
  change (10 ^ N.of_nat 1)%N with 10%N. lia.
Qed.

Lemma digitsLE_value n :
  valueLE (digitsLE (S (N.to_nat (N.size n))) n) = n
  /\ Forall (fun d => (d < 10)%N) (digitsLE (S (N.to_nat (N.size n))) n).
Proof.
  induction n as [n IH] using (well_founded_induction N.lt_wf_0).
  rewrite digitsLE_unfold. destruct (n <? 10)%N eqn:E.
  - apply N.ltb_lt in E. split; [simpl; lia | repeat constructor; exact E].
  - apply N.ltb_ge in E.
    assert (Hlt : (n / 10 < n)%N) by (apply N.div_lt; lia).
    destruct (IH _ Hlt) as [Hv Hd]. split.
    + cbn [valueLE fold_right]. fold (valueLE (digitsLE (S (N.to_nat (N.size (n / 10)))) (n / 10))).
      rewrite Hv. pose proof (N.div_mod n 10). lia.
    + constructor; [apply N.mod_lt; discriminate | exact Hd].
Qed.

Lemma fixedLE_value k n : valueLE (fixedLE k n) = (n mod 10 ^ N.of_nat k)%N.
Proof.
  revert n. induction k as [|k IH]; intros n.
  - simpl. rewrite N.mod_1_r. reflexivity.
  - cbn [fixedLE valueLE fold_right]. fold (valueLE (fixedLE k (n / 10))).
    rewrite IH, Nat2N.inj_succ, N.pow_succ_r'.
    rewrite (N.Div0.mod_mul_r n 10). lia.
Qed.

Lemma stringOfLE_chars l : list_ascii_of_string (stringOfLE l) = map digitChar (rev l).
Proof. unfold stringOfLE. apply list_ascii_of_string_of_list_ascii. Qed.

Lemma stringOfLE_allDigits l :
  Forall (fun d => (d < 10)%N) l -> allDigits (stringOfLE l).
Proof.
  intros Hl. unfold allDigits. rewrite stringOfLE_chars.
  apply Forall_forall. intros c Hc.
  apply list_elem_of_In, in_map_iff in Hc as (d & <- & Hd).
  apply digitChar_isDigit. rewrite Forall_forall in Hl.
  apply Hl, list_elem_of_In, in_rev, Hd.
Qed.

Lemma decimalDigits_allDigits n : allDigits (decimalDigits n).
Proof. apply stringOfLE_allDigits, digitsLE_value. Qed.

Lemma decimalDigits_value n :
  valueOfDigits (list_ascii_of_string (decimalDigits n)) = n.
Proof.
  unfold decimalDigits. rewrite stringOfLE_chars.
  rewrite valueOfDigits_LE by apply digitsLE_value. apply digitsLE_value.
Qed.

Lemma decimalDigits_nonempty n : decimalDigits n <> EmptyString.
Proof.
  intros E. pose proof (stringOfLE_length (digitsLE (S (N.to_nat (N.size n))) n)) as L.
  fold (decimalDigits n) in L. rewrite E in L.
  pose proof (digitsLE_length_pos n). change (String.length EmptyString) with 0%nat in L. lia.
Qed.

(** What a digit is not. *)
Lemma digit_facts c :
  isDigit c = true ->
  JSString.isWhiteSpace c = false
  /\ Ascii.eqb c ":" = false /\ Ascii.eqb c "." = false
  /\ Ascii.eqb c "e" = false /\ Ascii.eqb c "E" = false
  /\ Ascii.eqb c "I" = false
  /\ c <> "-"%char /\ c <> "+"%char.
Proof.
  destruct c as [[] [] [] [] [] [] [] []]; vm_compute; intros Hd;
    try discriminate; repeat split; discriminate.
Qed.

Lemma allDigits_cons c s : allDigits (String c s) -> isDigit c = true /\ allDigits s.
Proof. unfold allDigits. simpl. intros H. inversion H; subst. split; assumption. Qed.

Lemma allDigits_no_char sep s :
  (forall c, isDigit c = true -> Ascii.eqb c sep = false) ->
  allDigits s -> ~ JSString.contains sep s.
Proof.
  intros Hsep. unfold JSString.contains.
  induction s as [|c s IH]; intros Hs; [intros [] |].
  apply allDigits_cons in Hs as [Hc Hs]. simpl. intros [E|Hin].
  - specialize (Hsep c Hc). apply Ascii.eqb_neq in Hsep. congruence.
  - exact (IH Hs Hin).
Qed.

Lemma allDigits_trimEnd s : allDigits s -> JSString.trimEnd s = s.
Proof.
  induction s as [|c s IH]; [reflexivity |]. intros Hs.
  apply allDigits_cons in Hs as [Hc Hs]. cbn [JSString.trimEnd].
  rewrite (IH Hs). destruct s; [| reflexivity].
  rewrite (proj1 (digit_facts c Hc)). reflexivity.
Qed.

Lemma allDigits_trim s : allDigits s -> JSString.trim s = s.
Proof.
  intros Hs. unfold JSString.trim. destruct s as [|c s]; [reflexivity |].
  pose proof (allDigits_cons _ _ Hs) as [Hc _].
  cbn [JSString.trimStart]. rewrite (proj1 (digit_facts c Hc)).
  apply allDigits_trimEnd, Hs.
Qed.

Lemma spanDigits_allDigits s rest :
  allDigits s ->
  spanDigits (s +:+ rest)
  = (list_ascii_of_string s ++ fst (spanDigits rest), snd (spanDigits rest)).
Proof.
  induction s as [|c s IH]; intros Hs.
  - change (EmptyString +:+ rest) with rest. destruct (spanDigits rest); reflexivity.
  - apply allDigits_cons in Hs as [Hc Hs].
    change (String c s +:+ rest) with (String c (s +:+ rest)). cbn [spanDigits].
    rewrite Hc, (IH Hs). reflexivity.
Qed.

Lemma append_empty_r s : s +:+ EmptyString = s.
Proof.
  induction s as [|c s IH]; [reflexivity |].
  change (String c s +:+ EmptyString) with (String c (s +:+ EmptyString)).
  rewrite IH. reflexivity.
Qed.

Lemma spanDigits_whole s :
  allDigits s -> spanDigits s = (list_ascii_of_string s, EmptyString).
Proof.
  intros Hs. pose proof (spanDigits_allDigits s EmptyString Hs) as E.
  rewrite append_empty_r in E. rewrite E. simpl. rewrite app_nil_r. reflexivity.
Qed.

(** ** Numbers read back *)

(** The decimal [|n| * 10^-k] with the sign of [n], read by [roundDecimal],
    is the Number [n / 10^k]: the same real, rounded the same way. *)
Lemma roundDecimal_scaled n k :
  roundDecimal (n <? 0)%Z (Z.to_N (Z.abs n)) (- Z.of_nat k)
  = div (ofZ n) (ofZ (pow10 k)).
Proof.
  pose proof (pow10_pos k) as Hp. rewrite (div_ofZ n _ Hp). unfold roundDecimal.
  assert (Hp0 : (0 < inject_Z (pow10 k))%Q) by (rewrite <- (Zlt_Qlt 0); exact Hp).
  destruct (Z.to_N (Z.abs n) =? 0)%N eqn:E0.
  - apply N.eqb_eq in E0. assert (n = 0%Z) by lia. subst n.
    symmetry. apply round64_zero. unfold Qdiv. apply Qmult_0_l.
  - assert (Hv : (scale10 (Z.to_N (Z.abs n)) (- Z.of_nat k)
                  == inject_Z (Z.abs n) / inject_Z (pow10 k))%Q).
    { unfold scale10. rewrite Z2N.id by lia. destruct (0 <=? - Z.of_nat k)%Z eqn:Ek.
      - apply Z.leb_le in Ek. assert (k = 0%nat) by lia. subst k.
        change (- Z.of_nat 0)%Z with 0%Z. change (pow10 0) with 1%Z.
        rewrite Z.pow_0_r, Z.mul_1_r. unfold Qdiv. change (/ inject_Z 1)%Q with 1%Q.
        rewrite Qmult_1_r. reflexivity.
      - rewrite Z.opp_involutive. reflexivity. }
    apply round64_comp; [exact Hv |]. rewrite Hv.
    apply Qle_shift_div_l; [exact Hp0 |]. rewrite Qmult_0_l.
    rewrite <- (Zle_Qle 0). lia.
Qed.

Lemma allDigits_head s :
  allDigits s -> s <> EmptyString ->
  exists c r, s = String c r /\ isDigit c = true.
Proof.
  intros Hs Hne. destruct s as [|c r]; [congruence |].
  exists c, r. split; [reflexivity | apply (allDigits_cons _ _ Hs)].
Qed.

Lemma signOf_digit c r : isDigit c = true -> signOf (String c r) = (false, String c r).
Proof.
  destruct c as [[] [] [] [] [] [] [] []]; vm_compute; intros Hd;
    try discriminate; reflexivity.
Qed.

Lemma not_Infinity_digit c r :
  isDigit c = true -> JSString.startsWith "Infinity" (String c r) = false.
Proof.
  intros Hd. cbn [JSString.startsWith]. rewrite Ascii.eqb_sym.
  rewrite (proj1 (proj2 (proj2 (proj2 (proj2 (proj2 (digit_facts c Hd))))))).
  reflexivity.
Qed.

(** [parseFloat] on digits, a point, digits. *)
Lemma parseFloat_unsigned_decimal a b :
  allDigits a -> a <> EmptyString -> allDigits b ->
  parseFloat (a +:+ "." +:+ b)
  = roundDecimal false
      (valueOfDigits (list_ascii_of_string a ++ list_ascii_of_string b))
      (- Z.of_nat (length (list_ascii_of_string b))).
Proof.
  intros Ha Hne Hb. destruct (allDigits_head a Ha Hne) as (c & r & -> & Hc).
  unfold parseFloat.
  change (String c r +:+ "." +:+ b) with (String c (r +:+ "." +:+ b)).
  cbn [JSString.trimStart]. rewrite (proj1 (digit_facts c Hc)).
  rewrite (signOf_digit c _ Hc), (not_Infinity_digit c _ Hc).
  change (String c (r +:+ "." +:+ b)) with (String c r +:+ String "." b).
  rewrite (spanDigits_allDigits _ _ Ha). cbn [spanDigits fst snd].
  change (isDigit ".") with false. cbv iota. cbn [fst snd].
  rewrite (spanDigits_whole b Hb). rewrite app_nil_r.
  cbn [list_ascii_of_string app]. cbn [exponentOf]. rewrite Z.sub_0_l. reflexivity.
Qed.

Lemma parseFloat_signed_decimal a b :
  allDigits a -> a <> EmptyString -> allDigits b ->
  parseFloat ("-" +:+ a +:+ "." +:+ b)
  = roundDecimal true
      (valueOfDigits (list_ascii_of_string a ++ list_ascii_of_string b))
      (- Z.of_nat (length (list_ascii_of_string b))).
Proof.
  intros Ha Hne Hb. destruct (allDigits_head a Ha Hne) as (c & r & -> & Hc).
  unfold parseFloat.
  change ("-" +:+ String c r +:+ "." +:+ b) with (String "-" (String c (r +:+ "." +:+ b))).
  cbn [JSString.trimStart]. change (JSString.isWhiteSpace "-") with false. cbv iota.
  cbn [signOf]. rewrite (not_Infinity_digit c _ Hc).
  change (String c (r +:+ "." +:+ b)) with (String c r +:+ String "." b).
  rewrite (spanDigits_allDigits _ _ Ha). cbn [spanDigits fst snd].
  change (isDigit ".") with false. cbv iota. cbn [fst snd].
  rewrite (spanDigits_whole b Hb). rewrite app_nil_r.
  cbn [list_ascii_of_string app]. cbn [exponentOf]. rewrite Z.sub_0_l. reflexivity.
Qed.

(** [parseFloat] reads [scaledDecimal n k] back as [n / 10^k]. *)
Lemma parseFloat_scaledDecimal n k :
  parseFloat (scaledDecimal n k) = div (ofZ n) (ofZ (pow10 k)).
Proof.
  rewrite <- (roundDecimal_scaled n k).
  unfold scaledDecimal.
  set (m := Z.to_N (Z.abs n)). set (p := (10 ^ N.of_nat k)%N).
  assert (Hb : allDigits (stringOfLE (fixedLE k (m mod p))))
    by apply stringOfLE_allDigits, fixedLE_digits.
  assert (Hval : valueOfDigits
                   (list_ascii_of_string (decimalDigits (m / p))
                    ++ list_ascii_of_string (stringOfLE (fixedLE k (m mod p)))) = m).
  { rewrite valueOfDigits_app, decimalDigits_value, stringOfLE_chars.
    rewrite valueOfDigits_LE by apply fixedLE_digits.
    rewrite length_map, length_rev, fixedLE_length, fixedLE_value.
    fold p. rewrite N.Div0.mod_mod.
    pose proof (N.div_mod m p). assert (p <> 0%N) by (apply N.pow_nonzero; discriminate).
    lia. }
  assert (Hlen : length (list_ascii_of_string (stringOfLE (fixedLE k (m mod p)))) = k)
    by (rewrite stringOfLE_chars, length_map, length_rev; apply fixedLE_length).
  destruct (n <? 0)%Z.
  - rewrite (parseFloat_signed_decimal _ _ (decimalDigits_allDigits _)
               (decimalDigits_nonempty _) Hb), Hval, Hlen. reflexivity.
  - change (EmptyString +:+ ?x) with x.
    rewrite (parseFloat_unsigned_decimal _ _ (decimalDigits_allDigits _)
               (decimalDigits_nonempty _) Hb), Hval, Hlen. reflexivity.
Qed.

Lemma gt0_ofZ z : gt0 (ofZ z) = (0 <? z)%Z.
Proof.
  unfold gt0, ofZ, Qc_ltb. rewrite this_ofZ.
  change (this 0%Qc) with (inject_Z 0).
  unfold Qle_bool, inject_Z. cbn [Qnum Qden].
  rewrite Z.mul_1_r, Z.ltb_antisym. reflexivity.
Qed.

Lemma ofZ_signed n :
  ofZ n = Fin (Q2Qc (if (n <? 0)%Z then - inject_Z (Z.abs n) else inject_Z (Z.abs n))).
Proof.
  unfold ofZ. f_equal. apply Q2Qc_eq.
  destruct (n <? 0)%Z eqn:E; [apply Z.ltb_lt in E | apply Z.ltb_ge in E].
  - rewrite <- inject_Z_opp. f_equiv. lia.
  - f_equiv. lia.
Qed.

(** A safe integer divided by 1 is itself. *)
Lemma div_one n : safeInteger n -> div (ofZ n) (ofZ 1) = ofZ n.
Proof.
  intros Hn. unfold safeInteger, MAX_SAFE_INTEGER in Hn.
  rewrite (div_ofZ n 1) by lia. rewrite (ofZ_signed n).
  destruct (Z.eq_dec n 0%Z) as [->|Hn0]; [reflexivity |].
  rewrite (round64_comp _ _ (inject_Z (Z.abs n))).
  - apply round64_integer. lia.
  - unfold Qdiv. change (/ inject_Z 1)%Q with 1%Q. apply Qmult_1_r.
  - unfold Qdiv. change (/ inject_Z 1)%Q with 1%Q. rewrite Qmult_1_r.
    rewrite <- (Zle_Qle 0). lia.
Qed.

Lemma ToString_ofZ `{ShortestDigits} n :
  (0 <= n <= MAX_SAFE_INTEGER)%Z -> ToString (ofZ n) = decimalDigits (Z.to_N n).
Proof.
  intros Hn. unfold ToString, ofZ.
  assert (Hneg : Qc_ltb (Q2Qc (inject_Z n)) 0 = false).
  { unfold Qc_ltb. rewrite this_ofZ. change (this 0%Qc) with (inject_Z 0).
    unfold Qle_bool, inject_Z. cbn [Qnum Qden]. apply negb_false_iff, Z.leb_le. lia. }
  rewrite Hneg. unfold positiveToString, isInteger. rewrite this_ofZ.
  cbn [inject_Z Qnum Qden]. rewrite Pos.eqb_refl.
  destruct (n <=? MAX_SAFE_INTEGER)%Z eqn:E; [reflexivity |].
  apply Z.leb_gt in E. lia.
Qed.

Lemma roundDecimal_integer m :
  (Z.of_N m <= MAX_SAFE_INTEGER)%Z -> roundDecimal false m 0 = ofZ (Z.of_N m).
Proof.
  intros Hm. rewrite <- div_one by (unfold safeInteger; lia).
  change (ofZ 1) with (ofZ (pow10 0)).
  rewrite <- (roundDecimal_scaled (Z.of_N m) 0).
  replace (Z.of_N m <? 0)%Z with false by (symmetry; apply Z.ltb_ge; lia).
  rewrite Z.abs_eq, N2Z.id by lia. reflexivity.
Qed.

Lemma parseFloat_digits s :
  allDigits s -> s <> EmptyString ->
  parseFloat s = roundDecimal false (valueOfDigits (list_ascii_of_string s)) 0.
Proof.
  intros Hd Hne. destruct (allDigits_head _ Hd Hne) as (c & r & -> & Hc).
  unfold parseFloat. cbn [JSString.trimStart].
  rewrite (proj1 (digit_facts c Hc)), (signOf_digit c _ Hc), (not_Infinity_digit c _ Hc).
  rewrite (spanDigits_whole _ Hd). rewrite app_nil_r.
  cbn [list_ascii_of_string exponentOf length]. reflexivity.
Qed.

Lemma parseInt_digits s :
  allDigits s -> s <> EmptyString ->
  parseInt s = roundDecimal false (valueOfDigits (list_ascii_of_string s)) 0.
Proof.
  intros Hd Hne. destruct (allDigits_head _ Hd Hne) as (c & r & -> & Hc).
  unfold parseInt. cbn [JSString.trimStart].
  rewrite (proj1 (digit_facts c Hc)), (signOf_digit c _ Hc).
  rewrite (spanDigits_whole _ Hd). cbn [list_ascii_of_string]. reflexivity.
Qed.

(** [parseFloat] and [parseInt] read the decimal digits of a safe integer
    back. *)
Lemma parseFloat_decimalDigits m :
  (Z.of_N m <= MAX_SAFE_INTEGER)%Z -> parseFloat (decimalDigits m) = ofZ (Z.of_N m).
Proof.
  intros Hm.
  rewrite (parseFloat_digits _ (decimalDigits_allDigits m) (decimalDigits_nonempty m)).
  rewrite decimalDigits_value. apply roundDecimal_integer, Hm.
Qed.

Lemma parseInt_decimalDigits m :
  (Z.of_N m <= MAX_SAFE_INTEGER)%Z -> parseInt (decimalDigits m) = ofZ (Z.of_N m).
Proof.
  intros Hm.
  rewrite (parseInt_digits _ (decimalDigits_allDigits m) (decimalDigits_nonempty m)).
  rewrite decimalDigits_value. apply roundDecimal_integer, Hm.
Qed.

(** The quotient of a safe integer by 100 or 1000, printed by toFixed with
    as many decimals and read by parseFloat, is the quotient again, although
    above 2^52 the digits printed need not be those of the dividend. *)
Lemma quotient_reads_back `{ShortestDigits} n k :
  safeInteger n -> k = 2%nat \/ k = 3%nat ->
  parseFloat (toFixed (div (ofZ n) (ofZ (pow10 k))) k) = div (ofZ n) (ofZ (pow10 k))
  /\ ge0 (div (ofZ n) (ofZ (pow10 k))) = (0 <=? n)%Z.
Proof.
  intros Hn Hk. unfold safeInteger in Hn.
  destruct (Z.eq_dec n 0%Z) as [->|Hn0].
  - destruct Hk as [->| ->]; vm_compute; split; reflexivity.
  - rewrite (div_ofZ n _ (pow10_pos k)).
    destruct (quotient_rounded (n <? 0)%Z (Z.abs n) k)
      as (r & Hr0 & Hbig & Hr & Hc & _ & Hback); [lia | exact Hk |].
    rewrite Hr. destruct (signed_parts (n <? 0)%Z r Hr0) as [Hs _]. split.
    + assert (Hk' : exists j, k = S j) by (destruct Hk as [->| ->]; eauto).
      destruct Hk' as [j Ej]. rewrite Ej at 1.
      rewrite (toFixed_signed _ _ _ Hr0 Hbig). rewrite <- Ej.
      rewrite scaledDecimal_signed by exact Hc.
      rewrite parseFloat_scaledDecimal, (div_ofZ _ _ (pow10_pos k)).
      set (c := nearestScaled r k) in *.
      replace ((if (n <? 0)%Z then - c else c) <? 0)%Z with (n <? 0)%Z
        by (destruct (n <? 0)%Z; symmetry; [apply Z.ltb_lt | apply Z.ltb_ge]; lia).
      replace (Z.abs (if (n <? 0)%Z then - c else c)) with c
        by (destruct (n <? 0)%Z; lia).
      exact Hback.
    + unfold ge0, Qc_leb. unfold Qc_ltb in Hs.
      apply (f_equal negb) in Hs. rewrite negb_involutive in Hs.
      rewrite Z.leb_antisym. exact Hs.
Qed.

(** X4.  The change string stored for a record whose raw change is a safe
    integer reads back, in both tree builders, as exactly raw change over
    divisor; so the arrow of the instrument points up exactly when the raw
    change is not negative. *)
Theorem stored_change_reads_back `{ShortestDigits} (t : string) (r : RawStock)
    (n4 : Z) :
  f4 r = ofZ n4 -> safeInteger n4 ->
  parseFloat (change (quoteOf t r))
    = div (f4 r) (if isHKorUS (f13 r) then ofZ 1000 else ofZ 100)
  /\ ge0 (parseFloat (change (quoteOf t r))) = (0 <=? n4)%Z.
Proof.
  intros H4 S4. unfold quoteOf. cbn [change]. rewrite H4.
  replace (ofZ 1000) with (ofZ (pow10 3)) by reflexivity.
  replace (ofZ 100) with (ofZ (pow10 2)) by reflexivity.
  destruct (isHKorUS (f13 r)).
  - destruct (quotient_reads_back n4 3 S4 (or_intror eq_refl)) as [E G].
    rewrite E. split; [reflexivity | exact G].
  - destruct (quotient_reads_back n4 2 S4 (or_introl eq_refl)) as [E G].
    rewrite E. split; [reflexivity | exact G].
Qed.

Lemma stored_change_reads_back_witness :
  parseFloat (change (@quoteOf examplePrinter "09:30:00" exampleIndex))
    = div (f4 exampleIndex) (if isHKorUS (f13 exampleIndex) then ofZ 1000 else ofZ 100)
  /\ ge0 (parseFloat (change (@quoteOf examplePrinter "09:30:00" exampleIndex)))
     = (0 <=? -1234)%Z.
Proof.
  apply (@stored_change_reads_back examplePrinter "09:30:00" exampleIndex (-1234)).
  - reflexivity.
  - unfold safeInteger, MAX_SAFE_INTEGER. simpl. lia.
Defined.

(** ** The setting rewritten by the holdings updater, read by the registry *)

Lemma trimmed_entry entry :
  entryCode (JSString.trim entry) = entryCode entry
  /\ entryShares (JSString.trim entry) = entryShares entry
  /\ listedEntry (JSString.trim entry) = listedEntry entry
  /\ isBlank (JSString.trim entry) = isBlank entry.
Proof.
  unfold listedEntry, entryCode, entryShares, isBlank.
  rewrite trim_idempotent. repeat split.
Qed.

Lemma bare_entry c :
  cleanCode c ->
  entryCode c = c /\ entryShares c = None /\ listedEntry c = true.
Proof.
  intros (Hne & Hcolon & Htrim). unfold listedEntry, entryCode, entryShares.
  rewrite Htrim, (split_without_sep _ _ Hcolon). cbn [nth nth_error].
  rewrite Htrim. repeat split. apply truthy_true, Hne.
Qed.

Lemma annotated_entry c rhs :
  cleanCode c ->
  entryCode (c +:+ ":" +:+ rhs) = c
  /\ entryShares (c +:+ ":" +:+ rhs)
     = (if accepted (parsedShares rhs) then Some (parsedShares rhs) else None)
  /\ listedEntry (c +:+ ":" +:+ rhs) = true.
Proof.
  intros (Hne & Hcolon & Htrim).
  assert (Hcode : entryCode (c +:+ ":" +:+ rhs) = c).
  { unfold entryCode. rewrite (entry_parts c rhs Hcolon). cbn [nth].
    unfold JSString.trim at 1. rewrite trimStart_idempotent. exact Htrim. }
  split; [exact Hcode |]. split.
  - unfold entryShares. rewrite (entry_parts c rhs Hcolon).
    destruct (JSString.split ":" (JSString.trimEnd rhs)) as [|seg rest] eqn:S;
      [destruct (split_nonempty _ _ S) |].
    cbn [nth_error].
    assert (Hseg : JSString.trim seg = JSString.trim (firstSegment rhs)).
    { rewrite <- trim_firstSegment_trimEnd. unfold firstSegment. rewrite S.
      reflexivity. }
    rewrite Hseg. reflexivity.
  - unfold listedEntry. rewrite Hcode. apply truthy_true, Hne.
Qed.

Lemma parsedShares_decimalDigits m :
  (Z.of_N m <= MAX_SAFE_INTEGER)%Z -> parsedShares (decimalDigits m) = ofZ (Z.of_N m).
Proof.
  intros Hm. unfold parsedShares, firstSegment.
  pose proof (decimalDigits_allDigits m) as Hd.
  rewrite split_without_sep
    by (apply allDigits_no_char; [intros c Hc; apply (digit_facts c Hc) | exact Hd]).
  cbn [nth]. rewrite (allDigits_trim _ Hd). apply parseFloat_decimalDigits, Hm.
Qed.

(** The entry written for the target, as the registry reads it. *)
Lemma holdingEntry_read `{ShortestDigits} c n :
  cleanCode c -> (n <= MAX_SAFE_INTEGER)%Z ->
  entryCode (holdingEntry c (ofZ n)) = c
  /\ listedEntry (holdingEntry c (ofZ n)) = true
  /\ entryShares (holdingEntry c (ofZ n)) = if (0 <? n)%Z then Some (ofZ n) else None.
Proof.
  intros Hc Hn. unfold holdingEntry. rewrite gt0_ofZ.
  destruct (0 <? n)%Z eqn:E.
  - apply Z.ltb_lt in E. rewrite ToString_ofZ by lia.
    destruct (annotated_entry c (decimalDigits (Z.to_N n)) Hc) as (A & B & C).
    rewrite parsedShares_decimalDigits in B by (rewrite Z2N.id; lia).
    rewrite Z2N.id in B by lia. unfold accepted in B.
    rewrite gt0_ofZ in B. replace (0 <? n)%Z with true in B by (symmetry; apply Z.ltb_lt; lia).
    repeat split; assumption.
  - destruct (bare_entry c Hc) as (A & B & C). repeat split; assumption.
Qed.

Lemma holdingEntry_code `{ShortestDigits} c shares :
  cleanCode c ->
  entryCode (holdingEntry c shares) = c /\ listedEntry (holdingEntry c shares) = true.
Proof.
  intros Hc. unfold holdingEntry. destruct (gt0 shares).
  - destruct (annotated_entry c (ToString shares) Hc) as (A & _ & C). split; assumption.
  - destruct (bare_entry c Hc) as (A & _ & C). split; assumption.
Qed.

Lemma listed_not_blank entry : listedEntry entry = true -> isBlank entry = false.
Proof.
  intros Hl. destruct (isBlank entry) eqn:B; [| reflexivity].
  rewrite (blank_not_listed entry B) in Hl. discriminate.
Qed.

Lemma rewriteEntries_spec `{ShortestDigits} cfg c shares :
  rewriteEntries cfg c shares
  = map (rewrittenEntry c shares)
      (List.filter (fun entry => negb (isBlank entry)) cfg)
    ++ (if negb (mentions cfg c) && gt0 shares then [holdingEntry c shares] else []).
Proof.
  unfold rewriteEntries. rewrite rewriteEntries_fold. cbn [app orb].
  unfold holdingEntry.
  destruct (negb (mentions cfg c) && gt0 shares) eqn:E;
    [| rewrite app_nil_r; reflexivity].
  apply andb_prop in E as [_ ->]. reflexivity.
Qed.

(** One rewritten entry, as the registry reads it. *)
Lemma rewrittenEntry_read `{ShortestDigits} c shares entry :
  cleanCode c -> isBlank entry = false ->
  entryCode (rewrittenEntry c shares entry) = entryCode entry
  /\ listedEntry (rewrittenEntry c shares entry) = listedEntry entry
  /\ (String.eqb (entryCode entry) c = false ->
      entryShares (rewrittenEntry c shares entry) = entryShares entry).
Proof.
  intros Hc Hb. unfold rewrittenEntry.
  destruct (String.eqb (entryCode entry) c) eqn:E.
  - apply String.eqb_eq in E. destruct (holdingEntry_code c shares Hc) as [A B].
    rewrite A. split; [symmetry; exact E |]. split; [| discriminate].
    rewrite B. unfold listedEntry. rewrite E. symmetry.
    apply truthy_true, Hc.
  - destruct (trimmed_entry entry) as (A & B & C & _). repeat split; auto.
Qed.

Lemma mentions_cons entry l c :
  mentions (entry :: l) c
  = (negb (isBlank entry) && String.eqb (entryCode entry) c) || mentions l c.
Proof. reflexivity. Qed.

(** X5.  Updating the holding of one instrument never removes, reorders or
    renames an instrument: when the setting has a non-blank entry, the
    instrument list after the update is the list a reload of the old setting
    gives, with the target appended when no entry mentioned it and the share
    count is positive. *)
Theorem update_keeps_instruments `{ShortestDigits}
    (c : string) (shares : number) (now : string) (e : Engine) :
  cleanCode c -> hasEntries (settings e) = true ->
  stockCodeList (provider (updateHoldingShares c shares now e))
  = stockCodeList (loadStockCodes (settings e) (provider e))
    ++ (if negb (mentions (settings e) c) && gt0 shares then [c] else []).
Proof.
  intros Hc Hhas.
  assert (Hreg : stockCodeList (provider (updateHoldingShares c shares now e))
                 = stockCodeList (loadStockCodes
                                    (rewriteEntries (settings e) c shares)
                                    (provider e))).
  { unfold updateHoldingShares, refresh, startFetch. cbn [settings provider inflight].
    match goal with |- context [fetchAllStockData now ?p] =>
      pose proof (proj1 (fetchAllStockData_registry now p)) as F;
      destruct (fetchAllStockData now p) end.
    exact F. }
  rewrite Hreg, !registry_codes, Hhas.
  rewrite rewriteEntries_spec.
  set (tail := if negb (mentions (settings e) c) && gt0 shares
               then [holdingEntry c shares] else []).
  assert (Htail : configuredCodes tail
                  = if negb (mentions (settings e) c) && gt0 shares then [c] else []).
  { unfold tail. destruct (negb _ && _); [| reflexivity].
    unfold configuredCodes. cbn [List.filter].
    destruct (holdingEntry_code c shares Hc) as [A B]. rewrite B. cbn [map].
    rewrite A. reflexivity. }
  assert (Hmap : forall l,
            configuredCodes (map (rewrittenEntry c shares)
                               (List.filter (fun entry => negb (isBlank entry)) l))
            = configuredCodes l).
  { induction l as [|x l IH]; [reflexivity |]. cbn [List.filter].
    destruct (isBlank x) eqn:B; cbn [negb].
    - rewrite IH. unfold configuredCodes. cbn [List.filter].
      rewrite (blank_not_listed x B). reflexivity.
    - cbn [map]. unfold configuredCodes in *. cbn [List.filter].
      destruct (rewrittenEntry_read c shares x Hc B) as (A & L & _).
      rewrite L. destruct (listedEntry x); cbn [map]; rewrite ?A, IH; reflexivity. }
  assert (Happ : forall l1 l2, configuredCodes (l1 ++ l2)
                               = configuredCodes l1 ++ configuredCodes l2).
  { intros l1 l2. unfold configuredCodes. rewrite List.filter_app, map_app. reflexivity. }
  assert (Hnew : hasEntries
                   (map (rewrittenEntry c shares)
                      (List.filter (fun entry => negb (isBlank entry)) (settings e))
                    ++ tail) = true).
  { revert Hhas. generalize (settings e). induction l as [|x l IH]; [discriminate |].
    cbn [hasEntries existsb List.filter]. destruct (isBlank x) eqn:B; cbn [negb orb].
    - exact IH.
    - intros _. unfold hasEntries. cbn [map app existsb].
      destruct (rewrittenEntry_read c shares x Hc B) as (_ & L & _).
      destruct (trimmed_entry x) as (_ & _ & _ & T).
      assert (Hb : isBlank (rewrittenEntry c shares x) = false).
      { unfold rewrittenEntry. destruct (String.eqb (entryCode x) c).
        - apply listed_not_blank, (holdingEntry_code c shares Hc).
        - rewrite T. exact B. }
      rewrite Hb. reflexivity. }
  rewrite Hnew, Happ, Hmap, Htail. reflexivity.
Qed.

Lemma update_keeps_instruments_witness :
  stockCodeList
    (provider (@updateHoldingShares examplePrinter "0.000002" (ofZ 10) "09:31:00"
                 exampleEngine))
  = stockCodeList (loadStockCodes (settings exampleEngine) (provider exampleEngine))
    ++ (if negb (mentions (settings exampleEngine) "0.000002") && gt0 (ofZ 10)
        then ["0.000002"] else []).
Proof.
  apply (@update_keeps_instruments examplePrinter).
  - apply (registry_codes_clean ["0.000002"] initialProvider).
    left. reflexivity.
  - reflexivity.
Defined.

Lemma updateHoldingShares_state `{ShortestDigits} c shares now e :
  settings (updateHoldingShares c shares now e) = rewriteEntries (settings e) c shares
  /\ stockCodeList (provider (updateHoldingShares c shares now e))
     = stockCodeList (loadStockCodes (rewriteEntries (settings e) c shares) (provider e))
  /\ holdingShares (provider (updateHoldingShares c shares now e))
     = holdingShares (loadStockCodes (rewriteEntries (settings e) c shares) (provider e)).
Proof.
  unfold updateHoldingShares, refresh, startFetch. cbn [settings provider inflight].
  match goal with |- context [fetchAllStockData now ?p] =>
    pose proof (fetchAllStockData_registry now p) as [F G];
    destruct (fetchAllStockData now p) end.
  cbn [settings provider fst] in *. repeat split; assumption.
Qed.

Lemma holding_lookup cfg s c :
  JSMap.get c (holdingShares (loadStockCodes cfg s)) = configuredHolding cfg c.
Proof.
  rewrite (proj2 (loadStockCodes_registry_spec cfg s)).
  unfold configuredHolding.
  change (@None number) with (JSMap.get c (@JSMap.empty number)).
  generalize (@JSMap.empty number).
  induction cfg as [|entry cfg IH]; intros h; [reflexivity |].
  cbn [fold_left]. rewrite IH. f_equal.
  destruct (listedEntry entry); [| reflexivity].
  destruct (entryShares entry) as [v|].
  - rewrite JSMap_get_set. destruct (String.eqb (entryCode entry) c); reflexivity.
  - destruct (String.eqb (entryCode entry) c); reflexivity.
Qed.

Lemma rewritten_holding `{ShortestDigits} cfg c n :
  cleanCode c -> (n <= MAX_SAFE_INTEGER)%Z ->
  configuredHolding (rewriteEntries cfg c (ofZ n)) c
  = if (0 <? n)%Z then Some (ofZ n) else None.
Proof.
  intros Hc Hn.
  rewrite rewriteEntries_spec. unfold configuredHolding.
  rewrite fold_left_app.
  destruct (holdingEntry_read c n Hc Hn) as (HA & HB & HC).
  assert (Hmap : forall l found,
            fold_left
              (fun found entry =>
                 if listedEntry entry && String.eqb (entryCode entry) c
                 then match entryShares entry with
                      | Some v => Some v
                      | None => found
                      end
                 else found)
              (map (rewrittenEntry c (ofZ n))
                 (List.filter (fun entry => negb (isBlank entry)) l)) found
            = if mentions l c && (0 <? n)%Z then Some (ofZ n) else found).
  { induction l as [|x l IH]; intros found; [reflexivity |].
    rewrite mentions_cons. cbn [List.filter].
    destruct (isBlank x) eqn:B; cbn [negb andb orb]; [apply IH |].
    cbn [map fold_left]. rewrite IH. unfold rewrittenEntry.
    destruct (String.eqb (entryCode x) c) eqn:E.
    - rewrite HA, HB, HC, String.eqb_refl. cbn [andb orb].
      destruct (0 <? n)%Z; [| rewrite andb_false_r; reflexivity].
      destruct (mentions l c); reflexivity.
    - destruct (trimmed_entry x) as (A & _ & _ & _). rewrite A, E, andb_false_r.
      reflexivity. }
  rewrite Hmap. rewrite gt0_ofZ.
  destruct (mentions cfg c), (0 <? n)%Z eqn:P; cbn [negb andb fold_left];
    try reflexivity.
  rewrite HA, HB, HC, String.eqb_refl. reflexivity.
Qed.

(** X6.  [updateHoldingShares] followed by its reload stores what was asked:
    for a code as the registry keeps it and a safe integer share count, the
    holdings map then gives the code that count when it is positive, and no
    holding when it is zero or negative. *)
Theorem update_then_reload_sets_holding `{ShortestDigits}
    (c : string) (n : Z) (now : string) (e : Engine) :
  cleanCode c -> (n <= MAX_SAFE_INTEGER)%Z ->
  JSMap.get c (holdingShares (provider (updateHoldingShares c (ofZ n) now e)))
  = if (0 <? n)%Z then Some (ofZ n) else None.
Proof.
  intros Hc Hn.
  rewrite (proj2 (proj2 (updateHoldingShares_state c (ofZ n) now e))).
  rewrite holding_lookup. apply rewritten_holding; assumption.
Qed.

Lemma update_then_reload_sets_holding_witness :
  JSMap.get "116.00700"
    (holdingShares (provider (@updateHoldingShares examplePrinter "116.00700"
                                (ofZ 250) "09:31:00" exampleEngine)))
  = if (0 <? 250)%Z then Some (ofZ 250) else None.
Proof.
  apply (@update_then_reload_sets_holding examplePrinter).
  - apply (registry_codes_clean ["116.00700"] initialProvider).
    left. reflexivity.
  - unfold MAX_SAFE_INTEGER. lia.
Defined.

(** X7.  Updating the holding of one instrument leaves every other holding
    as a reload of the old setting gives it. *)
Theorem update_keeps_other_holdings `{ShortestDigits}
    (c c' : string) (shares : number) (now : string) (e : Engine) :
  cleanCode c -> c' <> c ->
  JSMap.get c' (holdingShares (provider (updateHoldingShares c shares now e)))
  = JSMap.get c' (holdingShares (loadStockCodes (settings e) (provider e))).
Proof.
  intros Hc Hne.
  rewrite (proj2 (proj2 (updateHoldingShares_state c shares now e))).
  rewrite !holding_lookup, rewriteEntries_spec. unfold configuredHolding.
  rewrite fold_left_app.
  assert (Hcc : String.eqb c c' = false) by (apply String.eqb_neq; congruence).
  destruct (holdingEntry_code c shares Hc) as [HA HB].
  assert (Htail : forall found,
            fold_left
              (fun found entry =>
                 if listedEntry entry && String.eqb (entryCode entry) c'
                 then match entryShares entry with
                      | Some v => Some v
                      | None => found
                      end
                 else found)
              (if negb (mentions (settings e) c) && gt0 shares
               then [holdingEntry c shares] else []) found = found).
  { intros found. destruct (negb _ && _); [| reflexivity].
    cbn [fold_left]. rewrite HA, Hcc, andb_false_r. reflexivity. }
  rewrite Htail. generalize (@None number). generalize (settings e).
  induction l as [|x l IH]; intros found; [reflexivity |].
  cbn [List.filter fold_left].
  destruct (isBlank x) eqn:B; cbn [negb].
  - rewrite (blank_not_listed x B). cbn [andb]. apply IH.
  - cbn [map fold_left]. rewrite IH. f_equal.
    destruct (rewrittenEntry_read c shares x Hc B) as (A & L & S).
    rewrite A, L. destruct (String.eqb (entryCode x) c) eqn:E.
    + apply String.eqb_eq in E. rewrite E, Hcc, andb_false_r. reflexivity.
    + rewrite (S eq_refl). reflexivity.
Qed.

Lemma update_keeps_other_holdings_witness :
  JSMap.get "116.00700"
    (holdingShares (provider (@updateHoldingShares examplePrinter "1.000001"
                                (ofZ 5) "09:31:00" exampleEngine)))
  = JSMap.get "116.00700"
      (holdingShares (loadStockCodes (settings exampleEngine) (provider exampleEngine))).
Proof.
  apply (@update_keeps_other_holdings examplePrinter).
  - apply (registry_codes_clean [] initialProvider). left. reflexivity.
  - discriminate.
Defined.

Lemma rewriteEntries_idempotent `{ShortestDigits} cfg c shares :
  cleanCode c ->
  rewriteEntries (rewriteEntries cfg c shares) c shares = rewriteEntries cfg c shares.
Proof.
  intros Hc.
  rewrite (rewriteEntries_spec (rewriteEntries cfg c shares)).
  rewrite (rewriteEntries_spec cfg).
  set (kept := map (rewrittenEntry c shares)
                 (List.filter (fun entry => negb (isBlank entry)) cfg)).
  set (tail := if negb (mentions cfg c) && gt0 shares
               then [holdingEntry c shares] else []).
  destruct (holdingEntry_code c shares Hc) as [HA HB].
  pose proof (listed_not_blank _ HB) as HBl.
  assert (Hfix : forall x, isBlank x = false ->
            isBlank (rewrittenEntry c shares x) = false
            /\ rewrittenEntry c shares (rewrittenEntry c shares x)
               = rewrittenEntry c shares x).
  { intros x B. destruct (rewrittenEntry_read c shares x Hc B) as (A & _ & _).
    unfold rewrittenEntry at 2 4. rewrite A. unfold rewrittenEntry.
    destruct (trimmed_entry x) as (_ & _ & _ & T).
    destruct (String.eqb (entryCode x) c); [split; [exact HBl | reflexivity] |].
    rewrite T, trim_idempotent. split; [exact B | reflexivity]. }
  assert (Hholding : rewrittenEntry c shares (holdingEntry c shares)
                     = holdingEntry c shares).
  { unfold rewrittenEntry. rewrite HA, String.eqb_refl. reflexivity. }
  assert (Hkept : Forall (fun x => isBlank x = false
                                   /\ rewrittenEntry c shares x = x) (kept ++ tail)).
  { apply Forall_app. split.
    - unfold kept. apply Forall_forall. intros x Hx.
      apply list_elem_of_In, in_map_iff in Hx as (y & <- & Hy).
      apply filter_In in Hy as [_ Hy]. apply negb_true_iff in Hy.
      exact (Hfix y Hy).
    - unfold tail. destruct (negb _ && _); repeat constructor; assumption. }
  assert (Hsame : forall l,
            Forall (fun x => isBlank x = false /\ rewrittenEntry c shares x = x) l ->
            map (rewrittenEntry c shares)
              (List.filter (fun entry => negb (isBlank entry)) l) = l).
  { induction 1 as [|x l [Bx Fx] _ IH]; [reflexivity |].
    cbn [List.filter]. rewrite Bx. cbn [negb map]. rewrite Fx, IH. reflexivity. }
  rewrite (Hsame _ Hkept).
  assert (Hment : gt0 shares = true -> mentions (kept ++ tail) c = true).
  { intros Hg. unfold mentions. rewrite existsb_app. fold (mentions kept c).
    unfold tail. rewrite Hg, andb_true_r.
    destruct (mentions cfg c) eqn:M; cbn [negb existsb].
    - assert (Hk : mentions kept c = true); [| rewrite Hk; reflexivity].
      unfold kept. revert M. generalize cfg. intros l.
      induction l as [|x l IH]; [discriminate |].
      rewrite mentions_cons. cbn [List.filter].
      destruct (isBlank x) eqn:B; cbn [negb andb orb]; [exact IH |].
      cbn [map]. rewrite mentions_cons.
      destruct (rewrittenEntry_read c shares x Hc B) as (A & _ & _).
      rewrite A, (proj1 (Hfix x B)). cbn [negb andb].
      destruct (String.eqb (entryCode x) c); cbn [orb]; [reflexivity | exact IH].
    - rewrite HBl, HA, String.eqb_refl. cbn [negb andb orb].
      apply orb_true_r. }
  destruct (gt0 shares) eqn:G.
  - rewrite (Hment eq_refl). cbn [negb andb]. apply app_nil_r.
  - rewrite andb_false_r. apply app_nil_r.
Qed.

(** X8.  The holdings update is idempotent on the setting: applying the same
    update a second time writes back the list the first one wrote. *)
Theorem update_is_idempotent `{ShortestDigits}
    (c : string) (shares : number) (now now' : string) (e : Engine) :
  cleanCode c ->
  settings (updateHoldingShares c shares now'
              (updateHoldingShares c shares now e))
  = settings (updateHoldingShares c shares now e).
Proof.
  intros Hc.
  rewrite (proj1 (updateHoldingShares_state c shares now' _)).
  rewrite (proj1 (updateHoldingShares_state c shares now e)).
  apply rewriteEntries_idempotent, Hc.
Qed.

Lemma update_is_idempotent_witness :
  settings (@updateHoldingShares examplePrinter "116.00700" (ofZ 250) "09:32:00"
              (@updateHoldingShares examplePrinter "116.00700" (ofZ 250) "09:31:00"
                 exampleEngine))
  = settings (@updateHoldingShares examplePrinter "116.00700" (ofZ 250) "09:31:00"
                exampleEngine).
Proof.
  apply (@update_is_idempotent examplePrinter).
  apply (registry_codes_clean ["116.00700"] initialProvider).
  left. reflexivity.
Defined.

Lemma hasEntries_filter cfg :
  hasEntries cfg = false ->
  List.filter (fun entry => negb (isBlank entry)) cfg = [] /\ mentions cfg = fun _ => false.
Proof.
  induction cfg as [|x l IH]; [split; reflexivity |].
  unfold hasEntries. cbn [existsb List.filter].
  destruct (isBlank x) eqn:B; cbn [negb orb]; [| discriminate].
  intros Hl. destruct (IH Hl) as [F M]. split; [exact F |].
  unfold mentions in *. cbn [existsb]. rewrite B. cbn [negb andb orb]. exact M.
Qed.

(** X9.  On a setting with no entry but blank ones the update replaces the
    default instrument: with a positive share count the instrument list
    becomes the target alone, otherwise it stays the default list. *)
Theorem update_on_blank_setting `{ShortestDigits}
    (c : string) (shares : number) (now : string) (e : Engine) :
  cleanCode c -> hasEntries (settings e) = false ->
  stockCodeList (provider (updateHoldingShares c shares now e))
  = if gt0 shares then [c] else ["1.000001"].
Proof.
  intros Hc Hno.
  rewrite (proj1 (proj2 (updateHoldingShares_state c shares now e))).
  rewrite registry_codes, rewriteEntries_spec.
  destruct (hasEntries_filter _ Hno) as [-> ->]. cbn [map app negb andb].
  destruct (gt0 shares); [| reflexivity].
  destruct (holdingEntry_code c shares Hc) as [A B].
  unfold hasEntries, configuredCodes. cbn [existsb List.filter].
  rewrite (listed_not_blank _ B), B. cbn [negb orb map]. rewrite A. reflexivity.
Qed.

Lemma update_on_blank_setting_witness :
  stockCodeList
    (provider (@updateHoldingShares examplePrinter "116.00700" (ofZ 10) "09:31:00"
                 (construct "09:30:00" ["  "])))
  = if gt0 (ofZ 10) then ["116.00700"] else ["1.000001"].
Proof.
  apply (@update_on_blank_setting examplePrinter).
  - apply (registry_codes_clean ["116.00700"] initialProvider).
    left. reflexivity.
  - reflexivity.
Defined.

(** ** The cache after a response *)

Lemma fold_storeQuote_lookup `{ShortestDigits} t stocks m k :
  fold_left (storeQuote t) stocks m !! k
  = match lastRecordFor k stocks with
    | Some r => Some (quoteOf t r)
    | None => m !! k
    end.
Proof.
  revert m. induction stocks as [|item rest IH]; intros m; [reflexivity |].
  cbn [fold_left lastRecordFor]. rewrite IH.
  destruct (lastRecordFor k rest); [reflexivity |].
  destruct item as [r|]; [| reflexivity].
  unfold storeQuote. change (code (quoteOf t r)) with (recordCode r).
  destruct (String.eqb (recordCode r) k) eqn:E.
  - apply String.eqb_eq in E. rewrite E. apply lookup_insert_eq.
  - apply String.eqb_neq in E. apply lookup_insert_ne, E.
Qed.


(** X10.  A response with an array of records always completes, and merges
    into the cache: a code is then looked up to the quote of the last record
    of the response stored under it, and to what the cache held before when
    the response has no such record. *)
Theorem response_last_record_wins `{ShortestDigits}
    (req : Request) (stocks : list (option RawStock)) (s : Provider) :
  exists s', respond req (ResponseEnd (Json (DiffArray stocks))) s = Normal s'
    /\ forall k, stocksData s' !! k
                 = match lastRecordFor k stocks with
                   | Some r => Some (quoteOf (batchTime req) r)
                   | None => stocksData s !! k
                   end.
Proof.
  eexists. split; [reflexivity |]. intros k. cbn [stocksData setStocksData].
  apply fold_storeQuote_lookup.
Qed.

(** ** The tree *)

Lemma no_space_in_failure a b : a +:+ " " +:+ b <> "加载失败".
Proof.
  intros E. pose proof (contains_app " " a b) as Hc.
  change (a +:+ String " " b) with (a +:+ " " +:+ b) in Hc. rewrite E in Hc.
  unfold JSString.contains in Hc. cbn in Hc.
  repeat (destruct Hc as [Hc|Hc]; [discriminate Hc |]). exact Hc.
Qed.

Lemma rootItemOf_row s c row :
  rootItemOf s c = Normal row ->
  stockCode row = Some c /\ isRoot row = true
  /\ (description row = Some "加载失败" <-> stocksData s !! c = None).
Proof.
  unfold rootItemOf. destruct (stocksData s !! c) as [q|].
  - destruct (marketTagOf c) as [[tag color]|]; cbn [bindC]; [| discriminate].
    intros E. inversion E; subst; clear E. cbn [stockCode isRoot description newStockItem].
    repeat split; try discriminate.
    intros E. inversion E as [E']. destruct (no_space_in_failure _ _ E').
  - intros E. inversion E; subst. cbn. repeat split; reflexivity.
Qed.

Lemma mapC_inv {A B} (f : A -> Completion B) l ys :
  mapC f l = Normal ys -> Forall2 (fun x y => f x = Normal y) l ys.
Proof.
  revert ys. induction l as [|x l IH]; intros ys; cbn [mapC].
  - intros E. inversion E. constructor.
  - destruct (f x) as [y|] eqn:Fx; cbn [bindC]; [| discriminate].
    destruct (mapC f l) as [zs|]; cbn [bindC]; [| discriminate].
    intros E. inversion E; subst. constructor; [exact Fx | apply IH; reflexivity].
Qed.



Lemma rootItemOf_detail `{ShortestDigits} s c row :
  rootItemOf s c = Normal row ->
  getChildren (Some row) s
  = Normal (if JSString.truthy c then getDetailItems c s else []).
Proof.
  intros Hrow. destruct (rootItemOf_row _ _ _ Hrow) as (Hc & Hr & _).
  unfold getChildren. rewrite Hc, Hr. cbn [andb].
  destruct (JSString.truthy c); reflexivity.
Qed.

Lemma profitLossItem_plain `{ShortestDigits} x : plainRow (profitLossItem x).
Proof. repeat split. Qed.

Lemma getDetailItems_plain `{ShortestDigits} c s :
  Forall plainRow (getDetailItems c s).
Proof.
  unfold getDetailItems. destruct (stocksData s !! c) as [q|]; [| constructor].
  destruct (JSMap.get c (holdingShares s)) as [v|];
    [destruct (JSNumber.truthy v) |]; repeat constructor.
Qed.

Lemma plainRow_leaf `{ShortestDigits} it s :
  plainRow it -> getChildren (Some it) s = Normal [].
Proof. intros (Hc & _ & _). unfold getChildren. rewrite Hc. reflexivity. Qed.

(** X12.  Once loading is over and the cache keys contain a point, the root
    list is one row per code of the instrument list, in the order of the list
    and each carrying its code, followed by at most two rows that are no
    instruments. *)
Theorem root_rows_follow_list `{ShortestDigits} (s : Provider) :
  isLoading s = false -> dottedKeys (stocksData s) ->
  exists rows rest,
    getChildren None s = Normal (rows ++ rest)
    /\ map stockCode rows = map Some (stockCodeList s)
    /\ Forall (fun it => isRoot it = true) rows
    /\ Forall plainRow rest /\ (length rest <= 2)%nat.
Proof.
  intros Hl Hd. cbn [getChildren]. unfold getRootItems. rewrite Hl.
  destruct (mapC_normal (rootItemOf s) (fun it => isRoot it = true)
              (stockCodeList s) (fun c => rootItemOf_normal s c Hd))
    as (rows & E & HP).
  rewrite E. cbn [bindC].
  exists rows,
    ((if snd (totalProfitLoss s)
      then [profitLossItem (fst (totalProfitLoss s))] else [])
     ++ (if JSString.truthy (lastUpdateTime s)
         then [updateTimeRow (lastUpdateTime s)] else [])).
  split.
  { destruct (totalProfitLoss s) as [total has]. cbn [fst snd].
    destruct has, (JSString.truthy (lastUpdateTime s));
      rewrite <- ?app_assoc, ?app_nil_r; reflexivity. }
  split.
  { apply mapC_inv in E. clear HP. induction E as [|c row l rows' Hrow _ IH];
      [reflexivity |].
    cbn [map]. rewrite IH, (proj1 (rootItemOf_row _ _ _ Hrow)). reflexivity. }
  split; [exact HP |].
  destruct (snd (totalProfitLoss s)), (JSString.truthy (lastUpdateTime s));
    cbn [app length]; split; try lia; repeat constructor.
Qed.

Lemma root_rows_follow_list_witness :
  exists rows rest,
    @getChildren examplePrinter None exampleLoaded = Normal (rows ++ rest)
    /\ map stockCode rows = map Some (stockCodeList exampleLoaded)
    /\ Forall (fun it => isRoot it = true) rows
    /\ Forall plainRow rest /\ (length rest <= 2)%nat.
Proof.
  apply (@root_rows_follow_list examplePrinter exampleLoaded).
  - reflexivity.
  - exact exampleLoaded_dottedKeys.
Defined.

(** X13.  The tree has two levels: a child of any row is no instrument, so
    it has no children of its own and the edit command refuses it. *)
Theorem children_are_leaves `{ShortestDigits}
    (el ch : StockItem) (kids : list StockItem) (s s' : Provider)
    (input : option string) (now : string) (e : Engine) :
  getChildren (Some el) s = Normal kids -> In ch kids ->
  plainRow ch
  /\ getChildren (Some ch) s' = Normal []
  /\ editHoldingShares (Some ch) input now e
     = (e, Some (ErrorMessage "无法获取股票代码")).
Proof.
  intros Hkids Hin.
  assert (Hplain : plainRow ch).
  { unfold getChildren in Hkids. destruct (stockCode el) as [c|].
    - destruct (isRoot el && JSString.truthy c); inversion Hkids; subst.
      + pose proof (getDetailItems_plain c s) as Hall.
        rewrite Forall_forall in Hall. apply Hall, list_elem_of_In, Hin.
      + destruct Hin.
    - inversion Hkids; subst. destruct Hin. }
  split; [exact Hplain |]. split; [apply plainRow_leaf, Hplain |].
  unfold editHoldingShares. rewrite (proj1 Hplain). reflexivity.
Qed.

Lemma children_are_leaves_witness :
  plainRow exampleDetailRow
  /\ @getChildren examplePrinter (Some exampleDetailRow) exampleLoaded = Normal []
  /\ @editHoldingShares examplePrinter (Some exampleDetailRow) (Some "5") "09:31:00"
       exampleEngine
     = (exampleEngine, Some (ErrorMessage "无法获取股票代码")).
Proof.
  apply (@children_are_leaves examplePrinter
           (newStockItem "腾讯控股" Collapsed None None (Some "116.00700") true)
           _ (@getDetailItems examplePrinter "116.00700" exampleLoaded)
           exampleLoaded).
  - reflexivity.
  - vm_compute. left. reflexivity.
Defined.

(** ** The transition system *)

Lemma startFetch_loading now cfg reqs s :
  isLoading s = false -> isLoading (provider (startFetch now cfg reqs s)) = false.
Proof.
  intros Hs. unfold startFetch, fetchAllStockData.
  destruct (length (stockCodeList s) =? 0)%nat; [reflexivity | exact Hs].
Qed.

Lemma respond_loading `{ShortestDigits} req r s s' :
  respond req r s = Normal s' -> isLoading s' = false.
Proof.
  destruct r as [|[|[| |stocks]]]; cbn; intros E; inversion E; reflexivity.
Qed.

Lemma step_loading `{ShortestDigits} e e' :
  step e e' -> isLoading (provider e) = false -> isLoading (provider e') = false.
Proof.
  intros Hstep He. destruct Hstep.
  - unfold refresh. apply startFetch_loading.
    rewrite (proj1 (proj2 (loadStockCodes_frame _ _))). exact He.
  - unfold tick. apply startFetch_loading, He.
  - unfold refresh. apply startFetch_loading. cbn [settings provider].
    rewrite (proj1 (proj2 (loadStockCodes_frame _ _))). exact He.
  - unfold updateHoldingShares, refresh. apply startFetch_loading.
    cbn [settings provider].
    rewrite (proj1 (proj2 (loadStockCodes_frame _ _))). exact He.
  - cbn [provider]. eapply respond_loading; eassumption.
Qed.

(** X14.  The loading placeholder never comes back: once [isLoading] is
    false it stays false through every refresh, timer tick, configuration
    change, holdings update and response. *)
Theorem loading_never_returns `{ShortestDigits} (e e' : Engine) :
  rtc step e e' -> isLoading (provider e) = false ->
  isLoading (provider e') = false.
Proof.
  induction 1 as [|e1 e2 e3 Hstep _ IH]; [trivial |].
  intros He. apply IH, (step_loading _ _ Hstep He).
Qed.

Lemma loading_never_returns_witness :
  isLoading (provider (tick "09:30:06" (refresh "09:30:03" exampleEngine))) = false.
Proof.
  apply (@loading_never_returns examplePrinter exampleEngine).
  - eapply rtc_l; [apply step_refresh |]. eapply rtc_l; [apply step_tick |].
    apply rtc_refl.
  - reflexivity.
Defined.

Lemma getRootItems_total `{ShortestDigits} s :
  dottedKeys (stocksData s) -> exists rows, getRootItems s = Normal rows.
Proof.
  intros Hd. destruct (isLoading s) eqn:Hl.
  - unfold getRootItems. rewrite Hl. eauto.
  - destruct (getRootItems_shape s Hl Hd) as (rows & _ & E). rewrite E. eauto.
Qed.

Lemma rtc_dottedKeys `{ShortestDigits} e e' :
  rtc step e e' -> dottedKeys (stocksData (provider e)) ->
  dottedKeys (stocksData (provider e')).
Proof.
  induction 1 as [|e1 e2 e3 Hstep _ IH]; [trivial |].
  intros He. apply IH, (step_dottedKeys _ _ He Hstep).
Qed.

(** X15.  In every state the extension can reach from its construction, the
    root list is produced: [getChildren()] does not throw, and neither does
    [getChildren] on any element. *)
Theorem reachable_tree_is_total `{ShortestDigits}
    (now : string) (cfg : list string) (e : Engine) (element : option StockItem) :
  rtc step (construct now cfg) e ->
  exists rows, getChildren element (provider e) = Normal rows.
Proof.
  intros Hreach.
  pose proof (rtc_dottedKeys _ _ Hreach (proj2 (construct_invariants now cfg))) as Hd.
  destruct element as [el|]; cbn [getChildren].
  - destruct (stockCode el) as [c|]; [| eauto].
    destruct (isRoot el && JSString.truthy c); eauto.
  - apply getRootItems_total, Hd.
Qed.

Lemma reachable_tree_is_total_witness :
  isLoading (provider exampleAnswered) = false
  /\ is_Some (stocksData (provider exampleAnswered) !! "116.00700")
  /\ exists rows,
       @getChildren examplePrinter None (provider exampleAnswered) = Normal rows.
Proof.
  split; [reflexivity |]. split; [vm_compute; eauto |].
  apply (@reachable_tree_is_total examplePrinter "09:30:00"
           ["1.000001"; "116.00700:100"]).
  exact exampleAnswered_reachable.
Defined.

Lemma option_list_nil {A} (o : option A) : option_list o = [] <-> o = None.
Proof. destruct o; split; try reflexivity; discriminate. Qed.

Lemma app_same_nil {A} (l l' : list A) : l ++ l' = l <-> l' = [].
Proof.
  split; [| intros ->; apply app_nil_r].
  intros E. apply (f_equal (@length A)) in E. rewrite length_app in E.
  destruct l'; [reflexivity | cbn in E; lia].
Qed.

(** X16.  A refresh issues a request unless the instrument list comes out
    empty, which is when the setting has a non-blank entry but no entry
    contributes a code; the tree is then told of a change at once. *)
Theorem refresh_requests_unless_codeless (now : string) (e : Engine) :
  (inflight (refresh now e) = inflight e
   <-> hasEntries (settings e) = true /\ configuredCodes (settings e) = [])
  /\ (inflight (refresh now e) = inflight e ->
      fired (provider (refresh now e)) = S (fired (provider e))
      /\ isLoading (provider (refresh now e)) = false
      /\ stocksData (provider (refresh now e)) = stocksData (provider e)).
Proof.
  unfold refresh, startFetch, fetchAllStockData.
  pose proof (registry_codes (settings e) (provider e)) as Hlist.
  destruct (loadStockCodes_frame (settings e) (provider e)) as (Fd & _ & _ & Ff).
  destruct (stockCodeList (loadStockCodes (settings e) (provider e))) as [|c l] eqn:El;
    cbn [length Nat.eqb provider inflight option_list fired isLoading stocksData].
  - rewrite app_nil_r, Ff, Fd. split; [| auto].
    split; [intros _ | reflexivity].
    destruct (hasEntries (settings e)); [auto | discriminate].
  - rewrite app_same_nil. split; [| discriminate]. split; [discriminate |].
    intros [Hh Hc]. rewrite Hh, Hc in Hlist. discriminate.
Qed.

(** ** The update timer *)

Lemma clearInterval_own h p : clearInterval h [(h, p)] = [].
Proof. unfold clearInterval. cbn [List.filter fst]. rewrite Nat.eqb_refl. reflexivity. Qed.

(** X17.  Whatever sequence of [startAutoUpdate], [stopAutoUpdate] and
    [deactivate] runs, at most one interval timer is alive, it is the one
    [updateInterval] holds, and [deactivate] leaves none. *)
Theorem at_most_one_timer (calls : list TimerCall) :
  (match updateInterval (fold_left runTimerCall calls initialScheduler) with
   | Some h => exists period,
       timers (fold_left runTimerCall calls initialScheduler) = [(h, period)]
   | None => timers (fold_left runTimerCall calls initialScheduler) = []
   end)
  /\ timers (deactivate (fold_left runTimerCall calls initialScheduler)) = [].
Proof.
  assert (Hinv : forall sch,
            match updateInterval sch with
            | Some h => exists period, timers sch = [(h, period)]
            | None => timers sch = []
            end ->
            forall call,
            match updateInterval (runTimerCall sch call) with
            | Some h => exists period, timers (runTimerCall sch call) = [(h, period)]
            | None => timers (runTimerCall sch call) = []
            end).
  { intros sch Hs call. destruct call as [interval| |];
      cbn [runTimerCall]; unfold deactivate, stopAutoUpdate, startAutoUpdate;
      destruct (updateInterval sch) as [h|] eqn:E;
      cbn [updateInterval timers]; rewrite ?E; try exact Hs.
    - destruct Hs as [p ->]. rewrite clearInterval_own. eauto.
    - rewrite Hs. eauto.
    - destruct Hs as [p ->]. apply clearInterval_own.
    - destruct Hs as [p ->]. apply clearInterval_own. }
  assert (Hall : forall calls sch,
            match updateInterval sch with
            | Some h => exists period, timers sch = [(h, period)]
            | None => timers sch = []
            end ->
            match updateInterval (fold_left runTimerCall calls sch) with
            | Some h => exists period,
                timers (fold_left runTimerCall calls sch) = [(h, period)]
            | None => timers (fold_left runTimerCall calls sch) = []
            end).
  { induction calls0 as [|call rest IH]; intros sch Hs; [exact Hs |].
    cbn [fold_left]. apply IH, Hinv, Hs. }
  pose proof (Hall calls initialScheduler eq_refl) as Hnow.
  split; [exact Hnow |].
  unfold deactivate, stopAutoUpdate.
  destruct (updateInterval (fold_left runTimerCall calls initialScheduler)) as [h|].
  - destruct Hnow as [p ->]. cbn [timers]. apply clearInterval_own.
  - exact Hnow.
Qed.

(** ** The edit command *)

Lemma lt0_ofZ z : lt0 (ofZ z) = (z <? 0)%Z.
Proof.
  unfold lt0, ofZ, Qc_ltb. rewrite this_ofZ.
  change (this 0%Qc) with (inject_Z 0).
  unfold Qle_bool, inject_Z. cbn [Qnum Qden].
  rewrite !Z.mul_1_r, Z.ltb_antisym. reflexivity.
Qed.

Lemma NumberIsInteger_ofZ z : NumberIsInteger (ofZ z) = true.
Proof.
  unfold NumberIsInteger, ofZ, isInteger. rewrite this_ofZ. reflexivity.
Qed.

Lemma typed_digits n :
  (0 <= n <= MAX_SAFE_INTEGER)%Z ->
  JSString.trim (decimalDigits (Z.to_N n)) = decimalDigits (Z.to_N n)
  /\ JSString.truthy (decimalDigits (Z.to_N n)) = true
  /\ parseFloat (decimalDigits (Z.to_N n)) = ofZ n
  /\ parseInt (decimalDigits (Z.to_N n)) = ofZ n.
Proof.
  intros Hn.
  split; [apply allDigits_trim, decimalDigits_allDigits |].
  split; [apply truthy_true, decimalDigits_nonempty |].
  rewrite parseFloat_decimalDigits, parseInt_decimalDigits by (rewrite Z2N.id; lia).
  rewrite Z2N.id by lia. split; reflexivity.
Qed.

(** X18.  A share count typed as decimal digits passes the validation of
    the input box, and the command then stores exactly that count: the
    engine is the one [updateHoldingShares] gives for the number typed, and
    the holdings map reads it back (no holding for zero). *)
Theorem typed_count_is_stored `{ShortestDigits}
    (it : StockItem) (c : string) (n : Z) (now : string) (e : Engine) :
  stockCode it = Some c -> cleanCode c -> (0 <= n <= MAX_SAFE_INTEGER)%Z ->
  validateInput (decimalDigits (Z.to_N n)) = None
  /\ fst (editHoldingShares (Some it) (Some (decimalDigits (Z.to_N n))) now e)
     = updateHoldingShares c (ofZ n) now e
  /\ JSMap.get c
       (holdingShares
          (provider
             (fst (editHoldingShares (Some it) (Some (decimalDigits (Z.to_N n)))
                     now e))))
     = if (0 <? n)%Z then Some (ofZ n) else None.
Proof.
  intros Hit Hc Hn. destruct (typed_digits n Hn) as (Ht & Hy & Hf & Hi).
  assert (Hedit : fst (editHoldingShares (Some it) (Some (decimalDigits (Z.to_N n)))
                         now e)
                  = updateHoldingShares c (ofZ n) now e).
  { unfold editHoldingShares. rewrite Hit, (truthy_true c (proj1 Hc)).
    cbn [negb]. rewrite Ht, Hy, Hi. reflexivity. }
  split.
  { unfold validateInput. rewrite Ht, Hy, Hf. cbn [negb isNaN ofZ].
    fold (ofZ n). rewrite lt0_ofZ, NumberIsInteger_ofZ.
    replace (n <? 0)%Z with false by (symmetry; apply Z.ltb_ge; lia). reflexivity. }
  split; [exact Hedit |].
  rewrite Hedit, (proj2 (proj2 (updateHoldingShares_state c (ofZ n) now e))).
  rewrite holding_lookup. apply rewritten_holding; [exact Hc | lia].
Qed.

Lemma typed_count_is_stored_witness :
  validateInput (decimalDigits (Z.to_N 250)) = None
  /\ fst (@editHoldingShares examplePrinter
            (Some (newStockItem "上证指数" Collapsed None None (Some "1.000001") true))
            (Some (decimalDigits (Z.to_N 250))) "09:31:00" exampleEngine)
     = @updateHoldingShares examplePrinter "1.000001" (ofZ 250) "09:31:00" exampleEngine
  /\ JSMap.get "1.000001"
       (holdingShares
          (provider
             (fst (@editHoldingShares examplePrinter
                     (Some (newStockItem "上证指数" Collapsed None None (Some "1.000001") true))
                     (Some (decimalDigits (Z.to_N 250))) "09:31:00" exampleEngine))))
     = if (0 <? 250)%Z then Some (ofZ 250) else None.
Proof.
  apply (@typed_count_is_stored examplePrinter).
  - reflexivity.
  - apply (registry_codes_clean [] initialProvider). left. reflexivity.
  - unfold MAX_SAFE_INTEGER. lia.
Defined.

(** X19.  An input of white space only passes the validation and clears the
    holding: the command runs the update with zero shares, the code has no
    holding afterwards, and the message is the one for a cleared position. *)
Theorem blank_input_clears `{ShortestDigits}
    (it : StockItem) (c text : string) (now : string) (e : Engine) :
  stockCode it = Some c -> cleanCode c -> isBlank text = true ->
  validateInput text = None
  /\ editHoldingShares (Some it) (Some text) now e
     = (updateHoldingShares c (ofZ 0) now e,
        Some (InformationMessage ("已清除 " +:+ label it +:+ " 的持仓配置")))
  /\ JSMap.get c
       (holdingShares (provider (fst (editHoldingShares (Some it) (Some text) now e))))
     = None.
Proof.
  intros Hit Hc Hb. unfold isBlank in Hb.
  assert (Hedit : editHoldingShares (Some it) (Some text) now e
                  = (updateHoldingShares c (ofZ 0) now e,
                     Some (InformationMessage
                             ("已清除 " +:+ label it +:+ " 的持仓配置")))).
  { unfold editHoldingShares. rewrite Hit, (truthy_true c (proj1 Hc)).
    cbn [negb]. rewrite Hb, gt0_ofZ. reflexivity. }
  split; [unfold validateInput; rewrite Hb; reflexivity |].
  split; [exact Hedit |].
  rewrite Hedit. cbn [fst].
  rewrite (proj2 (proj2 (updateHoldingShares_state c (ofZ 0) now e))).
  rewrite holding_lookup.
  apply (rewritten_holding (settings e) c 0 Hc). unfold MAX_SAFE_INTEGER. lia.
Qed.

Lemma blank_input_clears_witness :
  validateInput "  " = None
  /\ @editHoldingShares examplePrinter
       (Some (newStockItem "腾讯控股" Collapsed None None (Some "116.00700") true))
       (Some "  ") "09:31:00" exampleEngine
     = (@updateHoldingShares examplePrinter "116.00700" (ofZ 0) "09:31:00" exampleEngine,
        Some (InformationMessage
                ("已清除 "
                 +:+ label (newStockItem "腾讯控股" Collapsed None None
                              (Some "116.00700") true)
                 +:+ " 的持仓配置")))
  /\ JSMap.get "116.00700"
       (holdingShares
          (provider
             (fst (@editHoldingShares examplePrinter
                     (Some (newStockItem "腾讯控股" Collapsed None None
                              (Some "116.00700") true))
                     (Some "  ") "09:31:00" exampleEngine))))
     = None.
Proof.
  apply (@blank_input_clears examplePrinter).
  - reflexivity.
  - apply (registry_codes_clean ["116.00700"] initialProvider).
    left. reflexivity.
  - reflexivity.
Defined.

Lemma second_part (parts : list string) :
  (1 <? length parts)%nat
  = match nth_error parts 1 with Some _ => true | None => false end
  /\ forall rhs, nth_error parts 1 = Some rhs -> nth 1 parts EmptyString = rhs.
Proof.
  destruct parts as [|a [|b r]]; split; try reflexivity; try discriminate.
  intros rhs E. inversion E. reflexivity.
Qed.

Lemma currentSharesOf_cons x rest c :
  currentSharesOf (x :: rest) c
  = if String.eqb (entryCode x) c
       && (1 <? length (JSString.split ":" (JSString.trim x)))%nat
    then match entryShares x with Some v => v | None => ofZ 0 end
    else currentSharesOf rest c.
Proof.
  cbn [currentSharesOf]. fold (entryCode x).
  destruct (String.eqb (entryCode x) c); cbn [andb]; [| reflexivity].
  destruct (second_part (JSString.split ":" (JSString.trim x))) as [L N].
  rewrite L. unfold entryShares.
  destruct (nth_error (JSString.split ":" (JSString.trim x)) 1) as [rhs|];
    [| reflexivity].
  rewrite (N rhs eq_refl). unfold accepted.
  destruct (negb (isNaN (parseFloat (JSString.trim rhs)))
            && gt0 (parseFloat (JSString.trim rhs))); reflexivity.
Qed.

Lemma entryShares_annotated x v :
  entryShares x = Some v ->
  (1 <? length (JSString.split ":" (JSString.trim x)))%nat = true.
Proof.
  rewrite (proj1 (second_part _)). unfold entryShares.
  destruct (nth_error (JSString.split ":" (JSString.trim x)) 1);
    [reflexivity | discriminate].
Qed.

Lemma currentSharesOf_rewritten `{ShortestDigits} cfg c n :
  cleanCode c -> (n <= MAX_SAFE_INTEGER)%Z ->
  currentSharesOf (rewriteEntries cfg c (ofZ n)) c
  = if (0 <? n)%Z then ofZ n else ofZ 0.
Proof.
  intros Hc Hn. rewrite rewriteEntries_spec.
  destruct (holdingEntry_read c n Hc Hn) as (HA & HB & HC).
  assert (Hown : forall rest,
            currentSharesOf (holdingEntry c (ofZ n) :: rest) c
            = if (0 <? n)%Z then ofZ n else currentSharesOf rest c).
  { intros rest. rewrite currentSharesOf_cons, HA, String.eqb_refl. cbn [andb].
    destruct (0 <? n)%Z eqn:P.
    - rewrite (entryShares_annotated _ _ HC), HC. reflexivity.
    - unfold holdingEntry. rewrite gt0_ofZ, P.
      destruct Hc as (_ & Hcolon & Htrim).
      rewrite Htrim, (split_without_sep _ _ Hcolon). reflexivity. }
  assert (Hkept : forall l tl,
            currentSharesOf
              (map (rewrittenEntry c (ofZ n))
                 (List.filter (fun entry => negb (isBlank entry)) l) ++ tl) c
            = if mentions l c && (0 <? n)%Z then ofZ n else currentSharesOf tl c).
  { induction l as [|x l IH]; intros tl; [reflexivity |].
    rewrite mentions_cons. cbn [List.filter].
    destruct (isBlank x) eqn:B; cbn [negb andb orb]; [apply IH |].
    cbn [map app]. unfold rewrittenEntry at 1.
    destruct (String.eqb (entryCode x) c) eqn:E; cbn [orb].
    - rewrite Hown, IH. destruct (0 <? n)%Z; [reflexivity |].
      rewrite andb_false_r. reflexivity.
    - rewrite currentSharesOf_cons.
      rewrite (proj1 (trimmed_entry x)), E. cbn [andb]. apply IH. }
  rewrite Hkept, gt0_ofZ.
  destruct (mentions cfg c), (0 <? n)%Z eqn:P; cbn [negb andb]; try reflexivity.
  rewrite Hown. reflexivity.
Qed.

Lemma rewriteEntries_nonpositive `{ShortestDigits} cfg c sh sh' :
  gt0 sh = false -> gt0 sh' = false ->
  rewriteEntries cfg c sh = rewriteEntries cfg c sh'.
Proof.
  intros G G'. rewrite !rewriteEntries_spec, G, G', !andb_false_r. f_equal.
  apply map_ext. intros x. unfold rewrittenEntry, holdingEntry. rewrite G, G'.
  reflexivity.
Qed.

(** X20.  The editor reopens on what was stored: after a holdings update
    with a safe integer count the input box is prefilled with the digits of
    that count (empty when it is not positive), and accepting the prefilled
    text unchanged writes the setting back as it is. *)
Theorem editor_reopens_with_stored_count `{ShortestDigits}
    (it : StockItem) (c : string) (n : Z) (now now' : string) (e : Engine) :
  stockCode it = Some c -> cleanCode c -> (n <= MAX_SAFE_INTEGER)%Z ->
  prefilledValue
    (currentSharesOf (settings (updateHoldingShares c (ofZ n) now e)) c)
  = (if (0 <? n)%Z then decimalDigits (Z.to_N n) else EmptyString)
  /\ settings
       (fst (editHoldingShares (Some it)
               (Some (prefilledValue
                        (currentSharesOf
                           (settings (updateHoldingShares c (ofZ n) now e)) c)))
               now' (updateHoldingShares c (ofZ n) now e)))
     = settings (updateHoldingShares c (ofZ n) now e).
Proof.
  intros Hit Hc Hn.
  assert (Hpre : prefilledValue
                   (currentSharesOf
                      (settings (updateHoldingShares c (ofZ n) now e)) c)
                 = if (0 <? n)%Z then decimalDigits (Z.to_N n) else EmptyString).
  { rewrite (proj1 (updateHoldingShares_state c (ofZ n) now e)).
    rewrite (currentSharesOf_rewritten _ c n Hc Hn). unfold prefilledValue.
    destruct (0 <? n)%Z eqn:P; rewrite gt0_ofZ.
    - rewrite P. apply Z.ltb_lt in P. apply ToString_ofZ. lia.
    - reflexivity. }
  split; [exact Hpre |]. rewrite Hpre.
  unfold editHoldingShares. rewrite Hit, (truthy_true c (proj1 Hc)). cbn [negb fst].
  rewrite (proj1 (updateHoldingShares_state c _ now' _)).
  rewrite (proj1 (updateHoldingShares_state c (ofZ n) now e)).
  destruct (0 <? n)%Z eqn:P.
  - apply Z.ltb_lt in P.
    destruct (typed_digits n (conj (Z.lt_le_incl _ _ P) Hn)) as (Ht & Hy & _ & Hi).
    rewrite Ht, Hy, Hi. cbn [negb]. apply rewriteEntries_idempotent, Hc.
  - change (JSString.truthy (JSString.trim EmptyString)) with false. cbn [negb].
    rewrite (rewriteEntries_nonpositive _ c (ofZ 0) (ofZ n));
      [apply rewriteEntries_idempotent, Hc | reflexivity | rewrite gt0_ofZ; exact P].
Qed.

Lemma editor_reopens_with_stored_count_witness :
  @prefilledValue examplePrinter
    (currentSharesOf
       (settings (@updateHoldingShares examplePrinter "116.00700" (ofZ 250)
                    "09:31:00" exampleEngine)) "116.00700")
  = (if (0 <? 250)%Z then decimalDigits (Z.to_N 250) else EmptyString)
  /\ settings
       (fst (@editHoldingShares examplePrinter
               (Some (newStockItem "腾讯控股" Collapsed None None
                        (Some "116.00700") true))
               (Some (@prefilledValue examplePrinter
                        (currentSharesOf
                           (settings (@updateHoldingShares examplePrinter "116.00700"
                                        (ofZ 250) "09:31:00" exampleEngine))
                           "116.00700")))
               "09:32:00"
               (@updateHoldingShares examplePrinter "116.00700" (ofZ 250)
                  "09:31:00" exampleEngine)))
     = settings (@updateHoldingShares examplePrinter "116.00700" (ofZ 250)
                   "09:31:00" exampleEngine).
Proof.
  apply (@editor_reopens_with_stored_count examplePrinter).
  - reflexivity.
  - apply (registry_codes_clean ["116.00700"] initialProvider).
    left. reflexivity.
  - unfold MAX_SAFE_INTEGER. lia.
Defined.

(** ** Market tags and decimal places *)

Lemma strictEq_ofZ_eqb a b : strictEq (ofZ a) (ofZ b) = (a =? b)%Z.
Proof.
  unfold strictEq, ofZ, Qc_eqb. rewrite !this_ofZ.
  unfold Qeq_bool, inject_Z. cbn [Qnum Qden]. rewrite !Z.mul_1_r.
  reflexivity.
Qed.

Lemma decimalDigits_eqb a b :
  String.eqb (decimalDigits a) (decimalDigits b) = (a =? b)%N.
Proof.
  destruct (N.eqb_spec a b) as [->|Hne]; [apply String.eqb_refl |].
  apply String.eqb_neq. intros E. apply Hne.
  rewrite <- (decimalDigits_value a), <- (decimalDigits_value b), E. reflexivity.
Qed.

Lemma decimalDigits_eqb_Z m k :
  (0 <= m)%Z -> (0 <= k)%Z ->
  String.eqb (decimalDigits (Z.to_N m)) (decimalDigits (Z.to_N k)) = (m =? k)%Z.
Proof.
  intros Hm Hk. rewrite decimalDigits_eqb.
  destruct (Z.eqb_spec m k) as [->|Hne]; [apply N.eqb_refl |].
  apply N.eqb_neq. intros E. apply Hne. apply Z2N.inj; assumption.
Qed.

Lemma isHKorUS_ofZ m :
  isHKorUS (ofZ m) = ((m =? 116) || (m =? 105) || (m =? 106) || (m =? 107))%Z.
Proof. unfold isHKorUS. rewrite !strictEq_ofZ_eqb. reflexivity. Qed.

Lemma digits_no_point n : ~ JSString.contains "." (decimalDigits n).
Proof.
  apply allDigits_no_char; [| apply decimalDigits_allDigits].
  intros c Hd. destruct (Ascii.eqb_spec c ".") as [->|]; [discriminate Hd | reflexivity].
Qed.

(** X21.  The two encodings of the market agree: for a record whose market
    id is a safe non-negative integer, the row of its code is tagged Hong
    Kong or US exactly when its prices were decoded with three decimals. *)
Theorem tag_matches_decimals `{ShortestDigits}
    (t : string) (r : RawStock) (m : Z) :
  f13 r = ofZ m -> (0 <= m <= MAX_SAFE_INTEGER)%Z ->
  exists tag color,
    marketTagOf (code (quoteOf t r)) = Normal (tag, color)
    /\ ((tag = " ［港］" \/ tag = " ［美］") <-> isHKorUS (f13 r) = true).
Proof.
  intros Hm Hrange. cbn [code quoteOf]. rewrite Hm, isHKorUS_ofZ.
  rewrite (ToString_ofZ m Hrange).
  change ("." +:+ f12 r) with (String "." (f12 r)).
  unfold marketTagOf.
  rewrite (split_app_sep "." _ (f12 r) (digits_no_point _)).
  destruct (JSString.split "." (f12 r)) as [|sc rest] eqn:Es;
    [destruct (split_nonempty _ _ Es) |].
  cbn [nth nth_error].
  change "116" with (decimalDigits (Z.to_N 116)).
  change "105" with (decimalDigits (Z.to_N 105)).
  change "106" with (decimalDigits (Z.to_N 106)).
  change "107" with (decimalDigits (Z.to_N 107)).
  change "0" with (decimalDigits (Z.to_N 0)).
  change "1" with (decimalDigits (Z.to_N 1)).
  rewrite !decimalDigits_eqb_Z by lia.
  destruct (m =? 116)%Z; cbn [orb].
  { do 2 eexists. split; [reflexivity |]. split; auto. }
  destruct ((m =? 105)%Z || (m =? 106)%Z || (m =? 107)%Z); cbn [orb].
  { do 2 eexists. split; [reflexivity |]. split; auto. }
  destruct (m =? 0)%Z.
  { destruct (JSString.startsWith _ sc); do 2 eexists;
      (split; [reflexivity |]); split; try discriminate;
      intros [E|E]; discriminate E. }
  destruct (m =? 1)%Z.
  { destruct (JSString.startsWith _ sc); do 2 eexists;
      (split; [reflexivity |]); split; try discriminate;
      intros [E|E]; discriminate E. }
  do 2 eexists. split; [reflexivity |]. split; try discriminate.
  intros [E|E]; discriminate E.
Qed.

Lemma tag_matches_decimals_witness :
  exists tag color,
    marketTagOf (code (@quoteOf examplePrinter "09:30:00" exampleHK))
    = Normal (tag, color)
    /\ ((tag = " ［港］" \/ tag = " ［美］") <-> isHKorUS (f13 exampleHK) = true).
Proof.
  apply (@tag_matches_decimals examplePrinter "09:30:00" exampleHK 116).
  - reflexivity.
  - unfold MAX_SAFE_INTEGER. lia.
Defined.

Lemma trimEnd_digits_app d y :
  allDigits d -> d <> EmptyString ->
  JSString.trimEnd (d +:+ y) = d +:+ JSString.trimEnd y.
Proof.
  induction d as [|c d IH]; [congruence |]. intros Hd _.
  apply allDigits_cons in Hd as [Hc Hd].
  change (String c d +:+ y) with (String c (d +:+ y)).
  change (String c d +:+ JSString.trimEnd y) with (String c (d +:+ JSString.trimEnd y)).
  cbn [JSString.trimEnd]. destruct d as [|c' d'].
  - change (EmptyString +:+ y) with y.
    change (EmptyString +:+ JSString.trimEnd y) with (JSString.trimEnd y).
    destruct (JSString.trimEnd y); [| reflexivity].
    rewrite (proj1 (digit_facts c Hc)). reflexivity.
  - rewrite (IH Hd) by discriminate. reflexivity.
Qed.

Lemma spanDigits_trimEnd_nondigit ch rest :
  isDigit ch = false -> fst (spanDigits (JSString.trimEnd (String ch rest))) = [].
Proof.
  intros Hch. cbn [JSString.trimEnd].
  destruct (JSString.trimEnd rest).
  - destruct (JSString.isWhiteSpace ch); [reflexivity |].
    cbn [spanDigits]. rewrite Hch. reflexivity.
  - cbn [spanDigits]. rewrite Hch. reflexivity.
Qed.

Lemma parseInt_leading_digits d ch rest :
  allDigits d -> d <> EmptyString -> isDigit ch = false ->
  JSString.truthy (JSString.trim (d +:+ String ch rest)) = true
  /\ parseInt (JSString.trim (d +:+ String ch rest)) = parseInt d.
Proof.
  intros Hd Hne Hch.
  destruct (allDigits_head d Hd Hne) as (c & r & -> & Hc).
  assert (Htrim : JSString.trim (String c r +:+ String ch rest)
                  = String c r +:+ JSString.trimEnd (String ch rest)).
  { unfold JSString.trim.
    change (String c r +:+ String ch rest) with (String c (r +:+ String ch rest)).
    cbn [JSString.trimStart]. rewrite (proj1 (digit_facts c Hc)).
    change (String c (r +:+ String ch rest)) with (String c r +:+ String ch rest).
    apply trimEnd_digits_app; assumption. }
  rewrite Htrim. split; [reflexivity |].
  rewrite (parseInt_digits _ Hd Hne). unfold parseInt.
  change (String c r +:+ JSString.trimEnd (String ch rest))
    with (String c (r +:+ JSString.trimEnd (String ch rest))).
  cbn [JSString.trimStart]. rewrite (proj1 (digit_facts c Hc)).
  rewrite (signOf_digit c _ Hc).
  change (String c (r +:+ JSString.trimEnd (String ch rest)))
    with (String c r +:+ JSString.trimEnd (String ch rest)).
  rewrite (spanDigits_allDigits _ _ Hd), (spanDigits_trimEnd_nondigit _ _ Hch).
  rewrite app_nil_r. reflexivity.
Qed.

(** X22.  The command stores the leading digits of the input: whatever
    follows a run of digits, from the first character that is no digit on,
    changes neither the engine nor the message the command ends with. *)
Theorem text_after_digits_is_ignored `{ShortestDigits}
    (item : option StockItem) (d rest : string) (ch : ascii)
    (now : string) (e : Engine) :
  allDigits d -> d <> EmptyString -> isDigit ch = false ->
  editHoldingShares item (Some (d +:+ String ch rest)) now e
  = editHoldingShares item (Some d) now e.
Proof.
  intros Hd Hne Hch.
  destruct (parseInt_leading_digits d ch rest Hd Hne Hch) as [Ht Hp].
  unfold editHoldingShares. rewrite Ht, Hp, (allDigits_trim d Hd).
  rewrite (truthy_true d Hne). reflexivity.
Qed.

Lemma text_after_digits_is_ignored_witness :
  @editHoldingShares examplePrinter
    (Some (newStockItem "腾讯控股" Collapsed None None (Some "116.00700") true))
    (Some ("1" +:+ String "e" "3")) "09:31:00" exampleEngine
  = @editHoldingShares examplePrinter
      (Some (newStockItem "腾讯控股" Collapsed None None (Some "116.00700") true))
      (Some "1") "09:31:00" exampleEngine.
Proof.
  apply (@text_after_digits_is_ignored examplePrinter).
  - repeat constructor.
  - discriminate.
  - reflexivity.
Defined.

(** The validation reads the exponent that the stored value drops. *)
Example validated_exponent_is_dropped :
  validateInput "1e3" = None
  /\ parseFloat "1e3" = ofZ 1000 /\ parseInt "1e3" = ofZ 1.
Proof.
  vm_compute. repeat split; try reflexivity; f_equal; apply Qc_is_canon; reflexivity.
Qed.

(** ** The request *)

Lemma split_join sep l :
  l <> [] -> Forall (fun c => ~ JSString.contains sep c) l ->
  JSString.split sep (JSString.join (String sep EmptyString) l) = l.
Proof.
  induction l as [|x l IH]; [congruence |]. intros _ Hall.
  inversion Hall as [|? ? Hx Hl]; subst. destruct l as [|y r].
  - cbn [JSString.join]. apply split_without_sep, Hx.
  - change (JSString.join (String sep EmptyString) (x :: y :: r))
      with (x +:+ String sep EmptyString
              +:+ JSString.join (String sep EmptyString) (y :: r)).
    change (String sep EmptyString +:+ JSString.join (String sep EmptyString) (y :: r))
      with (String sep (JSString.join (String sep EmptyString) (y :: r))).
    rewrite (split_app_sep sep x _ Hx), IH; [reflexivity | discriminate | exact Hl].
Qed.

(** X23.  The request of a cycle asks for the instrument list: when the
    list is not empty and no code contains a comma, a request is issued
    whose [secids] parameter splits at the commas into the codes of the
    list, in order, and which carries the time of the cycle. *)
Theorem request_lists_the_instruments (now : string) (s : Provider) :
  stockCodeList s <> [] ->
  Forall (fun c => ~ JSString.contains "," c) (stockCodeList s) ->
  exists req secids,
    snd (fetchAllStockData now s) = Some req
    /\ url req = "http://push2.eastmoney.com/api/qt/ulist.np/get?secids="
                 +:+ secids +:+ "&fields=f12,f13,f14,f2,f4,f3,f18"
    /\ JSString.split "," secids = stockCodeList s
    /\ batchTime req = now.
Proof.
  intros Hne Hall. rewrite (fetchAllStockData_start now s Hne). cbn [snd].
  eexists. exists (JSString.join "," (stockCodeList s)).
  split; [reflexivity |]. split; [reflexivity |].
  split; [apply split_join; assumption | reflexivity].
Qed.

Lemma request_lists_the_instruments_witness :
  exists req secids,
    snd (fetchAllStockData "09:30:03" exampleLoaded) = Some req
    /\ url req = "http://push2.eastmoney.com/api/qt/ulist.np/get?secids="
                 +:+ secids +:+ "&fields=f12,f13,f14,f2,f4,f3,f18"
    /\ JSString.split "," secids = stockCodeList exampleLoaded
    /\ batchTime req = "09:30:03".
Proof.
  apply (request_lists_the_instruments "09:30:03" exampleLoaded).
  - discriminate.
  - repeat constructor; unfold JSString.contains; cbn;
      intros Hin; repeat (destruct Hin as [Hin|Hin]; [discriminate Hin |]); exact Hin.
Defined.

(** ** The detail list in reachable states *)

Lemma step_holdingsInvariant `{ShortestDigits} e e' :
  holdingsInvariant (provider e) -> step e e' -> holdingsInvariant (provider e').
Proof.
  intros He Hstep. destruct Hstep.
  - unfold refresh. apply startFetch_invariant, loadStockCodes_invariant.
  - unfold tick. apply startFetch_invariant, He.
  - unfold refresh. apply startFetch_invariant, loadStockCodes_invariant.
  - unfold updateHoldingShares, refresh.
    apply startFetch_invariant, loadStockCodes_invariant.
  - cbn [provider]. match goal with Hr : respond _ _ _ = Normal _ |- _ =>
      destruct (respond_registry _ _ _ _ Hr) as [A B] end.
    exact (holdingsInvariant_registry _ _ A B He).
Qed.

Lemma rtc_holdingsInvariant `{ShortestDigits} e e' :
  rtc step e e' -> holdingsInvariant (provider e) -> holdingsInvariant (provider e').
Proof.
  induction 1 as [|e1 e2 e3 Hstep _ IH]; [trivial |].
  intros He. apply IH, (step_holdingsInvariant _ _ He Hstep).
Qed.

Lemma JSMap_get_In {V} k (m : JSMap.t V) v :
  JSMap.get k m = Some v -> In (k, v) (JSMap.entries m).
Proof.
  unfold JSMap.entries. induction m as [|[k' v'] m IH]; [discriminate |].
  cbn [JSMap.get]. destruct (String.eqb k' k) eqn:E.
  - apply String.eqb_eq in E. intros Hv. inversion Hv; subst. left. reflexivity.
  - intros Hv. right. exact (IH Hv).
Qed.

Lemma gt0_truthy x : gt0 x = true -> JSNumber.truthy x = true.
Proof.
  destruct x as [|neg|q]; cbn [gt0 JSNumber.truthy]; [discriminate | reflexivity |].
  unfold Qc_ltb, Qc_eqb. intros Hlt. apply negb_true_iff in Hlt.
  apply negb_true_iff.
  match goal with |- ?b = false => destruct b eqn:E; [| reflexivity] end.
  apply Qeq_bool_iff in E. apply not_true_iff_false in Hlt.
  destruct Hlt. apply Qle_bool_iff. rewrite E. apply Qle_refl.
Qed.

(** X24.  In every state reachable from the construction the detail list
    of a code has no row without a quote, two rows with a quote, and four
    rows exactly when the code also has a holding: the truthiness guard on
    the share count never hides a holding the map has. *)
Theorem reachable_detail_rows `{ShortestDigits}
    (now : string) (cfg : list string) (e : Engine) (c : string) :
  rtc step (construct now cfg) e ->
  length (getDetailItems c (provider e))
  = match stocksData (provider e) !! c with
    | None => 0%nat
    | Some _ =>
        match JSMap.get c (holdingShares (provider e)) with
        | Some _ => 4%nat
        | None => 2%nat
        end
    end.
Proof.
  intros Hreach.
  pose proof (rtc_holdingsInvariant _ _ Hreach (proj1 (construct_invariants now cfg)))
    as Hinv.
  unfold getDetailItems. destruct (stocksData (provider e) !! c); [| reflexivity].
  destruct (JSMap.get c (holdingShares (provider e))) as [v|] eqn:G; [| reflexivity].
  rewrite (gt0_truthy v (proj2 (Hinv c v (JSMap_get_In _ _ _ G)))). reflexivity.
Qed.

Lemma reachable_detail_rows_witness :
  is_Some (JSMap.get "116.00700" (holdingShares (provider exampleAnswered)))
  /\ length (@getDetailItems examplePrinter "116.00700" (provider exampleAnswered))
     = 4%nat.
Proof.
  split; [vm_compute; eauto |].
  rewrite (@reachable_detail_rows examplePrinter "09:30:00"
             ["1.000001"; "116.00700:100"] exampleAnswered "116.00700"
             exampleAnswered_reachable).
  vm_compute. reflexivity.
Defined.

